(** * The [Data] attribute wrapper of [main.py]

    A shallow embedding of the class [Data] and a verification of its
    specification.  Python objects live in an explicit heap, because the
    class mutates dictionaries that it shares with its callers and because
    some properties speak about object identity. *)

From Stdlib Require Import ZArith Lia.
From Stdlib Require Import Floats.PrimFloat.
From stdpp Require Import base option list strings.

Set Warnings "-inexact-float,-register-all".
Local Open Scope string_scope.
Local Open Scope list_scope.

(** ** Values and objects *)

Abbreviation addr := nat.

(** What a variable or a dictionary slot can hold.  Scalars and sequences
    are immutable here (the class never looks inside a sequence);
    dictionaries, wrapper instances and other dataclass instances are heap
    objects, reached through [VRef].  [VMethod self name] is what ordinary
    lookup of [name] on the instance [self] gives when that is an object
    of the host which the model keeps opaque: a bound method, or an object
    such as the class or the instance dictionary. *)
Inductive value : Type :=
| VNone
| VBool (b : bool)
| VInt (n : Z)
| VFloat (f : float)
| VStr (s : string)
| VSeq (xs : list value)
| VMethod (self : addr) (name : string)
| VRef (a : addr).

(** A [dict] keeps its entries in insertion order; keys are strings. *)
Abbreviation entries := (list (string * value)).

Inductive obj : Type :=
| ODict (d : entries)
    (** a plain [dict] *)
| OData (store : option value)
    (** an instance of [Data]: the binding of its only instance
        attribute [_data], [None] before [__init__] has bound it *)
| ORecord (conv : option value).
    (** an instance of some other dataclass: what its own [to_dict()]
        returns, [None] when it has no such method *)

Abbreviation heap := (list obj).

Inductive exn : Type :=
| TypeError
| AttributeError
| KeyError
| RecursionError
| Stuck.
    (** [Stuck] has no Python counterpart: a dangling address, or a method
        of [Data] applied to something that is not an instance. *)

Inductive result (A : Type) : Type :=
| Ok (a : A)
| Raise (e : exn).
Arguments Ok {A} a.
Arguments Raise {A} e.

Definition rbind {A B} (m : result A) (k : A -> result B) : result B :=
  match m with
  | Ok a => k a
  | Raise e => Raise e
  end.

Notation "'do' x <- m ; k" := (rbind m (fun x => k))
  (at level 10, x name, m at level 100, k at level 200, only parsing).
Notation "'do' ' p <- m ; k" := (rbind m (fun x => match x with p => k end))
  (at level 10, p pattern, m at level 100, k at level 200, only parsing).

(** ** Dictionaries *)

Fixpoint dict_get (k : string) (d : entries) : option value :=
  match d with
  | [] => None
  | (k', v) :: d' => if decide (k = k') then Some v else dict_get k d'
  end.

(** [d[k] = v]: an existing key keeps its position, a new key goes last. *)
Fixpoint dict_set (k : string) (v : value) (d : entries) : entries :=
  match d with
  | [] => [(k, v)]
  | (k', v') :: d' =>
      if decide (k = k') then (k, v) :: d' else (k', v') :: dict_set k v d'
  end.

(** [dict(pairs)]: the pairs are inserted one after the other. *)
Definition dict_of_pairs (l : entries) : entries :=
  fold_left (fun d kv => dict_set kv.1 kv.2 d) l [].

(** ** The heap and the operations of the host language *)

Definition alloc (o : obj) (h : heap) : addr * heap := (List.length h, h ++ [o]).

Definition isinstance_dict (h : heap) (v : value) : bool :=
  match v with
  | VRef a => match h !! a with Some (ODict _) => true | _ => false end
  | _ => false
  end.

(** [dataclasses.is_dataclass]: true of wrapper instances too, because
    [Data] itself is decorated with [@dataclass]. *)
Definition is_dataclass (h : heap) (v : value) : bool :=
  match v with
  | VRef a =>
      match h !! a with
      | Some (OData _) | Some (ORecord _) => true
      | _ => false
      end
  | _ => false
  end.

Definition is_str (k : string) (v : value) : bool :=
  match v with
  | VStr s => bool_decide (s = k)
  | _ => false
  end.

Definition substringb (k s : string) : bool :=
  match String.index 0 k s with Some _ => true | None => false end.

(** [k in c] *)
Definition py_contains (k : string) (c : value) (h : heap) : result bool :=
  match c with
  | VRef a =>
      match h !! a with
      | Some (ODict d) => Ok (bool_decide (is_Some (dict_get k d)))
      | Some _ => Raise TypeError
      | None => Raise Stuck
      end
  | VStr s => Ok (substringb k s)
  | VSeq xs => Ok (existsb (is_str k) xs)
  | _ => Raise TypeError
  end.

(** [c[k]] *)
Definition py_getitem (c : value) (k : string) (h : heap) : result value :=
  match c with
  | VRef a =>
      match h !! a with
      | Some (ODict d) =>
          match dict_get k d with Some v => Ok v | None => Raise KeyError end
      | Some _ => Raise TypeError
      | None => Raise Stuck
      end
  | _ => Raise TypeError
  end.

(** [c[k] = v] *)
Definition py_setitem (c : value) (k : string) (v : value) (h : heap)
  : result heap :=
  match c with
  | VRef a =>
      match h !! a with
      | Some (ODict d) => Ok (<[a := ODict (dict_set k v d)]> h)
      | Some _ => Raise TypeError
      | None => Raise Stuck
      end
  | _ => Raise TypeError
  end.

(** [c.setdefault(k, v)], its result dropped.  On an instance of [Data]
    the name [setdefault] resolves through [__getattr__] to a stored value
    or to [None]; the call of such a value is taken to be a [TypeError]
    (the properties below meet [setdefault] on dictionaries only). *)
Definition py_setdefault (c : value) (k : string) (v : value) (h : heap)
  : result heap :=
  match c with
  | VRef a =>
      match h !! a with
      | Some (ODict d) =>
          match dict_get k d with
          | Some _ => Ok h
          | None => Ok (<[a := ODict (dict_set k v d)]> h)
          end
      | Some (OData _) => Raise TypeError
      | Some (ORecord _) => Raise AttributeError
      | None => Raise Stuck
      end
  | _ => Raise AttributeError
  end.

(** [c.items()], as the list the loops below run over. *)
Definition py_items (c : value) (h : heap) : result entries :=
  match c with
  | VRef a =>
      match h !! a with
      | Some (ODict d) => Ok d
      | Some (OData _) => Raise TypeError
      | Some (ORecord _) => Raise AttributeError
      | None => Raise Stuck
      end
  | _ => Raise AttributeError
  end.

(** The keyword arguments a call receives when [c] is unpacked into it with
    the double-star syntax: the entries of [c]. *)
Definition py_unpack (c : value) (h : heap) : result entries :=
  match c with
  | VRef a =>
      match h !! a with
      | Some (ODict d) => Ok d
      | Some _ => Raise TypeError
      | None => Raise Stuck
      end
  | _ => Raise TypeError
  end.

(** [c.keys()], as a list. *)
Definition py_keys (c : value) (h : heap) : result (list string) :=
  match c with
  | VRef a =>
      match h !! a with
      | Some (ODict d) => Ok d.*1
      | Some (OData _) => Raise TypeError
      | Some (ORecord _) => Raise AttributeError
      | None => Raise Stuck
      end
  | _ => Raise AttributeError
  end.

(** ** The class *)

Module Data.

(** Names that ordinary attribute lookup finds on the class and that give
    an object of the host: the methods of the class body, what [@dataclass]
    adds, what every class has, and the methods of [object].  (Names that
    only some versions of the host define are not listed.) *)
Definition class_attrs : list string :=
  [ "__init__"; "from_dict"; "to_dict"; "_convert_dataclasses_to_dict";
    "__getattr__"; "__setattr__"; "flatten_dict"; "_set_default_values";
    "__dir__";
    "__dataclass_fields__"; "__dataclass_params__"; "__eq__"; "__repr__";
    "__class__"; "__dict__"; "__doc__"; "__module__";
    "__delattr__"; "__format__"; "__ge__"; "__getattribute__"; "__gt__";
    "__init_subclass__"; "__le__"; "__lt__"; "__ne__"; "__new__";
    "__reduce__"; "__reduce_ex__"; "__sizeof__"; "__str__";
    "__subclasshook__" ].

(** Names that ordinary lookup finds with the value [None]: [@dataclass]
    sets [__hash__] to [None] on a class with [eq] that is not frozen, and
    an instance without weak references has [__weakref__] [None]. *)
Definition none_attrs : list string := [ "__hash__"; "__weakref__" ].

(** [self._data], as every method reads it.  While the attribute is unbound
    the read falls into [__getattr__], which reads [self._data] again. *)
Definition self_data (self : addr) (h : heap) : result value :=
  match h !! self with
  | Some (OData (Some d)) => Ok d
  | Some (OData None) => Raise RecursionError
  | _ => Raise Stuck
  end.

(** [object.__getattribute__(self, attr)] *)
Definition object_getattribute (self : addr) (attr : string) (h : heap)
  : result value :=
  match h !! self with
  | Some (OData store) =>
      if decide (attr = "_data") then
        match store with Some d => Ok d | None => Raise AttributeError end
      else if bool_decide (attr ∈ none_attrs) then Ok VNone
      else if bool_decide (attr ∈ class_attrs) then Ok (VMethod self attr)
      else Raise AttributeError
  | _ => Raise Stuck
  end.

Definition __setattr__ (self : addr) (attr : string) (v : value) (h : heap)
  : result heap :=
  if decide (attr = "_data") then
    match h !! self with
    | Some (OData _) => Ok (<[self := OData (Some v)]> h)
    | _ => Raise Stuck
    end
  else
    do d <- self_data self h ;
    py_setitem d attr v h.

Definition _set_default_values (self : addr) (h : heap) : result heap :=
  do d <- self_data self h ;
  do present <- py_contains "metadata" d h ;
  do h <- (if present : bool then Ok h
        else
          let '(m, h) := alloc (ODict []) h in
          do d <- self_data self h ;
          py_setitem d "metadata" (VRef m) h) ;
  do d <- self_data self h ;
  do metadata <- py_getitem d "metadata" h ;
  do present <- py_contains "system" metadata h ;
  do h <- (if present : bool then Ok h
        else
          let '(s, h) := alloc (ODict []) h in
          py_setitem metadata "system" (VRef s) h) ;
  do system <- py_getitem metadata "system" h ;
  do h <- py_setdefault system "height" (VInt 100) h ;
  py_setdefault system "size" (VInt 10) h.

Definition __init__ (self : addr) (kwargs : value) (h : heap) : result heap :=
  do h <- __setattr__ self "_data" kwargs h ;
  _set_default_values self h.

(** Calling the class with keyword arguments.  A keyword named [self]
    cannot be passed: [self] is the first parameter of [__init__], which
    the instance takes, and the call raises [TypeError].  Otherwise the
    keyword dictionary is a new object, then the instance is created and
    initialised. *)
Definition new (kwargs : entries) (h : heap) : result (addr * heap) :=
  match dict_get "self" kwargs with
  | Some _ => Raise TypeError
  | None =>
      let '(k, h) := alloc (ODict kwargs) h in
      let '(self, h) := alloc (OData None) h in
      do h <- __init__ self (VRef k) h ;
      Ok (self, h)
  end.

Definition from_dict (data_dict : value) (h : heap) : result (addr * heap) :=
  do kwargs <- py_unpack data_dict h ;
  new kwargs h.

(** The loop of [flatten_dict]; [rec] is the recursive call. *)
Fixpoint flatten_loop (rec : value -> result entries) (h : heap)
    (data : entries) (items : entries) : result entries :=
  match data with
  | [] => Ok items
  | (key, v) :: data' =>
      do items <- (if isinstance_dict h v then
                  do sub <- rec v ; Ok (items ++ sub)
                else Ok items) ;
      flatten_loop rec h data' (items ++ [(key, v)])
  end.

(** [flatten_dict]; [n] bounds the depth of the calls, as the interpreter's
    recursion limit does.  The result is the content of the dictionary the
    method returns. *)
Fixpoint flatten_dict (n : nat) (data : value) (h : heap) : result entries :=
  match n with
  | 0 => Raise RecursionError
  | S n' =>
      do d <- py_items data h ;
      do items <- flatten_loop (fun v => flatten_dict n' v h) h d [] ;
      Ok (dict_of_pairs items)
  end.

(** [value.to_dict()] on a dataclass instance; [rec] is
    [_convert_dataclasses_to_dict]. *)
Definition call_to_dict (rec : value -> heap -> result (value * heap))
    (v : value) (h : heap) : result (value * heap) :=
  match v with
  | VRef a =>
      match h !! a with
      | Some (OData _) => do d <- self_data a h ; rec d h
      | Some (ORecord (Some c)) => Ok (c, h)
      | Some (ORecord None) => Raise AttributeError
      | _ => Raise Stuck
      end
  | _ => Raise Stuck
  end.

(** The loop of [_convert_dataclasses_to_dict], filling the dictionary at
    [res]. *)
Fixpoint convert_loop (rec : value -> heap -> result (value * heap))
    (res : addr) (data : entries) (h : heap) : result heap :=
  match data with
  | [] => Ok h
  | (key, v) :: data' =>
      do '(v', h) <- (if is_dataclass h v then call_to_dict rec v h
                   else if isinstance_dict h v then rec v h
                   else Ok (v, h)) ;
      do h <- py_setitem (VRef res) key v' h ;
      convert_loop rec res data' h
  end.

Fixpoint _convert_dataclasses_to_dict (n : nat) (data : value) (h : heap)
  : result (value * heap) :=
  match n with
  | 0 => Raise RecursionError
  | S n' =>
      do d <- py_items data h ;
      let '(res, h) := alloc (ODict []) h in
      do h <- convert_loop (_convert_dataclasses_to_dict n') res d h ;
      Ok (VRef res, h)
  end.

Definition to_dict (n : nat) (self : addr) (h : heap)
  : result (value * heap) :=
  do d <- self_data self h ;
  _convert_dataclasses_to_dict n d h.

(** [__getattr__], the method Python calls for a name that ordinary lookup
    does not find on the instance or its class; [n] bounds the depth of
    [flatten_dict]. *)
Definition __getattr__ (n : nat) (self : addr) (attr : string) (h : heap)
  : result (value * heap) :=
  do d <- self_data self h ;
  do present <- py_contains attr d h ;
  if present : bool then
    do d <- self_data self h ;
    do v <- py_getitem d attr h ;
    do h <- (if isinstance_dict h v then
            do kwargs <- py_unpack v h ;
            do '(w, h) <- new kwargs h ;
            do d <- self_data self h ;
            py_setitem d attr (VRef w) h
          else Ok h) ;
    do d <- self_data self h ;
    do v <- py_getitem d attr h ;
    Ok (v, h)
  else if String.prefix "_" attr then
    do v <- object_getattribute self attr h ;
    Ok (v, h)
  else
    do flatten_data <- flatten_dict n d h ;
    Ok (default VNone (dict_get attr flatten_data), h).

(** [__dir__]: the keys of the store, then what [object.__dir__]
    enumerates for the instance.  That list is the host's; it is the
    parameter [host_dir]. *)
Definition __dir__ (host_dir : list string) (self : addr) (h : heap)
  : result (list string) :=
  do d <- self_data self h ;
  do keys <- py_keys d h ;
  Ok (keys ++ host_dir).

End Data.

(** ** Nested mappings as trees

    A [tree] is what a heap value denotes when the objects below it are
    read off: the shape of a literal, and the shape the specification
    speaks about. *)

Inductive tree : Type :=
| TLeaf (v : value)
| TDict (d : list (string * tree))
| TData (store : tree)
| TRecord (conv : option tree).

(** Evaluating a literal: the parts are built first, then the object that
    holds them. *)
Fixpoint build (t : tree) (h : heap) : value * heap :=
  match t with
  | TLeaf v => (v, h)
  | TDict d =>
      let '(d', h) :=
        (fix build_entries (d : list (string * tree)) (h : heap)
           : entries * heap :=
           match d with
           | [] => ([], h)
           | (k, t) :: d =>
               let '(v, h) := build t h in
               let '(d', h) := build_entries d h in
               ((k, v) :: d', h)
           end) d h in
      let '(a, h) := alloc (ODict d') h in
      (VRef a, h)
  | TData s =>
      let '(v, h) := build s h in
      let '(a, h) := alloc (OData (Some v)) h in
      (VRef a, h)
  | TRecord None =>
      let '(a, h) := alloc (ORecord None) h in
      (VRef a, h)
  | TRecord (Some c) =>
      let '(v, h) := build c h in
      let '(a, h) := alloc (ORecord (Some v)) h in
      (VRef a, h)
  end.

(** Reading a value off the heap, [n] objects deep at most, without going
    through the objects at the addresses [X].  A dictionary denotes a
    mapping only when its keys are distinct, as the keys of a [dict] are. *)
Fixpoint reify_avoiding (X : list addr) (n : nat) (h : heap) (v : value)
  : option tree :=
  match n with
  | 0 => None
  | S n' =>
      match v with
      | VRef a =>
          if decide (a ∈ X) then None else
          match h !! a with
          | Some (ODict d) =>
              if decide (NoDup d.*1) then
                TDict <$>
                  mapM (fun kv => pair kv.1 <$> reify_avoiding X n' h kv.2) d
              else None
          | Some (OData (Some s)) => TData <$> reify_avoiding X n' h s
          | Some (ORecord None) => Some (TRecord None)
          | Some (ORecord (Some c)) =>
              (TRecord ∘ Some) <$> reify_avoiding X n' h c
          | _ => None
          end
      | _ => Some (TLeaf v)
      end
  end.

(** [reify n h v = Some t]: the value [v] denotes the tree [t] in [h]. *)
Definition reify : nat -> heap -> value -> option tree := reify_avoiding [].

Definition is_tdict (t : tree) : bool :=
  match t with TDict _ => true | _ => false end.

(** The first pair with key [k]. *)
Fixpoint assoc {A} (k : string) (d : list (string * A)) : option A :=
  match d with
  | [] => None
  | (k', x) :: d' => if decide (k = k') then Some x else assoc k d'
  end.

(** [tree_get k t]: the entry [k] of a mapping. *)
Definition tree_get (k : string) (t : tree) : option tree :=
  match t with
  | TDict d => assoc k d
  | _ => None
  end.

(** Following a path of keys down a nested mapping. *)
Fixpoint tree_path (p : list string) (t : tree) : option tree :=
  match p with
  | [] => Some t
  | k :: p' => t' ← tree_get k t; tree_path p' t'
  end.

(** A plain nested mapping: no wrapper and no record instance at any key. *)
Fixpoint plain (t : tree) : bool :=
  match t with
  | TLeaf _ => true
  | TDict d => forallb (fun kt => plain kt.2) d
  | TData _ | TRecord _ => false
  end.

(** Trees [to_dict] can convert: every record has a conversion and every
    wrapper holds a mapping. *)
Fixpoint convertible (t : tree) : bool :=
  match t with
  | TLeaf _ => true
  | TDict d => forallb (fun kt => convertible kt.2) d
  | TData s => is_tdict s && convertible s
  | TRecord c => bool_decide (is_Some c)
  end.

(** The conversion to plain form, following the words of the
    specification: a record instance (a wrapper is one) is replaced by the
    result of its own conversion, a mapping is converted entry by entry,
    any other value is kept as it is. *)
Fixpoint to_plain (t : tree) : tree :=
  match t with
  | TLeaf v => TLeaf v
  | TDict d => TDict (map (fun kt => (kt.1, to_plain kt.2)) d)
  | TData s => to_plain s
  | TRecord (Some c) => c
  | TRecord None => TRecord None
  end.

(** ** The walk of the specification

    For each entry of a mapping, in iteration order: first the walk of the
    entry's value when that is a mapping, then the entry itself. *)
Fixpoint walk_entries (rec : value -> result entries) (h : heap)
    (d : entries) : result entries :=
  match d with
  | [] => Ok []
  | (k, v) :: d' =>
      do below <- (if isinstance_dict h v then rec v else Ok []) ;
      do rest <- walk_entries rec h d' ;
      Ok (below ++ (k, v) :: rest)
  end.

Fixpoint walk (n : nat) (v : value) (h : heap) : result entries :=
  match n with
  | 0 => Raise RecursionError
  | S n' =>
      do d <- py_items v h ;
      walk_entries (fun v => walk n' v h) h d
  end.

(** The pair met last in a walk decides what a key maps to. *)
Definition last_assoc (k : string) (l : entries) : option value :=
  dict_get k (reverse l).

(** ** Heaps that only gain entries *)

Definition obj_le (o o' : obj) : Prop :=
  match o, o' with
  | ODict d, ODict d' => ∀ k v, dict_get k d = Some v → dict_get k d' = Some v
  | _, _ => o = o'
  end.

(** [grows h h']: every object of [h] is still there in [h'], and a
    dictionary has kept each of its entries. *)
Definition grows (h h' : heap) : Prop :=
  ∀ a o, h !! a = Some o → ∃ o', h' !! a = Some o' ∧ obj_le o o'.

(** The dictionary at [a] maps [k] to [v]. *)
Definition has (h : heap) (a : addr) (k : string) (v : value) : Prop :=
  ∃ d, h !! a = Some (ODict d) ∧ dict_get k d = Some v.

(** The value a path of keys leads to through nested dictionaries. *)
Fixpoint lookup_path (h : heap) (p : list string) (v : value)
  : option value :=
  match p with
  | [] => Some v
  | k :: p' =>
      match v with
      | VRef a =>
          match h !! a with
          | Some (ODict d) => v' ← dict_get k d; lookup_path h p' v'
          | _ => None
          end
      | _ => None
      end
  end.

(** Keyword arguments into which the defaults can be injected:
    [metadata], when given, is a dictionary, and so is its entry [system],
    when given. *)
Definition well_shaped (h : heap) (kwargs : entries) : bool :=
  match dict_get "metadata" kwargs with
  | None => true
  | Some m =>
      isinstance_dict h m &&
      match lookup_path h ["system"] m with
      | None => true
      | Some s => isinstance_dict h s
      end
  end.

(** What the caller supplied under [metadata.system.key], if anything. *)
Definition supplied (h : heap) (kwargs : entries) (key : string)
  : option value :=
  m ← dict_get "metadata" kwargs; lookup_path h ["system"; key] m.

(** The literal of the usage example, without [id] and [name]. *)
Definition example : tree :=
  TDict
    [("metadata",
      TDict
        [("system",
          TDict [("size", TLeaf (VFloat 10.7)); ("height", TLeaf (VInt 11))]);
         ("user", TDict [("batch", TLeaf (VInt 1121))])])].

(** [preserves h h']: every object of [h] is in [h'], unchanged. *)
Definition preserves (h h' : heap) : Prop :=
  ∀ a o, h !! a = Some o → h' !! a = Some o.

(** An entry of a dictionary read as an entry of a mapping. *)
Definition entry_reifies (f : value -> option tree)
    (kv : string * value) (kt : string * tree) : Prop :=
  kt.1 = kv.1 ∧ f kv.2 = Some kt.2.

(** The keys of a nested mapping at every depth, in the order of the walk.
    Wrappers and records are not mappings: their keys do not count. *)
Fixpoint tree_keys (t : tree) : list string :=
  match t with
  | TDict d => flat_map (fun kt => tree_keys kt.2 ++ [kt.1]) d
  | _ => []
  end.

(** [d.setdefault(k, v)] on the entries. *)
Definition dict_default (k : string) (v : value) (d : entries) : entries :=
  match dict_get k d with
  | Some _ => d
  | None => dict_set k v d
  end.

(** [self] is an instance whose store is the dictionary at [st]. *)
Definition instance (h : heap) (self st : addr) (d : entries) : Prop :=
  h !! self = Some (OData (Some (VRef st))) ∧ h !! st = Some (ODict d).

(** The literal as Python builds it, and the heap after
    [Data.from_dict] has made an instance of it. *)
Definition example_ref : value := Eval vm_compute in (build example []).1.
Definition example_heap : heap := Eval vm_compute in (build example []).2.
Definition loaded_heap : heap :=
  Eval vm_compute in
    match Data.from_dict example_ref example_heap with
    | Ok (_, h) => h
    | Raise _ => []
    end.

(** A mapping with one nested subtree, the instance made of it, and the
    heap after the attribute [metadata] of that instance has been read. *)
Definition nested : tree :=
  TDict
    [("metadata",
      TDict
        [("system",
          TDict [("height", TLeaf (VInt 11)); ("size", TLeaf (VFloat 10.7))])])].
Definition nested_ref : value := Eval vm_compute in (build nested []).1.
Definition nested_heap : heap := Eval vm_compute in (build nested []).2.
Definition nested_loaded : heap :=
  Eval vm_compute in
    match Data.from_dict nested_ref nested_heap with
    | Ok (_, h) => h
    | Raise _ => []
    end.
Definition nested_read : heap :=
  Eval vm_compute in
    match Data.__getattr__ 3 4 "metadata" nested_loaded with
    | Ok (_, h) => h
    | Raise _ => []
    end.

(** An instance (at address 6) whose store holds a dictionary, a record, a
    wrapper, and a sequence of that wrapper and that record. *)
Definition mixed_heap : heap :=
  [ ODict [("x", VInt 1)];
    ODict [("y", VInt 2)];
    ORecord (Some (VRef 1));
    ODict [("in", VInt 3)];
    OData (Some (VRef 3));
    ODict [("a", VRef 0); ("r", VRef 2); ("w", VRef 4);
           ("s", VSeq [VRef 4; VRef 2])];
    OData (Some (VRef 5)) ].

Definition mixed_tree : tree :=
  TDict
    [("a", TDict [("x", TLeaf (VInt 1))]);
     ("r", TRecord (Some (TDict [("y", TLeaf (VInt 2))])));
     ("w", TData (TDict [("in", TLeaf (VInt 3))]));
     ("s", TLeaf (VSeq [VRef 4; VRef 2]))].

(** [v] denotes a tree, read without going through [X]; the tree is
    convertible if [ok] holds. *)
Definition reads (X : list addr) (ok : Prop) (h : heap) (v : value) : Prop :=
  ∃ j t, reify_avoiding X j h v = Some t ∧ (ok → convertible t = true).

(** The mapping [sub] has no [metadata.system]: it has no [metadata], or
    its [metadata] is a mapping without [system]. *)
Definition lacks_system (h : heap) (sub : entries) : bool :=
  match dict_get "metadata" sub with
  | None => true
  | Some (VRef mm) =>
      match h !! mm with
      | Some (ODict md) =>
          match dict_get "system" md with None => true | Some _ => false end
      | _ => false
      end
  | Some _ => false
  end.

(** What the proof of [to_dict] asks of the recursive call it is given:
    on a value that denotes a convertible mapping within [m] levels, it
    returns a new dictionary that denotes the plain form, and leaves every
    object as it was. *)
Definition converts (m : nat)
    (rec : value -> heap -> result (value * heap)) : Prop :=
  ∀ n X h v t,
    (n ≤ m)%nat → reify_avoiding X n h v = Some t →
    is_tdict t = true → convertible t = true →
    Forall (fun x => (x < List.length h)%nat) X →
    ∃ r h',
      rec v h = Ok (VRef r, h') ∧ preserves h h' ∧
      (List.length h ≤ r)%nat ∧
      reify_avoiding X n h' (VRef r) = Some (to_plain t).

(** ** Reading an attribute, and the module's top level *)

(** [self.attr] as the host evaluates it: ordinary lookup first, and
    [__getattr__] when that raises [AttributeError]. *)
Definition py_getattr (n : nat) (self : addr) (attr : string) (h : heap)
  : result (value * heap) :=
  match Data.object_getattribute self attr h with
  | Ok v => Ok (v, h)
  | Raise AttributeError => Data.__getattr__ n self attr h
  | Raise e => Raise e
  end.

(** The methods the class body defines under a name without two leading
    underscores. *)
Definition method_names : list string :=
  [ "from_dict"; "to_dict"; "_convert_dataclasses_to_dict"; "flatten_dict";
    "_set_default_values" ].

(** The literal [data] of the usage example. *)
Definition data : tree :=
  TDict
    [("id", TLeaf (VStr "1"));
     ("name", TLeaf (VStr "first"));
     ("metadata",
      TDict
        [("system",
          TDict [("size", TLeaf (VFloat 10.7)); ("height", TLeaf (VInt 11))]);
         ("user", TDict [("batch", TLeaf (VInt 1121))])])].

(** The statements at the top level of the module: the literal is built,
    the two instances are made, and [height] of each is printed.  The
    result lists what was printed, in order, with the heap at the end. *)
Definition main (n : nat) : result (list value * heap) :=
  let '(data_ref, h) := build data [] in
  do '(my_inst_1, h) <- Data.from_dict data_ref h ;
  do '(my_inst_2, h) <- Data.new [("name", VStr "my")] h ;
  do '(out1, h) <- py_getattr n my_inst_1 "height" h ;
  do '(out2, h) <- py_getattr n my_inst_2 "height" h ;
  Ok ([out1; out2], h).

(** [assoc_set k x d]: the entry [k] of a mapping set to [x], a new key
    going last. *)
Fixpoint assoc_set {A} (k : string) (x : A) (d : list (string * A))
  : list (string * A) :=
  match d with
  | [] => [(k, x)]
  | (k', x') :: d' =>
      if decide (k = k') then (k, x) :: d' else (k', x') :: assoc_set k x d'
  end.

(** An instance (at address 3) whose store holds two sibling mappings
    with the same key [k]. *)
Definition siblings_heap : heap :=
  [ ODict [("k", VInt 1)];
    ODict [("k", VInt 2)];
    ODict [("a", VRef 0); ("b", VRef 1)];
    OData (Some (VRef 2)) ].

(** An instance that holds itself: the heap after [d = Data()] and
    [d.me = d] (the instance is at address 1, its store at 0). *)
Definition selfref_heap : heap :=
  Eval vm_compute in
    match Data.new [] [] with
    | Ok (self, h) =>
        match Data.__setattr__ self "me" (VRef self) h with
        | Ok h' => h'
        | Raise _ => []
        end
    | Raise _ => []
    end.

(** A dictionary that contains itself, and an instance (at address 2, its
    store at 1) made with that dictionary as the argument [x]. *)
Definition cyclic_heap : heap :=
  Eval vm_compute in
    match Data.new [("x", VRef 0)] [ODict [("loop", VRef 0)]] with
    | Ok (_, h) => h
    | Raise _ => []
    end.

(** A mapping whose entry [cfg] carries [metadata.system.height] and
    [size] of its own, and the heap after [Data.from_dict] has made an
    instance of it (at address 5, its store at 4). *)
Definition config : tree :=
  TDict
    [("cfg",
      TDict
        [("metadata",
          TDict
            [("system",
              TDict [("height", TLeaf (VInt 1)); ("size", TLeaf (VInt 2))])])])].
Definition config_loaded : heap :=
  Eval vm_compute in
    match Data.from_dict (build config []).1 (build config []).2 with
    | Ok (_, h) => h
    | Raise _ => []
    end.

(** The entries of the store of that instance, as trees. *)
Definition config_store : list (string * tree) :=
  [("cfg",
    TDict
      [("metadata",
        TDict
          [("system",
            TDict [("height", TLeaf (VInt 1)); ("size", TLeaf (VInt 2))])])]);
   ("metadata",
    TDict
      [("system",
        TDict [("height", TLeaf (VInt 100)); ("size", TLeaf (VInt 10))])])].

(** The instance (at address 3, its store at 2) made by [Data.from_dict]
    of [{"user": {"batch": 1121}}]. *)
Definition user_loaded : heap :=
  Eval vm_compute in
    match Data.from_dict (VRef 1)
            [ODict [("batch", VInt 1121)]; ODict [("user", VRef 0)]] with
    | Ok (_, h) => h
    | Raise _ => []
    end.

(** The mapping [{"self": 1, "metadata": {"system": {"height": 1,
    "size": 2}}}], at address 2. *)
Definition selfkey_heap : heap :=
  [ ODict [("height", VInt 1); ("size", VInt 2)];
    ODict [("system", VRef 0)];
    ODict [("self", VInt 1); ("metadata", VRef 1)] ].

(** * Properties *)

(** ** The result monad *)

Lemma rbind_Ok {A B} (m : result A) (k : A -> result B) (b : B) :
  rbind m k = Ok b ↔ ∃ a, m = Ok a ∧ k a = Ok b.
Proof.
  destruct m as [a|e]; simpl; split.
  - eauto.
  - by intros (? & [= ->] & ?).
  - done.
  - by intros (? & ? & ?).
Qed.

Ltac inv_bind H :=
  let a := fresh "x" in
  let H1 := fresh H "a" in
  apply rbind_Ok in H as (a & H1 & H).

(** ** Dictionaries *)

Lemma dict_get_set_eq k v d : dict_get k (dict_set k v d) = Some v.
Proof.
  induction d as [|[k' v'] d IH]; simpl.
  - by rewrite decide_True.
  - destruct (decide (k = k')); simpl.
    + by rewrite decide_True.
    + by rewrite decide_False.
Qed.

Lemma dict_get_set_ne k k' v d :
  k ≠ k' → dict_get k' (dict_set k v d) = dict_get k' d.
Proof.
  intros Hne. induction d as [|[k0 v0] d IH]; simpl.
  - by rewrite decide_False.
  - destruct (decide (k = k0)) as [->|]; simpl.
    + by rewrite !decide_False.
    + by rewrite IH.
Qed.

Lemma dict_get_set k k' v d :
  dict_get k' (dict_set k v d) = if decide (k = k') then Some v else dict_get k' d.
Proof.
  destruct (decide (k = k')) as [->|].
  - apply dict_get_set_eq.
  - by apply dict_get_set_ne.
Qed.

Lemma dict_get_None k d : dict_get k d = None ↔ k ∉ d.*1.
Proof.
  induction d as [|[k' v'] d IH]; csimpl.
  - split; [intros _; apply not_elem_of_nil | done].
  - rewrite not_elem_of_cons. destruct (decide (k = k')) as [->|]; [|tauto].
    split; [done | by intros []].
Qed.

Lemma dict_get_Some_elem k v d : dict_get k d = Some v → (k, v) ∈ d.
Proof.
  induction d as [|[k' v'] d IH]; simpl; [done|].
  destruct (decide (k = k')) as [->|].
  - intros [= ->]. left.
  - intros. right. auto.
Qed.

Lemma dict_get_app k d1 d2 :
  dict_get k (d1 ++ d2) =
  match dict_get k d1 with Some v => Some v | None => dict_get k d2 end.
Proof.
  induction d1 as [|[k' v'] d1 IH]; simpl; [done|].
  by destruct (decide (k = k')).
Qed.

Lemma dict_set_fresh k v d : dict_get k d = None → dict_set k v d = d ++ [(k, v)].
Proof.
  induction d as [|[k' v'] d IH]; simpl; [done|].
  destruct (decide (k = k')); [done|]. intros. by rewrite IH.
Qed.

Lemma dict_set_keys k v d :
  (dict_set k v d).*1 = if decide (k ∈ d.*1) then d.*1 else d.*1 ++ [k].
Proof.
  induction d as [|[k' v'] d IH]; csimpl; [done|].
  destruct (decide (k = k')) as [->|Hne]; csimpl.
  - rewrite decide_True; [done | left].
  - rewrite IH. destruct (decide (k ∈ d.*1)).
    + rewrite decide_True; [done | by right].
    + rewrite decide_False; [done|]. rewrite not_elem_of_cons. tauto.
Qed.

Lemma dict_set_NoDup k v d : NoDup d.*1 → NoDup (dict_set k v d).*1.
Proof.
  intros Hd. rewrite dict_set_keys. destruct (decide (k ∈ d.*1)); [done|].
  apply NoDup_app. split_and!; [done | | apply NoDup_singleton].
  intros x Hx ->%list_elem_of_singleton. done.
Qed.

Lemma last_assoc_app k l1 l2 :
  last_assoc k (l1 ++ l2) =
  match last_assoc k l2 with Some v => Some v | None => last_assoc k l1 end.
Proof. unfold last_assoc. by rewrite reverse_app, dict_get_app. Qed.

Lemma last_assoc_snoc k l k' v :
  last_assoc k (l ++ [(k', v)]) =
  if decide (k = k') then Some v else last_assoc k l.
Proof.
  rewrite last_assoc_app. unfold last_assoc at 1. simpl.
  by destruct (decide (k = k')).
Qed.

Lemma dict_get_fold k l acc :
  dict_get k (fold_left (fun d kv => dict_set kv.1 kv.2 d) l acc) =
  match last_assoc k l with Some v => Some v | None => dict_get k acc end.
Proof.
  revert acc. induction l as [|[k' v'] l IH]; intros acc; simpl; [done|].
  rewrite IH. change ((k', v') :: l) with ([(k', v')] ++ l).
  rewrite last_assoc_app. destruct (last_assoc k l); [done|].
  unfold last_assoc. simpl. rewrite dict_get_set.
  destruct (decide (k' = k)) as [->|].
  - by rewrite decide_True.
  - by rewrite decide_False.
Qed.

(** What [dict(pairs)] maps a key to is the value of its last pair. *)
Lemma dict_of_pairs_get k l : dict_get k (dict_of_pairs l) = last_assoc k l.
Proof. unfold dict_of_pairs. rewrite dict_get_fold. by destruct (last_assoc k l). Qed.

Lemma dict_of_pairs_NoDup l : NoDup (dict_of_pairs l).*1.
Proof.
  unfold dict_of_pairs.
  assert (∀ acc, NoDup acc.*1 →
    NoDup (fold_left (fun d kv => dict_set kv.1 kv.2 d) l acc).*1) as H.
  { induction l as [|[k v] l IH]; intros acc Hacc; simpl; [done|].
    apply IH. by apply dict_set_NoDup. }
  apply H. constructor.
Qed.

Lemma last_assoc_Some_elem k v l : last_assoc k l = Some v → (k, v) ∈ l.
Proof.
  unfold last_assoc. intros H%dict_get_Some_elem.
  by apply (elem_of_reverse (k, v) l).
Qed.

Lemma last_assoc_None k l : last_assoc k l = None ↔ k ∉ l.*1.
Proof.
  unfold last_assoc. rewrite dict_get_None, fmap_reverse, elem_of_reverse. done.
Qed.

(** In a dictionary the first and the last pair of a key are the same. *)
Lemma last_assoc_dict k d : NoDup d.*1 → last_assoc k d = dict_get k d.
Proof.
  induction d as [|[k' v'] d IH]; intros Hd; [done|].
  apply NoDup_cons in Hd as [Hk Hd]. simpl in Hk.
  change ((k', v') :: d) with ([(k', v')] ++ d).
  rewrite last_assoc_app, IH by done. simpl.
  destruct (decide (k = k')) as [->|].
  - apply dict_get_None in Hk. rewrite Hk. unfold last_assoc. simpl.
    by rewrite decide_True.
  - destruct (dict_get k d); [done|]. unfold last_assoc. simpl.
    by rewrite decide_False.
Qed.

(** ** The flattened view and the walk *)

Lemma flatten_loop_ext rec rec' h d acc r :
  (∀ v f, rec v = Ok f → rec' v = Ok f) →
  Data.flatten_loop rec h d acc = Ok r →
  Data.flatten_loop rec' h d acc = Ok r.
Proof.
  intros Hrec. revert acc. induction d as [|[k v] d IH]; intros acc; simpl; [done|].
  intros H. inv_bind H. apply rbind_Ok. exists x. split; [|by apply IH].
  destruct (isinstance_dict h v); [|done].
  inv_bind Ha. apply rbind_Ok. eauto.
Qed.

(** A deeper recursion budget does not change a result. *)
Lemma flatten_dict_mono n m v h f :
  Data.flatten_dict n v h = Ok f → (n ≤ m)%nat → Data.flatten_dict m v h = Ok f.
Proof.
  revert m v f. induction n as [|n IH]; intros m v f; simpl; [done|].
  intros H Hle. destruct m as [|m]; [lia|]. simpl.
  inv_bind H. inv_bind H. apply rbind_Ok. exists x. split; [done|].
  apply rbind_Ok. exists x0. split; [|done].
  eapply flatten_loop_ext; [|done]. intros ???. apply IH; [done | lia].
Qed.

Lemma walk_entries_ext rec rec' h d r :
  (∀ v f, rec v = Ok f → rec' v = Ok f) →
  walk_entries rec h d = Ok r → walk_entries rec' h d = Ok r.
Proof.
  intros Hrec. revert r. induction d as [|[k v] d IH]; intros r; simpl; [done|].
  intros H. inv_bind H. inv_bind H. apply rbind_Ok. exists x. split.
  { destruct (isinstance_dict h v); auto. }
  apply rbind_Ok. eauto.
Qed.

Lemma walk_mono n m v h l :
  walk n v h = Ok l → (n ≤ m)%nat → walk m v h = Ok l.
Proof.
  revert m v l. induction n as [|n IH]; intros m v l; simpl; [done|].
  intros H Hle. destruct m as [|m]; [lia|]. simpl.
  inv_bind H. apply rbind_Ok. exists x. split; [done|].
  eapply walk_entries_ext; [|done]. intros ???. apply IH; [done | lia].
Qed.

(** The loop of [flatten_dict] against the walk: the recursive results are
    dictionaries already, yet the last pair of a key is the same. *)
Lemma flatten_loop_walk rec_w rec_f h d :
  (∀ v l, rec_w v = Ok l →
     ∃ f, rec_f v = Ok f ∧ ∀ k, last_assoc k f = last_assoc k l) →
  ∀ l acc, walk_entries rec_w h d = Ok l →
  ∃ items, Data.flatten_loop rec_f h d acc = Ok items ∧
    ∀ k, last_assoc k items = last_assoc k (acc ++ l).
Proof.
  intros Hrec. induction d as [|[k0 v0] d IH]; intros l acc; simpl.
  - intros [= <-]. exists acc. by rewrite app_nil_r.
  - intros H. inv_bind H. inv_bind H. injection H as <-.
    destruct (isinstance_dict h v0).
    + destruct (Hrec _ _ Ha) as (f & Hf & Hlast).
      destruct (IH x0 ((acc ++ f) ++ [(k0, v0)]) Ha0) as (items & Hitems & Hk).
      exists items. split.
      { apply rbind_Ok. exists (acc ++ f). split; [|done].
        apply rbind_Ok. eauto. }
      intros k. rewrite Hk.
      rewrite !last_assoc_app. change ((k0, v0) :: x0) with ([(k0, v0)] ++ x0).
      rewrite !last_assoc_app, Hlast.
      by destruct (last_assoc k x0), (last_assoc k [(k0, v0)]), (last_assoc k x).
    + injection Ha as <-.
      destruct (IH x0 (acc ++ [(k0, v0)]) Ha0) as (items & Hitems & Hk).
      exists items. split; [done|]. intros k. rewrite Hk. simpl.
      by rewrite <-app_assoc.
Qed.

(** [flatten_dict] computes the walk, up to the pairs a later pair of the
    same key overwrites. *)
Lemma flatten_walk n v h l :
  walk n v h = Ok l →
  ∃ f, Data.flatten_dict n v h = Ok f ∧
    (∀ k, dict_get k f = last_assoc k l) ∧ NoDup f.*1.
Proof.
  revert v l. induction n as [|n IH]; intros v l; simpl; [done|].
  intros H. inv_bind H.
  destruct (flatten_loop_walk (fun v => walk n v h)
              (fun v => Data.flatten_dict n v h) h x) with (l := l) (acc := @nil (string * value))
    as (items & Hitems & Hk); [|done|].
  { intros v' l' Hw. destruct (IH _ _ Hw) as (f & Hf & Hget & Hnd).
    exists f. split; [done|]. intros k. by rewrite last_assoc_dict, Hget. }
  exists (dict_of_pairs items). split_and!.
  - apply rbind_Ok. exists x. split; [done|]. apply rbind_Ok. eauto.
  - intros k. by rewrite dict_of_pairs_get, Hk.
  - apply dict_of_pairs_NoDup.
Qed.

Lemma walk_entries_elem rec h d l kv :
  walk_entries rec h d = Ok l →
  kv ∈ l ↔
  kv ∈ d ∨ ∃ k v sub, (k, v) ∈ d ∧ isinstance_dict h v = true ∧
             rec v = Ok sub ∧ kv ∈ sub.
Proof.
  revert l. induction d as [|[k0 v0] d IH]; intros l; simpl.
  - intros [= <-]. split.
    + by intros ?%elem_of_nil.
    + intros [?%elem_of_nil|(? & ? & ? & ?%elem_of_nil & _)]; done.
  - intros H. inv_bind H. inv_bind H. injection H as <-.
    rewrite elem_of_app, elem_of_cons, (IH _ Ha0). clear IH. split.
    + intros [Hx|[->|[Hd|(k & v & sub & Hd & ? & ? & ?)]]].
      * destruct (isinstance_dict h v0) eqn:Hv0.
        -- right. exists k0, v0, x. split_and!; [left|done..].
        -- injection Ha as <-. by apply elem_of_nil in Hx.
      * left. left.
      * left. by right.
      * right. exists k, v, sub. split_and!; [by right|done..].
    + intros [[->|Hd]%elem_of_cons|(k & v & sub & [[= -> ->]|Hd]%elem_of_cons & Hv & Hsub & Hin)].
      * right. by left.
      * right. right. by left.
      * left. rewrite Hv in Ha. congruence.
      * right. right. right. exists k, v, sub. done.
Qed.

(** Every entry of the walked mapping is in the walk. *)
Lemma walk_top n v h l d :
  walk n v h = Ok l → py_items v h = Ok d → d ⊆ l.
Proof.
  destruct n as [|n]; simpl; [done|]. intros H Hd. rewrite Hd in H. simpl in H.
  intros kv Hkv. apply (walk_entries_elem _ _ _ _ kv H). by left.
Qed.

(** And with a mapping, the walk holds the entries of that mapping. *)
Lemma walk_closed n v h l k a d :
  walk n v h = Ok l → (k, VRef a) ∈ l → h !! a = Some (ODict d) → d ⊆ l.
Proof.
  revert v l. induction n as [|n IH]; intros v l; simpl; [done|].
  intros H Hin Ha. inv_bind H.
  assert (isinstance_dict h (VRef a) = true) as Hdict by (simpl; by rewrite Ha).
  assert (py_items (VRef a) h = Ok d) as Hitems by (simpl; by rewrite Ha).
  intros kv Hkv.
  apply (walk_entries_elem _ _ _ _ (k, VRef a) H) in Hin
    as [Hin|(k' & v' & sub & Hd & Hv' & Hsub & Hin)].
  - destruct (walk n (VRef a) h) as [sub|e] eqn:Hsub.
    + apply (walk_entries_elem _ _ _ _ kv H). right.
      exists k, (VRef a), sub. split_and!; [done..|].
      by apply (walk_top _ _ _ _ _ Hsub Hitems).
    + exfalso. clear -H Hin Hdict Hsub.
      revert l H. induction x as [|[k0 v0] x IHx]; intros l; simpl.
      * by apply elem_of_nil in Hin.
      * intros H. inv_bind H. inv_bind H.
        apply elem_of_cons in Hin as [[= <- <-]|Hin].
        -- rewrite Hdict in Ha. congruence.
        -- eauto.
  - apply (walk_entries_elem _ _ _ _ kv H). right.
    exists k', v', sub. split_and!; [done..|]. by eapply IH.
Qed.

(** ** Heaps *)

Lemma preserves_refl h : preserves h h.
Proof. by intros ??. Qed.

Lemma preserves_trans h1 h2 h3 :
  preserves h1 h2 → preserves h2 h3 → preserves h1 h3.
Proof. intros H12 H23 a o Ha. auto. Qed.

Lemma preserves_app h l : preserves h (h ++ l).
Proof. intros a o Ha. by apply lookup_app_l_Some. Qed.

Lemma preserves_alloc o h : preserves h (alloc o h).2.
Proof. apply preserves_app. Qed.

Lemma preserves_length h h' : preserves h h' → (List.length h ≤ List.length h')%nat.
Proof.
  intros Hp. destruct h as [|o h] using rev_ind; [simpl; lia|].
  specialize (Hp (List.length h) o). rewrite list_lookup_middle in Hp by done.
  apply lookup_lt_Some in Hp; [|done]. rewrite length_app. simpl. lia.
Qed.

(** Writing to an object that [h] does not have. *)
Lemma preserves_insert_fresh h h' a o :
  preserves h h' → (List.length h ≤ a)%nat → preserves h (<[a := o]> h').
Proof.
  intros Hp Ha b ob Hb. rewrite list_lookup_insert_ne; [by apply Hp|].
  apply lookup_lt_Some in Hb. lia.
Qed.

Lemma lookup_alloc o h : (alloc o h).2 !! (alloc o h).1 = Some o.
Proof. simpl. by apply list_lookup_middle. Qed.

Lemma isinstance_dict_preserves h h' v :
  preserves h h' → isinstance_dict h v = true → isinstance_dict h' v = true.
Proof.
  intros Hp. destruct v; simpl; try done.
  destruct (h !! a) as [[]|] eqn:Ha; try done. by rewrite (Hp _ _ Ha).
Qed.

(** ** Reading trees off the heap *)

Lemma mapM_entries (f : value -> option tree) (d : entries) dt :
  mapM (fun kv => pair kv.1 <$> f kv.2) d = Some dt ↔
  Forall2 (entry_reifies f) d dt.
Proof.
  rewrite mapM_Some.
  split; intros H; (eapply Forall2_impl; [exact H|]);
    intros [k v] [k' t]; unfold entry_reifies; simpl; rewrite fmap_Some.
  - intros (t' & ? & [= -> ->]). done.
  - intros [-> ?]. eauto.
Qed.

Lemma entries_reify_impl (f g : value -> option tree) d dt :
  (∀ v t, f v = Some t → g v = Some t) →
  Forall2 (entry_reifies f) d dt → Forall2 (entry_reifies g) d dt.
Proof.
  intros Hfg H. eapply Forall2_impl; [exact H|].
  intros [k v] [k' t] [? ?]. split; auto.
Qed.

Lemma reify_avoiding_inv X n h v t :
  reify_avoiding X (S n) h v = Some t →
  match t with
  | TLeaf v' => v' = v ∧ ∀ a, v ≠ VRef a
  | TDict dt =>
      ∃ a d, v = VRef a ∧ (a ∉ X) ∧ h !! a = Some (ODict d) ∧ NoDup d.*1 ∧
             Forall2 (entry_reifies (reify_avoiding X n h)) d dt
  | TData s =>
      ∃ a sv, v = VRef a ∧ (a ∉ X) ∧ h !! a = Some (OData (Some sv)) ∧
              reify_avoiding X n h sv = Some s
  | TRecord None => ∃ a, v = VRef a ∧ (a ∉ X) ∧ h !! a = Some (ORecord None)
  | TRecord (Some c) =>
      ∃ a cv, v = VRef a ∧ (a ∉ X) ∧ h !! a = Some (ORecord (Some cv)) ∧
              reify_avoiding X n h cv = Some c
  end.
Proof.
  simpl. destruct v; try (intros [= <-]; split; [done | by intros ?]).
  case_decide; [done|].
  destruct (h !! a) as [[d|[sv|]|[cv|]]|] eqn:Ha; try done.
  - case_decide; [|done]. intros (dt & Hdt & ->)%fmap_Some.
    apply mapM_entries in Hdt. by exists a, d.
  - intros (s & Hs & ->)%fmap_Some. by exists a, sv.
  - intros (c & Hc & ->)%fmap_Some. by exists a, cv.
  - intros [= <-]. by exists a.
Qed.

(** The cases of [reify_avoiding] on a reference. *)
Lemma reify_avoiding_ref X n h a t :
  reify_avoiding X (S n) h (VRef a) = Some t ↔
  (a ∉ X) ∧
  ((∃ d dt, h !! a = Some (ODict d) ∧ NoDup d.*1 ∧ t = TDict dt ∧
            Forall2 (entry_reifies (reify_avoiding X n h)) d dt) ∨
   (∃ sv s, h !! a = Some (OData (Some sv)) ∧ t = TData s ∧
            reify_avoiding X n h sv = Some s) ∨
   (h !! a = Some (ORecord None) ∧ t = TRecord None) ∨
   (∃ cv c, h !! a = Some (ORecord (Some cv)) ∧ t = TRecord (Some c) ∧
            reify_avoiding X n h cv = Some c)).
Proof.
  simpl. case_decide as HX; [by split; [|intros []]|].
  destruct (h !! a) as [[d|[sv|]|[cv|]]|] eqn:Ha.
  - case_decide as Hnd.
    + rewrite fmap_Some. setoid_rewrite mapM_entries. split.
      * intros (dt & Hdt & ->). split; [done|]. left. by exists d, dt.
      * intros [_ [(d' & dt & [= <-] & _ & -> & Hdt)|[(? & ? & [=] & _)|[[[=] _]|(? & ? & [=] & _)]]]].
        eauto.
    + split; [done|].
      intros [_ [(d' & dt & [= <-] & ? & _)|[(? & ? & [=] & _)|[[[=] _]|(? & ? & [=] & _)]]]].
      done.
  - rewrite fmap_Some. split.
    + intros (s & Hs & ->). split; [done|]. right. left. by exists sv, s.
    + intros [_ [(? & ? & [=] & _)|[(sv' & s & [= <-] & -> & Hs)|[[[=] _]|(? & ? & [=] & _)]]]].
      eauto.
  - split; [done|].
    intros [_ [(? & ? & [=] & _)|[(? & ? & [=] & _)|[[[=] _]|(? & ? & [=] & _)]]]].
  - rewrite fmap_Some. split.
    + intros (c & Hc & ->). split; [done|]. right. right. right. by exists cv, c.
    + intros [_ [(? & ? & [=] & _)|[(? & ? & [=] & _)|[[[=] _]|(cv' & c & [= <-] & -> & Hc)]]]].
      eauto.
  - split.
    + intros [= <-]. split; [done|]. right. right. by left.
    + by intros [_ [(? & ? & [=] & _)|[(? & ? & [=] & _)|[[_ ->]|(? & ? & [=] & _)]]]].
  - split; [done|].
    intros [_ [(? & ? & [=] & _)|[(? & ? & [=] & _)|[[[=] _]|(? & ? & [=] & _)]]]].
Qed.

Lemma reify_avoiding_dict X n h a d dt :
  a ∉ X → h !! a = Some (ODict d) → NoDup d.*1 →
  Forall2 (entry_reifies (reify_avoiding X n h)) d dt →
  reify_avoiding X (S n) h (VRef a) = Some (TDict dt).
Proof.
  intros HX Ha Hd Hdt. apply reify_avoiding_ref. split; [done|]. left. by exists d, dt.
Qed.

Lemma reify_avoiding_data X n h a sv s :
  a ∉ X → h !! a = Some (OData (Some sv)) → reify_avoiding X n h sv = Some s →
  reify_avoiding X (S n) h (VRef a) = Some (TData s).
Proof.
  intros HX Ha Hs. apply reify_avoiding_ref. split; [done|]. right. left. by exists sv, s.
Qed.

Lemma reify_avoiding_leaf X n h v :
  (∀ a, v ≠ VRef a) → reify_avoiding X (S n) h v = Some (TLeaf v).
Proof. intros Hv. destruct v; try done. by destruct (Hv a). Qed.

(** A general step: reading in [h] with [X] gives reading in [h'] with
    [X'], as soon as the objects met are the same there. *)
Lemma reify_avoiding_transfer X X' h h' n m v t :
  (∀ a o, a ∉ X → h !! a = Some o → (a ∉ X') ∧ h' !! a = Some o) →
  (n ≤ m)%nat →
  reify_avoiding X n h v = Some t → reify_avoiding X' m h' v = Some t.
Proof.
  intros Hobj. revert m v t. induction n as [|n IH]; intros m v t Hle; [done|].
  destruct m as [|m]; [lia|].
  assert (∀ v t, reify_avoiding X n h v = Some t →
                 reify_avoiding X' m h' v = Some t) as IH'.
  { intros. apply IH; [lia | done]. }
  destruct v; try done. rewrite !reify_avoiding_ref.
  intros [HX H].
  assert (∀ o, h !! a = Some o → (a ∉ X') ∧ h' !! a = Some o) as Ha by eauto.
  destruct H as [(d & dt & Hd & Hnd & -> & Hdt)
                |[(sv & s & Hd & -> & Hs)|[[Hd ->]|(cv & c & Hd & -> & Hc)]]];
    destruct (Ha _ Hd) as [HX' Hd']; (split; [done|]).
  - left. exists d, dt. split_and!; try done. by eapply entries_reify_impl.
  - right. left. exists sv, s. auto.
  - right. right. by left.
  - right. right. right. exists cv, c. auto.
Qed.

(** More fuel reads the same tree. *)
Lemma reify_avoiding_fuel X n m h v t :
  reify_avoiding X n h v = Some t → (n ≤ m)%nat →
  reify_avoiding X m h v = Some t.
Proof. intros H Hle. eapply reify_avoiding_transfer; [|done..]. auto. Qed.

(** A heap that has kept the objects reads the same tree. *)
Lemma reify_avoiding_preserves X n h h' v t :
  preserves h h' → reify_avoiding X n h v = Some t →
  reify_avoiding X n h' v = Some t.
Proof. intros Hp H. eapply reify_avoiding_transfer; [|done..]. auto. Qed.

(** Fewer addresses to avoid. *)
Lemma reify_avoiding_weaken X X' n h v t :
  X' ⊆ X → reify_avoiding X n h v = Some t →
  reify_avoiding X' n h v = Some t.
Proof.
  intros Hsub H. eapply reify_avoiding_transfer; [|done..]. intros a o Ha Ho.
  split; [|done]. intros Ha'. apply Ha. by apply Hsub.
Qed.

(** A reading does not go through an address the heap does not have. *)
Lemma reify_avoiding_fresh X x n h v t :
  (List.length h ≤ x)%nat → reify_avoiding X n h v = Some t →
  reify_avoiding (x :: X) n h v = Some t.
Proof.
  intros Hx H. eapply reify_avoiding_transfer; [|done..]. intros a o Ha Ho.
  split; [|done]. apply not_elem_of_cons. split; [|done].
  apply lookup_lt_Some in Ho. lia.
Qed.

(** What is avoided may change. *)
Lemma reify_avoiding_insert X x o n h v t :
  x ∈ X → reify_avoiding X n h v = Some t →
  reify_avoiding X n (<[x := o]> h) v = Some t.
Proof.
  intros Hx H. eapply reify_avoiding_transfer; [|done..]. intros a o' Ha Ho.
  split; [done|]. rewrite list_lookup_insert_ne; [done|]. by intros ->.
Qed.

Lemma reify_inv n h v t :
  reify (S n) h v = Some t →
  match t with
  | TLeaf v' => v' = v ∧ ∀ a, v ≠ VRef a
  | TDict dt =>
      ∃ a d, v = VRef a ∧ h !! a = Some (ODict d) ∧ NoDup d.*1 ∧
             Forall2 (entry_reifies (reify n h)) d dt
  | TData s =>
      ∃ a sv, v = VRef a ∧ h !! a = Some (OData (Some sv)) ∧
              reify n h sv = Some s
  | TRecord None => ∃ a, v = VRef a ∧ h !! a = Some (ORecord None)
  | TRecord (Some c) =>
      ∃ a cv, v = VRef a ∧ h !! a = Some (ORecord (Some cv)) ∧
              reify n h cv = Some c
  end.
Proof.
  intros H%reify_avoiding_inv. destruct t as [| | |[c|]].
  - done.
  - destruct H as (a & d' & ? & _ & ? & ? & ?). by exists a, d'.
  - destruct H as (a & sv & ? & _ & ? & ?). by exists a, sv.
  - destruct H as (a & cv & ? & _ & ? & ?). by exists a, cv.
  - destruct H as (a & ? & _ & ?). by exists a.
Qed.

Lemma reify_fuel n m h v t :
  reify n h v = Some t → (n ≤ m)%nat → reify m h v = Some t.
Proof. apply reify_avoiding_fuel. Qed.

Lemma reify_preserves n h h' v t :
  preserves h h' → reify n h v = Some t → reify n h' v = Some t.
Proof. apply reify_avoiding_preserves. Qed.

Lemma reify_dict_inv n h v t :
  reify n h v = Some t → isinstance_dict h v = true →
  ∃ a d dt n', n = S n' ∧ v = VRef a ∧ t = TDict dt ∧ h !! a = Some (ODict d) ∧
    NoDup d.*1 ∧ Forall2 (entry_reifies (reify n' h)) d dt.
Proof.
  destruct n as [|n]; [done|]. intros Hr Hd.
  destruct v; try done. simpl in Hd.
  destruct (h !! a) as [[d| |]|] eqn:Ha; try done.
  apply reify_avoiding_ref in Hr as [_ Hr].
  destruct Hr as [(d' & dt & Hd' & Hnd & -> & Hdt)
                 |[(? & ? & ? & _)|[[? _]|(? & ? & ? & _)]]]; try congruence.
  assert (d' = d) as -> by congruence. by exists a, d, dt, n.
Qed.

(** A store that denotes a nested mapping can be walked. *)
Lemma walk_total n h v t :
  reify n h v = Some t → isinstance_dict h v = true → ∃ l, walk n v h = Ok l.
Proof.
  revert v t. induction n as [|n IH]; intros v t; [done|].
  intros Hr Hd.
  destruct (reify_dict_inv _ _ _ _ Hr Hd) as (a & d & dt & n' & [= <-] & -> & -> & Ha & _ & Hdt).
  simpl. rewrite Ha. simpl. clear Hr Hd Ha.
  induction Hdt as [|[k v] [k' t] d dt [_ Hv] _ IHd]; simpl; [by eexists|].
  simpl in Hv. destruct IHd as (rest & ->).
  destruct (isinstance_dict h v) eqn:Hvd; simpl; [|by eexists].
  destruct (IH _ _ Hv Hvd) as (below & ->). simpl. by eexists.
Qed.

Lemma reify_tdict n h v dt :
  reify n h v = Some (TDict dt) → isinstance_dict h v = true.
Proof.
  destruct n as [|n]; [done|]. intros H. apply reify_inv in H.
  destruct H as (a & d & -> & Ha & _). simpl. by rewrite Ha.
Qed.

Lemma reify_not_dict n h v t :
  reify n h v = Some t → isinstance_dict h v = false → tree_keys t = [].
Proof.
  intros H Hv. destruct t; try done.
  apply reify_tdict in H. congruence.
Qed.

(** The keys of the walk are the keys of the mapping at every depth. *)
Lemma walk_keys n h v t l :
  reify n h v = Some t → walk n v h = Ok l → l.*1 = tree_keys t.
Proof.
  revert v t l. induction n as [|n IH]; intros v t l; [done|].
  intros Hr Hw. simpl in Hw. inv_bind Hw.
  assert (isinstance_dict h v = true) as Hd.
  { destruct v; try done. simpl in *. by destruct (h !! a) as [[]|]. }
  destruct (reify_dict_inv _ _ _ _ Hr Hd)
    as (a & d & dt & n' & [= <-] & -> & -> & Ha & _ & Hdt).
  simpl in Hwa. rewrite Ha in Hwa. injection Hwa as <-. clear Hr Hd Ha.
  revert l Hw. induction Hdt as [|[k v] [k' t] d dt [Hk Hv] _ IHd]; intros l; simpl.
  - by intros [= <-].
  - simpl in Hk, Hv. subst k'. intros H. inv_bind H. inv_bind H. injection H as <-.
    rewrite fmap_app, fmap_cons, (IHd _ Ha0). simpl. rewrite <-app_assoc. simpl.
    f_equal. destruct (isinstance_dict h v) eqn:Hvd.
    + by apply (IH v).
    + injection Ha as <-. by rewrite (reify_not_dict _ _ _ _ Hv Hvd).
Qed.

(** ** Reading attributes *)

Lemma getattr_mono n m self attr h r :
  Data.__getattr__ n self attr h = Ok r → (n ≤ m)%nat →
  Data.__getattr__ m self attr h = Ok r.
Proof.
  unfold Data.__getattr__. intros H Hle.
  inv_bind H. inv_bind H. rewrite Ha. simpl. rewrite Ha0. simpl.
  destruct x0; [by rewrite Ha in H|]. destruct (String.prefix "_" attr); [done|].
  inv_bind H. by rewrite (flatten_dict_mono _ _ _ _ _ Ha1 Hle).
Qed.

(** A name that is no top-level key and has no leading underscore is looked
    up in the flattened view. *)
Lemma getattr_flatten n h self st d attr f :
  instance h self st d → dict_get attr d = None →
  String.prefix "_" attr = false →
  Data.flatten_dict n (VRef st) h = Ok f →
  Data.__getattr__ n self attr h = Ok (default VNone (dict_get attr f), h).
Proof.
  intros [Hself Hst] Hattr Hpre Hf. unfold Data.__getattr__, Data.self_data.
  rewrite Hself. simpl. rewrite Hst. simpl. rewrite Hattr.
  rewrite bool_decide_false by (by intros [? ?]).
  by rewrite Hpre, Hf.
Qed.

Lemma setattr_ok h self st d attr v :
  instance h self st d →
  Data.__setattr__ self attr v h =
  Ok (if decide (attr = "_data") then <[self := OData (Some v)]> h
      else <[st := ODict (dict_set attr v d)]> h).
Proof.
  intros [Hself Hst]. unfold Data.__setattr__, Data.self_data.
  rewrite Hself. destruct (decide (attr = "_data")); [done|].
  simpl. by rewrite Hst.
Qed.

(** C1.  For an instance built from the mapping
    [{"metadata": {"system": {"size": 10.7, "height": 11},
                   "user": {"batch": 1121}}}],
    the names [height], [size] and [batch] are no top-level keys of the
    store and have no leading underscore; reading them resolves through the
    flattened view of the store and returns 11, 10.7 and 1121, whatever the
    recursion budget above the depth of the mapping. *)
Theorem flattened_reads_example (n : nat) :
  ∃ self st d,
    Data.from_dict example_ref example_heap = Ok (self, loaded_heap) ∧
    instance loaded_heap self st d ∧
    dict_get "height" d = None ∧ dict_get "size" d = None ∧
    dict_get "batch" d = None ∧
    (∃ f, Data.flatten_dict (3 + n) (VRef st) loaded_heap = Ok f ∧
          dict_get "height" f = Some (VInt 11) ∧
          dict_get "size" f = Some (VFloat 10.7) ∧
          dict_get "batch" f = Some (VInt 1121)) ∧
    Data.__getattr__ (3 + n) self "height" loaded_heap
      = Ok (VInt 11, loaded_heap) ∧
    Data.__getattr__ (3 + n) self "size" loaded_heap
      = Ok (VFloat 10.7, loaded_heap) ∧
    Data.__getattr__ (3 + n) self "batch" loaded_heap
      = Ok (VInt 1121, loaded_heap).
Proof.
  exists 5, 4, [("metadata", VRef 2)].
  split; [by vm_compute|]. split; [by split|].
  split_and!.
  1-3: done.
  - eexists. split; [by apply (flatten_dict_mono 3); [vm_compute | lia]|].
    by vm_compute.
  - by apply (getattr_mono 3); [vm_compute | lia].
  - by apply (getattr_mono 3); [vm_compute | lia].
  - by apply (getattr_mono 3); [vm_compute | lia].
Qed.

(** C7.  The flattened view of a nested mapping holds what the walk of the
    specification meets: every entry of the mapping, and with an entry
    whose value is a mapping (the key mapped to the mapping itself) every
    entry of that mapping as well; its keys are the keys of the walk; and a
    key met more than once maps to the value met last, the walk going
    through the entries in iteration order, first into the value of an
    entry when that is a mapping and only then to the entry itself. *)
Theorem flatten_walk_order n h v t :
  reify n h v = Some t → isinstance_dict h v = true →
  ∃ f l,
    Data.flatten_dict n v h = Ok f ∧ walk n v h = Ok l ∧
    (∀ d, py_items v h = Ok d → d ⊆ l) ∧
    (∀ k a d, (k, VRef a) ∈ l → h !! a = Some (ODict d) → d ⊆ l) ∧
    (∀ k, k ∈ f.*1 ↔ k ∈ l.*1) ∧
    (∀ k, dict_get k f = last_assoc k l).
Proof.
  intros Hr Hd. destruct (walk_total _ _ _ _ Hr Hd) as (l & Hl).
  destruct (flatten_walk _ _ _ _ Hl) as (f & Hf & Hget & _).
  exists f, l. split_and!; [done..| | | |done].
  - intros d. by apply (walk_top n).
  - intros k a d. by apply (walk_closed n v).
  - intros k. destruct (decide (k ∈ f.*1)) as [Hk|Hk].
    + split; [intros _|done]. destruct (decide (k ∈ l.*1)) as [|Hl']; [done|].
      apply last_assoc_None in Hl'. rewrite <-Hget in Hl'.
      by apply dict_get_None in Hl'.
    + split; [done|]. intros Hl'. apply dict_get_None in Hk.
      rewrite Hget in Hk. by apply last_assoc_None in Hk.
Qed.

Lemma flatten_walk_order_witness :
  ∃ f l,
    Data.flatten_dict 4 example_ref example_heap = Ok f ∧
    walk 4 example_ref example_heap = Ok l ∧
    (∀ d, py_items example_ref example_heap = Ok d → d ⊆ l) ∧
    (∀ k a d, (k, VRef a) ∈ l → example_heap !! a = Some (ODict d) → d ⊆ l) ∧
    (∀ k, k ∈ f.*1 ↔ k ∈ l.*1) ∧
    (∀ k, dict_get k f = last_assoc k l).
Proof.
  apply (flatten_walk_order 4 example_heap example_ref example); reflexivity.
Defined.

(** C4, as amended.  On an instance whose store denotes a nested mapping,
    reading a name that has no leading underscore and is a key at no depth
    of the store returns [None] and changes nothing, and writing any name
    succeeds.  (A name with a leading underscore that the store does not
    have goes to the default lookup of the host, which raises when the
    object has no such attribute.) *)
Theorem absent_read_returns_none n h self st d t name :
  instance h self st d → reify n h (VRef st) = Some t →
  String.prefix "_" name = false → name ∉ tree_keys t →
  Data.__getattr__ n self name h = Ok (VNone, h) ∧
  ∀ attr v, ∃ h', Data.__setattr__ self attr v h = Ok h'.
Proof.
  intros Hinst Hr Hpre Habs. split.
  - assert (isinstance_dict h (VRef st) = true) as Hd.
    { simpl. by rewrite (proj2 Hinst). }
    destruct (walk_total _ _ _ _ Hr Hd) as (l & Hl).
    destruct (flatten_walk _ _ _ _ Hl) as (f & Hf & Hget & _).
    rewrite <-(walk_keys _ _ _ _ _ Hr Hl) in Habs.
    rewrite (getattr_flatten n h self st d name f); try done.
    + apply last_assoc_None in Habs. by rewrite Hget, Habs.
    + apply dict_get_None. intros Hin. apply Habs.
      apply list_elem_of_fmap in Hin as ([k v] & -> & Hin).
      apply list_elem_of_fmap. exists (k, v). split; [done|].
      apply (walk_top _ _ _ _ d Hl); [|done]. simpl. by rewrite (proj2 Hinst).
  - intros attr v. rewrite (setattr_ok _ _ _ _ _ _ Hinst). eauto.
Qed.

Lemma absent_read_returns_none_witness :
  Data.__getattr__ 4 5 "color" loaded_heap = Ok (VNone, loaded_heap) ∧
  ∀ attr v, ∃ h', Data.__setattr__ 5 attr v loaded_heap = Ok h'.
Proof.
  apply (absent_read_returns_none 4 loaded_heap 5 4 [("metadata", VRef 2)]
           example "color").
  - by split.
  - reflexivity.
  - reflexivity.
  - vm_compute. intros H. repeat (apply elem_of_cons in H as [H|H]; [discriminate|]).
    by apply elem_of_nil in H.
Defined.

(** C4 as stated fails: the empty instance has no [_color] anywhere, and
    reading it raises. *)
Lemma underscore_read_raises :
  ∃ self st d h,
    Data.new [] [] = Ok (self, h) ∧ instance h self st d ∧
    (∀ n l, walk n (VRef st) h = Ok l → "_color" ∉ l.*1) ∧
    Data.__getattr__ 1000 self "_color" h = Raise AttributeError.
Proof.
  eexists 1, 0, _, _. split; [by vm_compute|]. split; [by split|]. split.
  - intros n l Hl. apply (walk_mono _ (3 + n)) in Hl; [|lia].
    vm_compute in Hl. injection Hl as <-. vm_compute.
    intros H. repeat (apply elem_of_cons in H as [H|H]; [discriminate|]).
    by apply elem_of_nil in H.
  - by vm_compute.
Qed.

(** The loop of [flatten_dict] over entries that hold no dictionary adds
    the entries and nothing else. *)
Lemma flatten_loop_flat rec h d acc :
  (∀ k v, (k, v) ∈ d → isinstance_dict h v = false) →
  Data.flatten_loop rec h d acc = Ok (acc ++ d).
Proof.
  revert acc. induction d as [|[k v] d IH]; intros acc Hd; simpl.
  - by rewrite app_nil_r.
  - rewrite (Hd k v) by left. simpl. rewrite IH.
    + by rewrite <-app_assoc.
    + intros k' v' Hin. apply (Hd k' v'). by right.
Qed.

(** C9.  Flattening goes into plain dictionaries only: on a store whose
    top-level values are no plain dictionaries (wrappers, for one), a name
    that is no top-level key and has no leading underscore reads as [None].
    So for the instance built from
    [{"metadata": {"system": {"height": 11, "size": 10.7}}}], where
    [height] reads as 11 at first, reading [metadata] puts a wrapper in the
    store, and [height] then reads as [None]. *)
Theorem materialized_subtree_hidden (n : nat) :
  (∀ h self st d name,
     instance h self st d →
     (∀ k v, (k, v) ∈ d → isinstance_dict h v = false) →
     dict_get name d = None → String.prefix "_" name = false →
     Data.__getattr__ (S n) self name h = Ok (VNone, h)) ∧
  ∃ self w store,
    Data.from_dict nested_ref nested_heap = Ok (self, nested_loaded) ∧
    Data.__getattr__ (3 + n) self "height" nested_loaded
      = Ok (VInt 11, nested_loaded) ∧
    Data.__getattr__ (3 + n) self "metadata" nested_loaded
      = Ok (VRef w, nested_read) ∧
    nested_read !! w = Some (OData store) ∧
    Data.__getattr__ (3 + n) self "height" nested_read
      = Ok (VNone, nested_read).
Proof.
  split.
  - intros h self st d name Hinst Hflat Hname Hpre.
    rewrite (getattr_flatten (S n) h self st d name (dict_of_pairs d)); try done.
    + rewrite dict_of_pairs_get.
      apply dict_get_None, last_assoc_None in Hname. by rewrite Hname.
    + simpl. rewrite (proj2 Hinst). simpl.
      by rewrite (flatten_loop_flat _ _ _ _ Hflat).
  - exists 4, 6, (Some (VRef 5)). split_and!.
    + by vm_compute.
    + by apply (getattr_mono 3); [vm_compute | lia].
    + by apply (getattr_mono 3); [vm_compute | lia].
    + by vm_compute.
    + by apply (getattr_mono 3); [vm_compute | lia].
Qed.

Lemma materialized_subtree_hidden_witness :
  Data.__getattr__ 1 4 "size" nested_read = Ok (VNone, nested_read).
Proof.
  apply (proj1 (materialized_subtree_hidden 0) nested_read 4 3
           [("metadata", VRef 6)] "size").
  - by split.
  - intros k v [= -> ->]%list_elem_of_singleton. reflexivity.
  - reflexivity.
  - reflexivity.
Defined.

(** ** Heaps that only gain entries: the constructor *)

Lemma obj_le_refl o : obj_le o o.
Proof. destruct o; simpl; auto. Qed.

Lemma obj_le_trans o1 o2 o3 : obj_le o1 o2 → obj_le o2 o3 → obj_le o1 o3.
Proof.
  destruct o1, o2; simpl; try congruence; try (intros <-; done).
  destruct o3; simpl; try congruence. auto.
Qed.

Lemma grows_refl h : grows h h.
Proof. intros a o Ha. exists o. split; [done | apply obj_le_refl]. Qed.

Lemma grows_trans h1 h2 h3 : grows h1 h2 → grows h2 h3 → grows h1 h3.
Proof.
  intros H12 H23 a o Ha.
  destruct (H12 _ _ Ha) as (o2 & Ha2 & Hle2).
  destruct (H23 _ _ Ha2) as (o3 & Ha3 & Hle3).
  exists o3. split; [done | by eapply obj_le_trans].
Qed.

Lemma preserves_grows h h' : preserves h h' → grows h h'.
Proof. intros Hp a o Ha. exists o. split; [by apply Hp | apply obj_le_refl]. Qed.

Lemma grows_app h l : grows h (h ++ l).
Proof. apply preserves_grows, preserves_app. Qed.

Lemma grows_insert h a d d' :
  h !! a = Some (ODict d) →
  (∀ k v, dict_get k d = Some v → dict_get k d' = Some v) →
  grows h (<[a := ODict d']> h).
Proof.
  intros Ha Hd b o Hb. destruct (decide (a = b)) as [<-|Hne].
  - exists (ODict d'). rewrite list_lookup_insert_eq by (by eapply lookup_lt_Some).
    split; [done|]. rewrite Ha in Hb. by injection Hb as <-.
  - exists o. rewrite list_lookup_insert_ne by done. split; [done | apply obj_le_refl].
Qed.

Lemma grows_insert_fresh h h' a o :
  grows h h' → (List.length h ≤ a)%nat → grows h (<[a := o]> h').
Proof.
  intros Hg Ha b ob Hb. destruct (Hg _ _ Hb) as (o' & Hb' & Hle).
  exists o'. split; [|done]. rewrite list_lookup_insert_ne; [done|].
  apply lookup_lt_Some in Hb. lia.
Qed.

Lemma grows_has h h' a k v : grows h h' → has h a k v → has h' a k v.
Proof.
  intros Hg (d & Ha & Hk). destruct (Hg _ _ Ha) as ([d'| |] & Ha' & Hle); try done.
  exists d'. split; [done|]. by apply Hle.
Qed.

Lemma grows_data h h' a s :
  grows h h' → h !! a = Some (OData s) → h' !! a = Some (OData s).
Proof.
  intros Hg Ha. destruct (Hg _ _ Ha) as (o' & Ha' & Hle). simpl in Hle. by subst.
Qed.

Lemma grows_dict h h' a d :
  grows h h' → h !! a = Some (ODict d) →
  ∃ d', h' !! a = Some (ODict d') ∧
        ∀ k v, dict_get k d = Some v → dict_get k d' = Some v.
Proof.
  intros Hg Ha. destruct (Hg _ _ Ha) as ([d'| |] & Ha' & Hle); try done. eauto.
Qed.

Lemma grows_isinstance_dict h h' v :
  grows h h' → isinstance_dict h v = true → isinstance_dict h' v = true.
Proof.
  intros Hg. destruct v; simpl; try done.
  destruct (h !! a) as [[d| |]|] eqn:Ha; try done.
  destruct (grows_dict _ _ _ _ Hg Ha) as (d' & -> & _). done.
Qed.

Lemma dict_set_le k v d :
  dict_get k d = None →
  ∀ k' v', dict_get k' d = Some v' → dict_get k' (dict_set k v d) = Some v'.
Proof.
  intros Hk k' v' Hk'. rewrite dict_get_set. destruct (decide (k = k')); congruence.
Qed.

Lemma dict_default_le k v d k' v' :
  dict_get k' d = Some v' → dict_get k' (dict_default k v d) = Some v'.
Proof.
  unfold dict_default. destruct (dict_get k d) eqn:Hk; [done|].
  by apply dict_set_le.
Qed.

Lemma dict_default_get k v d :
  dict_get k (dict_default k v d) = Some (default v (dict_get k d)).
Proof.
  unfold dict_default. destruct (dict_get k d) eqn:Hk; [done|].
  apply dict_get_set_eq.
Qed.

Lemma dict_default_get_ne k k' v d :
  k ≠ k' → dict_get k' (dict_default k v d) = dict_get k' d.
Proof.
  intros. unfold dict_default. destruct (dict_get k d); [done|].
  by apply dict_get_set_ne.
Qed.

Lemma setdefault_ok h a d k v :
  h !! a = Some (ODict d) →
  py_setdefault (VRef a) k v h = Ok (<[a := ODict (dict_default k v d)]> h).
Proof.
  intros Ha. unfold dict_default. simpl. rewrite Ha.
  destruct (dict_get k d); [|done]. by rewrite list_insert_id.
Qed.

Ltac heap_len := rewrite ?length_insert, ?length_app; simpl; lia.

Ltac heap_simpl :=
  repeat first
    [ rewrite list_lookup_insert_ne by lia
    | rewrite list_lookup_insert_eq by heap_len
    | rewrite lookup_app_l by heap_len
    | rewrite list_lookup_middle by heap_len ].

Lemma self_data_ok h self v :
  h !! self = Some (OData (Some v)) → Data.self_data self h = Ok v.
Proof. intros H. unfold Data.self_data. by rewrite H. Qed.

Lemma contains_ok h a d k :
  h !! a = Some (ODict d) →
  py_contains k (VRef a) h = Ok (bool_decide (is_Some (dict_get k d))).
Proof. intros H. simpl. by rewrite H. Qed.

Lemma getitem_ok h a d k v :
  h !! a = Some (ODict d) → dict_get k d = Some v →
  py_getitem (VRef a) k h = Ok v.
Proof. intros H Hk. simpl. by rewrite H, Hk. Qed.

Lemma setitem_ok h a d k v :
  h !! a = Some (ODict d) →
  py_setitem (VRef a) k v h = Ok (<[a := ODict (dict_set k v d)]> h).
Proof. intros H. simpl. by rewrite H. Qed.

Lemma unpack_ok h a d :
  h !! a = Some (ODict d) → py_unpack (VRef a) h = Ok d.
Proof. intros H. simpl. by rewrite H. Qed.

Lemma has_insert h a d k v :
  (a < List.length h)%nat → dict_get k d = Some v →
  has (<[a := ODict d]> h) a k v.
Proof. intros Ha Hk. exists d. by rewrite list_lookup_insert_eq. Qed.

(** The two [setdefault] calls that end [_set_default_values]. *)
Lemma setdefaults_spec h ss sd :
  h !! ss = Some (ODict sd) →
  ∃ h',
    (do h1 <- py_setdefault (VRef ss) "height" (VInt 100) h ;
     py_setdefault (VRef ss) "size" (VInt 10) h1) = Ok h' ∧
    grows h h' ∧
    has h' ss "height" (default (VInt 100) (dict_get "height" sd)) ∧
    has h' ss "size" (default (VInt 10) (dict_get "size" sd)).
Proof.
  intros Hss.
  assert (ss < List.length h)%nat as Hl by (by eapply lookup_lt_Some).
  rewrite (setdefault_ok _ _ _ _ _ Hss). cbn [rbind].
  set (sd1 := dict_default "height" (VInt 100) sd).
  set (h1 := <[ss := ODict sd1]> h).
  assert (h1 !! ss = Some (ODict sd1)) as Hss1 by (subst h1; by heap_simpl).
  rewrite (setdefault_ok _ _ _ _ _ Hss1).
  eexists. split; [done|]. split_and!.
  - eapply grows_trans.
    + apply (grows_insert h ss sd sd1 Hss). intros ??. apply dict_default_le.
    + apply (grows_insert h1 ss sd1 _ Hss1). intros ??. apply dict_default_le.
  - apply has_insert; [subst h1; heap_len|].
    rewrite dict_default_get_ne by done. apply dict_default_get.
  - apply has_insert; [subst h1; heap_len|].
    rewrite dict_default_get. subst sd1. by rewrite dict_default_get_ne.
Qed.

(** The part of [_set_default_values] that follows the reading of
    [metadata]. *)
Lemma ensure_system_spec h mm md :
  h !! mm = Some (ODict md) →
  (∀ sv, dict_get "system" md = Some sv → isinstance_dict h sv = true) →
  ∃ h' ss,
    (do present <- py_contains "system" (VRef mm) h ;
     do h0 <- (if present : bool then Ok h
               else py_setitem (VRef mm) "system" (VRef (List.length h))
                      (h ++ [ODict []])) ;
     do system <- py_getitem (VRef mm) "system" h0 ;
     do h1 <- py_setdefault system "height" (VInt 100) h0 ;
     py_setdefault system "size" (VInt 10) h1) = Ok h' ∧
    grows h h' ∧ has h' mm "system" (VRef ss) ∧
    has h' ss "height"
      (default (VInt 100) (lookup_path h ["system"; "height"] (VRef mm))) ∧
    has h' ss "size"
      (default (VInt 10) (lookup_path h ["system"; "size"] (VRef mm))).
Proof.
  intros Hmm Hsys.
  assert (mm < List.length h)%nat as Hl by (by eapply lookup_lt_Some).
  rewrite (contains_ok _ _ _ _ Hmm). cbn [rbind]. simpl lookup_path. rewrite Hmm.
  destruct (dict_get "system" md) as [sv|] eqn:Hsv.
  - rewrite bool_decide_true by eauto. cbn [rbind].
    rewrite (getitem_ok _ _ _ _ _ Hmm Hsv). cbn [rbind].
    specialize (Hsys _ eq_refl). destruct sv as [| | | | | | |ss]; try done.
    simpl in Hsys. destruct (h !! ss) as [[sd| |]|] eqn:Hss; try done.
    destruct (setdefaults_spec _ _ _ Hss) as (h' & -> & Hg & Hh & Hs).
    exists h', ss. split_and!; [done | done | ..].
    + apply (grows_has h); [done|]. by exists md.
    + simpl. rewrite Hss. by destruct (dict_get "height" sd).
    + simpl. rewrite Hss. by destruct (dict_get "size" sd).
  - rewrite bool_decide_false by (by intros [? ?]). cbn [rbind].
    set (s := List.length h). set (h1 := h ++ [ODict []]).
    assert (h1 !! mm = Some (ODict md)) as Hmm1 by (subst h1; by heap_simpl).
    rewrite (setitem_ok _ _ _ _ _ Hmm1). cbn [rbind].
    set (h2 := <[mm := _]> h1).
    assert (h2 !! mm = Some (ODict (dict_set "system" (VRef s) md))) as Hmm2
      by (subst h2 h1; by heap_simpl).
    rewrite (getitem_ok _ _ _ _ _ Hmm2 (dict_get_set_eq _ _ _)). cbn [rbind].
    assert (h2 !! s = Some (ODict [])) as Hs2 by (subst h2 h1 s; by heap_simpl).
    destruct (setdefaults_spec _ _ _ Hs2) as (h' & -> & Hg & Hh & Hs).
    exists h', s. split_and!; try done.
    + eapply grows_trans; [|done]. eapply grows_trans; [apply (grows_app h [ODict []])|].
      apply (grows_insert h1 mm md _ Hmm1). by apply dict_set_le.
    + apply (grows_has h2); [done|]. eexists. split; [done|]. apply dict_get_set_eq.
Qed.

Lemma set_default_values_spec h self st d :
  instance h self st d → well_shaped h d = true →
  ∃ h' mm ss,
    Data._set_default_values self h = Ok h' ∧ grows h h' ∧
    has h' st "metadata" (VRef mm) ∧ has h' mm "system" (VRef ss) ∧
    has h' ss "height" (default (VInt 100) (supplied h d "height")) ∧
    has h' ss "size" (default (VInt 10) (supplied h d "size")).
Proof.
  intros [Hself Hst] Hws.
  assert (self < List.length h)%nat as Hlself by (by eapply lookup_lt_Some).
  assert (st < List.length h)%nat as Hlst by (by eapply lookup_lt_Some).
  assert (self ≠ st) as Hne by (intros ->; congruence).
  unfold Data._set_default_values, well_shaped, supplied in *.
  rewrite (self_data_ok _ _ _ Hself). cbn [rbind].
  rewrite (contains_ok _ _ _ _ Hst). cbn [rbind].
  destruct (dict_get "metadata" d) as [mv|] eqn:Hmeta.
  - rewrite bool_decide_true by eauto. cbn [rbind].
    rewrite (self_data_ok _ _ _ Hself). cbn [rbind].
    rewrite (getitem_ok _ _ _ _ _ Hst Hmeta). cbn [rbind].
    apply andb_prop in Hws as [Hmv Hsys].
    destruct mv as [| | | | | | |mm]; try done. simpl in Hmv.
    destruct (h !! mm) as [[md| |]|] eqn:Hmm; try done.
    destruct (ensure_system_spec h mm md Hmm) as (h' & ss & Heq & Hg & Hs & Hh & Hz).
    { intros sv Hsv. simpl in Hsys. by rewrite Hmm, Hsv in Hsys. }
    exists h', mm, ss. split_and!; try done.
    apply (grows_has h); [done|]. by exists d.
  - rewrite bool_decide_false by (by intros [? ?]). cbn [alloc rbind].
    set (m := List.length h). set (h1 := h ++ [ODict []]).
    assert (h1 !! self = Some (OData (Some (VRef st)))) as Hself1
      by (subst h1; by heap_simpl).
    assert (h1 !! st = Some (ODict d)) as Hst1 by (subst h1; by heap_simpl).
    rewrite (self_data_ok _ _ _ Hself1). cbn [rbind].
    rewrite (setitem_ok _ _ _ _ _ Hst1). cbn [rbind].
    set (h2 := <[st := _]> h1).
    assert (h2 !! self = Some (OData (Some (VRef st)))) as Hself2
      by (subst h2 h1; by heap_simpl).
    assert (h2 !! st = Some (ODict (dict_set "metadata" (VRef m) d))) as Hst2
      by (subst h2 h1; by heap_simpl).
    assert (h2 !! m = Some (ODict [])) as Hm2 by (subst h2 h1 m; by heap_simpl).
    rewrite (self_data_ok _ _ _ Hself2). cbn [rbind].
    rewrite (getitem_ok _ _ _ _ _ Hst2 (dict_get_set_eq _ _ _)). cbn [rbind].
    destruct (ensure_system_spec h2 m [] Hm2) as (h' & ss & Heq & Hg & Hs & Hh & Hz).
    { by intros sv. }
    exists h', m, ss. split_and!; try done.
    + eapply grows_trans; [|done]. eapply grows_trans; [apply (grows_app h [ODict []])|].
      apply (grows_insert h1 st d _ Hst1). by apply dict_set_le.
    + apply (grows_has h2); [done|]. eexists. split; [done|]. apply dict_get_set_eq.
    + simpl in Hh. by rewrite Hm2 in Hh.
    + simpl in Hz. by rewrite Hm2 in Hz.
Qed.

Lemma well_shaped_preserves h h' d :
  preserves h h' → well_shaped h d = true →
  well_shaped h' d = true ∧ ∀ key, supplied h' d key = supplied h d key.
Proof.
  intros Hp. unfold well_shaped, supplied.
  destruct (dict_get "metadata" d) as [mv|]; [|done].
  intros [Hmv Hsys]%andb_prop.
  destruct mv as [| | | | | | |mm]; try done. simpl in *.
  destruct (h !! mm) as [[md| |]|] eqn:Hmm; try done.
  rewrite (Hp _ _ Hmm). simpl.
  destruct (dict_get "system" md) as [sv|]; [|done]. simpl in *.
  rewrite (isinstance_dict_preserves _ _ _ Hp Hsys). split; [done|].
  intros key. destruct sv as [| | | | | | |ss]; try done. simpl in Hsys.
  destruct (h !! ss) as [[sd| |]|] eqn:Hss; try done.
  by rewrite (Hp _ _ Hss).
Qed.

(** The constructor on keyword arguments it accepts. *)
Lemma new_spec h kwargs :
  dict_get "self" kwargs = None → well_shaped h kwargs = true →
  ∃ h' d' mm ss,
    Data.new kwargs h = Ok (S (List.length h), h') ∧ grows h h' ∧
    instance h' (S (List.length h)) (List.length h) d' ∧
    (∀ k v, dict_get k kwargs = Some v → dict_get k d' = Some v) ∧
    has h' (List.length h) "metadata" (VRef mm) ∧
    has h' mm "system" (VRef ss) ∧
    has h' ss "height" (default (VInt 100) (supplied h kwargs "height")) ∧
    has h' ss "size" (default (VInt 10) (supplied h kwargs "size")).
Proof.
  intros Hkw Hws. unfold Data.new. rewrite Hkw.
  unfold Data.__init__, Data.__setattr__. cbn [alloc].
  rewrite decide_True by done.
  set (k := List.length h). set (h1 := h ++ [ODict kwargs]).
  assert (List.length h1 = S k) as -> by (subst h1 k; heap_len).
  set (h2 := h1 ++ [OData None]).
  assert (h2 !! S k = Some (OData None)) as -> by (subst h2 h1 k; by heap_simpl).
  cbn [rbind]. set (h3 := <[S k := _]> h2).
  assert (instance h3 (S k) k kwargs) as Hinst.
  { split; subst h3 h2 h1 k; by heap_simpl. }
  assert (preserves h h3) as Hp.
  { apply preserves_insert_fresh; [|subst k; lia].
    subst h2 h1. rewrite <-app_assoc. apply preserves_app. }
  destruct (well_shaped_preserves _ _ _ Hp Hws) as [Hws3 Hsup].
  destruct (set_default_values_spec _ _ _ _ Hinst Hws3)
    as (h' & mm & ss & -> & Hg & Hm & Hs & Hh & Hz).
  cbn [rbind]. rewrite !Hsup in *.
  destruct Hinst as [Hself Hst].
  destruct (grows_dict _ _ _ _ Hg Hst) as (d' & Hst' & Hd').
  exists h', d', mm, ss. split_and!; try done.
  - eapply grows_trans; [by apply preserves_grows|done].
  - split; [|done]. by apply (grows_data h3).
Qed.

(** X21.  When no keyword is named [self] and the keyword arguments give
    [metadata] and [metadata.system], if at all, as dictionaries,
    construction succeeds; every dictionary keeps the entries it had and
    the store has every entry that was passed; the store maps [metadata]
    to a dictionary, that maps [system] to a dictionary, and there
    [height] and [size] are what the caller supplied (a falsy value such
    as 0 too), or 100 and 10 where the caller supplied nothing.
    Constructing with [{"name": "my"}] gives an instance on which [height]
    reads 100 and [size] reads 10. *)
Theorem construction_injects_defaults :
  (∀ h kwargs,
     dict_get "self" kwargs = None → well_shaped h kwargs = true →
     ∃ self st d' mm ss h',
       Data.new kwargs h = Ok (self, h') ∧ grows h h' ∧
       instance h' self st d' ∧
       (∀ k v, dict_get k kwargs = Some v → dict_get k d' = Some v) ∧
       has h' st "metadata" (VRef mm) ∧ has h' mm "system" (VRef ss) ∧
       has h' ss "height" (default (VInt 100) (supplied h kwargs "height")) ∧
       has h' ss "size" (default (VInt 10) (supplied h kwargs "size"))) ∧
  (∀ n, ∃ self h',
     Data.new [("name", VStr "my")] [] = Ok (self, h') ∧
     Data.__getattr__ (3 + n) self "height" h' = Ok (VInt 100, h') ∧
     Data.__getattr__ (3 + n) self "size" h' = Ok (VInt 10, h')).
Proof.
  split.
  - intros h kwargs Hkw Hws.
    destruct (new_spec h kwargs Hkw Hws) as (h' & d' & mm & ss & H).
    by exists (S (List.length h)), (List.length h), d', mm, ss, h'.
  - intros n. eexists _, _. split; [by vm_compute|].
    split; by apply (getattr_mono 3); [vm_compute | lia].
Qed.

(** A caller who supplies [height] as 0 keeps the 0 and gets [size] 10. *)
Lemma construction_injects_defaults_witness :
  ∃ self st d' mm ss h',
    Data.new [("metadata", VRef 1)]
      [ODict [("height", VInt 0)]; ODict [("system", VRef 0)]]
      = Ok (self, h') ∧
    grows [ODict [("height", VInt 0)]; ODict [("system", VRef 0)]] h' ∧
    instance h' self st d' ∧
    (∀ k v, dict_get k [("metadata", VRef 1)] = Some v →
            dict_get k d' = Some v) ∧
    has h' st "metadata" (VRef mm) ∧ has h' mm "system" (VRef ss) ∧
    has h' ss "height" (VInt 0) ∧ has h' ss "size" (VInt 10).
Proof.
  apply (proj1 construction_injects_defaults
           [ODict [("height", VInt 0)]; ODict [("system", VRef 0)]]
           [("metadata", VRef 1)]); reflexivity.
Defined.

(** C2.  Construction does not ensure [metadata.system] for every initial
    mapping: with [metadata] given as 0 the value is kept, nothing is
    injected, and the constructor raises [TypeError], although [__init__]
    is documented to raise nothing. *)
Lemma construction_rejects_scalar_metadata :
  Data.new [("metadata", VInt 0)] [] = Raise TypeError.
Proof. reflexivity. Qed.

(** A top-level key whose value is no plain dictionary is returned as it
    is; the heap stays the same. *)
Lemma getattr_top n h self st d attr v :
  instance h self st d → dict_get attr d = Some v →
  isinstance_dict h v = false →
  Data.__getattr__ n self attr h = Ok (v, h).
Proof.
  intros [Hself Hst] Hattr Hv. unfold Data.__getattr__.
  rewrite (self_data_ok _ _ _ Hself). cbn [rbind].
  rewrite (contains_ok _ _ _ _ Hst), bool_decide_true by eauto. cbn [rbind].
  rewrite (getitem_ok _ _ _ _ _ Hst Hattr). cbn [rbind].
  rewrite Hv. cbn [rbind].
  rewrite (self_data_ok _ _ _ Hself). cbn [rbind].
  by rewrite (getitem_ok _ _ _ _ _ Hst Hattr).
Qed.

(** C5, as amended.  A write of a name other than [_data] lands in the
    top-level store: the store then maps the name to the value, every
    other object (each nested mapping among them) is as it was, and when
    the value is no plain dictionary a read of the name returns it, even
    where the same key lies deeper.  After writing 5 to [height] on the
    instance whose [metadata.system.height] is 11, [height] reads 5. *)
Theorem writes_land_at_top_level :
  (∀ n h self st d name v,
     instance h self st d → name ≠ "_data" →
     ∃ h',
       Data.__setattr__ self name v h = Ok h' ∧
       instance h' self st (dict_set name v d) ∧
       dict_get name (dict_set name v d) = Some v ∧
       (∀ a, a ≠ st → h' !! a = h !! a) ∧
       (isinstance_dict h' v = false →
        Data.__getattr__ n self name h' = Ok (v, h'))) ∧
  (∀ n, ∃ h',
     lookup_path loaded_heap ["metadata"; "system"; "height"] (VRef 4)
       = Some (VInt 11) ∧
     Data.__setattr__ 5 "height" (VInt 5) loaded_heap = Ok h' ∧
     lookup_path h' ["metadata"; "system"; "height"] (VRef 4)
       = Some (VInt 11) ∧
     Data.__getattr__ n 5 "height" h' = Ok (VInt 5, h')).
Proof.
  assert (∀ n h self st d name v,
     instance h self st d → name ≠ "_data" →
     ∃ h',
       Data.__setattr__ self name v h = Ok h' ∧
       instance h' self st (dict_set name v d) ∧
       dict_get name (dict_set name v d) = Some v ∧
       (∀ a, a ≠ st → h' !! a = h !! a) ∧
       (isinstance_dict h' v = false →
        Data.__getattr__ n self name h' = Ok (v, h'))) as Hgen.
  { intros n h self st d name v Hinst Hname.
    rewrite (setattr_ok _ _ _ _ _ _ Hinst), decide_False by done.
    destruct Hinst as [Hself Hst].
    assert (self ≠ st) as Hne by (intros ->; congruence).
    assert (st < List.length h)%nat by (by eapply lookup_lt_Some).
    assert (instance (<[st := ODict (dict_set name v d)]> h) self st
              (dict_set name v d)) as Hinst'.
    { split; by heap_simpl. }
    eexists. split; [done|]. split_and!; try done.
    - apply dict_get_set_eq.
    - intros a Ha. by heap_simpl.
    - intros Hv. apply (getattr_top _ _ _ _ _ _ _ Hinst'); [|done].
      apply dict_get_set_eq. }
  split; [done|]. intros n.
  destruct (Hgen n loaded_heap 5 4 [("metadata", VRef 2)] "height" (VInt 5))
    as (h' & Hset & _ & _ & _ & Hread); [by split | done |].
  exists h'. split; [done|]. split; [done|]. split; [|by apply Hread].
  vm_compute in Hset. injection Hset as <-. reflexivity.
Qed.

Lemma writes_land_at_top_level_witness :
  ∃ h',
    Data.__setattr__ 5 "batch" VNone loaded_heap = Ok h' ∧
    instance h' 5 4 (dict_set "batch" VNone [("metadata", VRef 2)]) ∧
    dict_get "batch" (dict_set "batch" VNone [("metadata", VRef 2)])
      = Some VNone ∧
    (∀ a, a ≠ 4 → h' !! a = loaded_heap !! a) ∧
    (isinstance_dict h' VNone = false →
     Data.__getattr__ 3 5 "batch" h' = Ok (VNone, h')).
Proof.
  apply (proj1 writes_land_at_top_level 3 loaded_heap 5 4
           [("metadata", VRef 2)] "batch" VNone).
  - split; reflexivity.
  - discriminate.
Defined.

(** C5 as stated fails twice.  Writing [_data] rebinds the store instead of
    adding a key to it, and the next read raises; and a plain dictionary
    that was written is not what a read returns: the read puts a new
    wrapper in its place and returns that. *)
Lemma write_then_read_differs :
  ∃ self st h,
    Data.new [] [ODict []] = Ok (self, h) ∧
    h !! self = Some (OData (Some (VRef st))) ∧
    (∃ h', Data.__setattr__ self "_data" (VInt 5) h = Ok h' ∧
           h' !! self = Some (OData (Some (VInt 5))) ∧
           h' !! st = h !! st ∧
           Data.__getattr__ 3 self "_data" h' = Raise TypeError) ∧
    (∃ h' w h'', Data.__setattr__ self "x" (VRef 0) h = Ok h' ∧
           has h' st "x" (VRef 0) ∧
           Data.__getattr__ 3 self "x" h' = Ok (VRef w, h'') ∧
           w ≠ 0 ∧ h'' !! w = Some (OData (Some (VRef 5)))).
Proof.
  exists 2, 1. eexists. split; [by vm_compute|]. split; [done|]. split.
  - eexists. split; [by vm_compute|]. by split_and!.
  - eexists _, 6, _. split; [by vm_compute|]. split.
    + eexists. by split.
    + split; [by vm_compute|]. by split.
Qed.

(** ** Materialisation *)

(** X22.  When a top-level key holds a plain dictionary that the
    constructor accepts (no key [self]; [metadata] and [metadata.system]
    in it are dictionaries, if present), the first read of the key makes a
    new wrapper instance whose store has the entries of that dictionary,
    puts it in the store under the key and returns it; a second read
    returns the same instance and changes nothing; and the wrapper is an
    instance like any other, on which each entry of the dictionary whose
    value is no plain dictionary reads as that value. *)
Theorem materialization_is_memoized n h self st d k m sub :
  instance h self st d → dict_get k d = Some (VRef m) →
  h !! m = Some (ODict sub) → dict_get "self" sub = None →
  well_shaped h sub = true →
  ∃ w h1 d1 ws wd,
    Data.__getattr__ n self k h = Ok (VRef w, h1) ∧
    h !! w = None ∧
    instance h1 self st d1 ∧ dict_get k d1 = Some (VRef w) ∧
    instance h1 w ws wd ∧
    (∀ k' v, dict_get k' sub = Some v → dict_get k' wd = Some v) ∧
    Data.__getattr__ n self k h1 = Ok (VRef w, h1) ∧
    (∀ k' v, dict_get k' sub = Some v → isinstance_dict h1 v = false →
             Data.__getattr__ n w k' h1 = Ok (v, h1)).
Proof.
  intros [Hself Hst] Hk Hm Hkw Hws.
  assert (self ≠ st) as Hne by (intros ->; congruence).
  assert (st < List.length h)%nat as Hlst by (by eapply lookup_lt_Some).
  assert (self < List.length h)%nat as Hlself by (by eapply lookup_lt_Some).
  destruct (new_spec h sub Hkw Hws)
    as (h' & wd & mm & ss & Hnew & Hg & [Hw Hws'] & Hwd & _).
  destruct (grows_dict _ _ _ _ Hg Hst) as (d' & Hst' & Hd').
  pose proof (grows_data _ _ _ _ Hg Hself) as Hself'.
  set (w := S (List.length h)) in *. set (ws := List.length h) in *.
  set (d1 := dict_set k (VRef w) d').
  set (h1 := <[st := ODict d1]> h').
  assert (st < List.length h')%nat as Hlst' by (by eapply lookup_lt_Some).
  assert (instance h1 self st d1) as Hinst1 by (split; subst h1; by heap_simpl).
  assert (instance h1 w ws wd) as Hinstw
    by (split; subst h1 w ws; by heap_simpl).
  assert (dict_get k d1 = Some (VRef w)) as Hk1 by apply dict_get_set_eq.
  assert (isinstance_dict h1 (VRef w) = false) as Hwrap.
  { simpl. by rewrite (proj1 Hinstw). }
  exists w, h1, d1, ws, wd. split_and!; try done.
  - unfold Data.__getattr__.
    rewrite (self_data_ok _ _ _ Hself). cbn [rbind].
    rewrite (contains_ok _ _ _ _ Hst), bool_decide_true by eauto. cbn [rbind].
    rewrite (getitem_ok _ _ _ _ _ Hst Hk). cbn [rbind].
    simpl isinstance_dict. rewrite Hm. rewrite (unpack_ok _ _ _ Hm). cbn [rbind].
    rewrite Hnew. cbn [rbind].
    rewrite (self_data_ok _ _ _ Hself'). cbn [rbind].
    rewrite (setitem_ok _ _ _ _ _ Hst'). cbn [rbind]. fold d1 h1.
    rewrite (self_data_ok _ _ _ (proj1 Hinst1)). cbn [rbind].
    by rewrite (getitem_ok _ _ _ _ _ (proj2 Hinst1) Hk1).
  - apply lookup_ge_None. subst w. lia.
  - by apply (getattr_top n h1 self st d1).
  - intros k' v Hk' Hv. apply (getattr_top n h1 w ws wd); auto.
Qed.

Lemma materialization_is_memoized_witness :
  ∃ w h1 d1 ws wd,
    Data.__getattr__ 3 3 "user" user_loaded = Ok (VRef w, h1) ∧
    user_loaded !! w = None ∧
    instance h1 3 2 d1 ∧ dict_get "user" d1 = Some (VRef w) ∧
    instance h1 w ws wd ∧
    (∀ k' v, dict_get k' [("batch", VInt 1121)] = Some v →
             dict_get k' wd = Some v) ∧
    Data.__getattr__ 3 3 "user" h1 = Ok (VRef w, h1) ∧
    (∀ k' v, dict_get k' [("batch", VInt 1121)] = Some v →
             isinstance_dict h1 v = false →
             Data.__getattr__ 3 w k' h1 = Ok (v, h1)).
Proof.
  apply (materialization_is_memoized 3 user_loaded 3 2
           [("user", VRef 0); ("metadata", VRef 4)] "user" 0
           [("batch", VInt 1121)]).
  - split; reflexivity.
  - reflexivity.
  - reflexivity.
  - reflexivity.
  - reflexivity.
Defined.

(** C8.  The first read of a key that holds a plain dictionary does not
    always return a wrapper: when the [metadata] of the stored dictionary
    is 0, the constructor called by the read raises [TypeError], and so
    does the read. *)
Lemma materialization_can_raise :
  ∃ self st d h,
    Data.new [("a", VRef 0)] [ODict [("metadata", VInt 0)]] = Ok (self, h) ∧
    instance h self st d ∧ dict_get "a" d = Some (VRef 0) ∧
    isinstance_dict h (VRef 0) = true ∧
    Data.__getattr__ 3 self "a" h = Raise TypeError.
Proof.
  exists 2, 1. eexists _, _. split; [by vm_compute|]. by split_and!.
Qed.

(** ** Conversion to plain form *)

Lemma tree_ind' (P : tree → Prop) :
  (∀ v, P (TLeaf v)) →
  (∀ d, Forall (fun kt => P kt.2) d → P (TDict d)) →
  (∀ s, P s → P (TData s)) →
  (∀ c, P c → P (TRecord (Some c))) →
  P (TRecord None) →
  ∀ t, P t.
Proof.
  intros Hleaf Hdict Hdata Hrec Hnone.
  fix IH 1. intros [v|d|s|[c|]].
  - apply Hleaf.
  - apply Hdict. induction d as [|[k t] d IHd]; constructor; [apply IH | apply IHd].
  - apply Hdata, IH.
  - apply Hrec, IH.
  - apply Hnone.
Qed.

Lemma plain_convertible t : plain t = true → convertible t = true.
Proof.
  induction t as [v|d IH|s IH|c IH|] using tree_ind'; simpl; try done.
  rewrite !forallb_forall. intros Hd kt Hin.
  rewrite Forall_forall in IH. apply list_elem_of_In in Hin. auto using list_elem_of_In.
  apply IH; [done|]. apply Hd. by apply list_elem_of_In.
Qed.

(** Converting a plain mapping gives the mapping back. *)
Lemma to_plain_plain t : plain t = true → to_plain t = t.
Proof.
  induction t as [v|d IH|s IH|c IH|] using tree_ind'; simpl; try done.
  intros Hd. f_equal. induction d as [|[k t] d IHd]; [done|].
  simpl in *. apply andb_prop in Hd as [Ht Hd].
  apply Forall_cons in IH as [IHt IH]. simpl in IHt.
  by rewrite IHt, IHd.
Qed.

(** The conversion of one value in the loop of
    [_convert_dataclasses_to_dict]. *)
Lemma convert_value m rec X n h v t :
  converts m rec → (S n ≤ m)%nat →
  reify_avoiding X (S n) h v = Some t → convertible t = true →
  Forall (fun x => (x < List.length h)%nat) X →
  ∃ v' h',
    (if is_dataclass h v then Data.call_to_dict rec v h
     else if isinstance_dict h v then rec v h
     else Ok (v, h)) = Ok (v', h') ∧
    preserves h h' ∧
    reify_avoiding X (S n) h' v' = Some (to_plain t).
Proof.
  intros Hrec Hle Hr Hconv HX. pose proof (reify_avoiding_inv _ _ _ _ _ Hr) as Hinv.
  destruct t as [v0|dt|s|[c|]].
  - destruct Hinv as [-> Hv].
    assert (is_dataclass h v = false) as -> by (destruct v; try done; by destruct (Hv a)).
    assert (isinstance_dict h v = false) as -> by (destruct v; try done; by destruct (Hv a)).
    exists v, h. split_and!; [done | apply preserves_refl | done].
  - destruct Hinv as (a & d & -> & _ & Ha & _).
    simpl is_dataclass. simpl isinstance_dict. rewrite Ha.
    destruct (Hrec (S n) X h (VRef a) (TDict dt)) as (r & h' & Hr' & Hp & _ & Hout);
      try done.
    exists (VRef r), h'. by split_and!.
  - destruct Hinv as (a & sv & -> & _ & Ha & Hs).
    simpl is_dataclass. rewrite Ha. simpl Data.call_to_dict. rewrite Ha.
    rewrite (self_data_ok _ _ _ Ha). cbn [rbind].
    simpl in Hconv. apply andb_prop in Hconv as [Hsd Hsc].
    destruct (Hrec n X h sv s) as (r & h' & Hr' & Hp & _ & Hout); try done; [lia|].
    exists (VRef r), h'. split_and!; [done..|].
    simpl to_plain. apply (reify_avoiding_fuel _ n); [done | lia].
  - destruct Hinv as (a & cv & -> & _ & Ha & Hc).
    simpl is_dataclass. rewrite Ha. simpl Data.call_to_dict. rewrite Ha.
    exists cv, h. split_and!; [done | apply preserves_refl |].
    simpl to_plain. apply (reify_avoiding_fuel _ n); [done | lia].
  - done.
Qed.

Lemma entries_reify_keys f d dt :
  Forall2 (entry_reifies f) d dt → dt.*1 = d.*1.
Proof.
  induction 1 as [|[k v] [k' t] d dt [Hk _] _ IH]; [done|].
  simpl in Hk. csimpl. by rewrite Hk, IH.
Qed.

(** The loop of [_convert_dataclasses_to_dict].  [h] is the heap in which
    the entries to convert are read, [hk] the heap the loop has reached,
    [acc] the entries it has put at [res] so far. *)
Lemma convert_loop_spec m rec X n res h todo dt :
  converts m rec → (S n ≤ m)%nat →
  Forall (fun x => (x < List.length h)%nat) X → (List.length h ≤ res)%nat →
  Forall2 (entry_reifies (reify_avoiding X (S n) h)) todo dt →
  forallb (fun kt => convertible kt.2) dt = true →
  ∀ hk acc dacc,
    preserves h hk → hk !! res = Some (ODict acc) →
    NoDup (acc.*1 ++ todo.*1) →
    Forall2 (entry_reifies (reify_avoiding (res :: X) (S n) hk)) acc dacc →
    ∃ h' acc',
      Data.convert_loop rec res todo hk = Ok h' ∧ preserves h h' ∧
      h' !! res = Some (ODict acc') ∧
      Forall2 (entry_reifies (reify_avoiding (res :: X) (S n) h')) acc'
        (dacc ++ map (fun kt => (kt.1, to_plain kt.2)) dt).
Proof.
  intros Hrec Hle HX Hres Htodo.
  induction Htodo as [|[key v] [key' t] todo dt [Hkey Hv] _ IH];
    intros Hconv hk acc dacc Hp Hacc Hnd Hdacc.
  - exists hk, acc. simpl. rewrite app_nil_r. done.
  - cbn [fst snd] in Hkey, Hv. simpl in Hconv. subst key'.
    apply andb_prop in Hconv as [Hct Hconv].
    assert (res < List.length hk)%nat as Hlres by (by eapply lookup_lt_Some).
    assert (reify_avoiding (res :: X) (S n) hk v = Some t) as Hv'.
    { eapply reify_avoiding_preserves; [done|]. by apply reify_avoiding_fresh. }
    destruct (convert_value m rec (res :: X) n hk v t) as (v' & hk' & Heq & Hp' & Hout);
      try done.
    { constructor; [done|]. eapply Forall_impl; [done|]. simpl. intros x Hx.
      pose proof (preserves_length _ _ Hp). lia. }
    simpl Data.convert_loop. rewrite Heq. cbn [rbind].
    pose proof (Hp' _ _ Hacc) as Hacc'.
    rewrite Hacc'. cbn [rbind].
    assert (dict_get key acc = None) as Hfresh.
    { apply dict_get_None. intros Hin. apply NoDup_app in Hnd as (_ & Hnd & _).
      apply (Hnd key Hin). csimpl. left. }
    rewrite (dict_set_fresh _ _ _ Hfresh).
    set (hk'' := <[res := ODict (acc ++ [(key, v')])]> hk').
    assert (res < List.length hk')%nat as Hlres' by (by eapply lookup_lt_Some).
    destruct (IH Hconv hk'' (acc ++ [(key, v')]) (dacc ++ [(key, to_plain t)]))
      as (h' & acc' & Hloop & Hph' & Hres' & Hall).
    + apply preserves_insert_fresh; [|done]. by eapply preserves_trans.
    + subst hk''. by heap_simpl.
    + rewrite fmap_app. csimpl. rewrite <-app_assoc. done.
    + apply Forall2_app.
      * eapply entries_reify_impl; [|done]. intros v0 t0 H0.
        apply reify_avoiding_insert; [left|]. by eapply reify_avoiding_preserves.
      * constructor; [|constructor]. split; [done|]. cbn [fst snd].
        apply reify_avoiding_insert; [left | done].
    + exists h', acc'. split_and!; try done.
      by rewrite <-app_assoc in Hall.
Qed.

(** [_convert_dataclasses_to_dict] returns a new dictionary that denotes
    the plain form of what its argument denotes. *)
Lemma convert_spec m : converts m (Data._convert_dataclasses_to_dict m).
Proof.
  induction m as [|m IH]; intros n X h v t Hle Hr Hdict Hconv HX.
  { destruct n; [done | lia]. }
  destruct n as [|n]; [done|]. destruct t as [|dt| |]; try done.
  destruct (reify_avoiding_inv _ _ _ _ _ Hr) as (a & d & -> & Ha & Hd & Hnd & Hdt).
  simpl Data._convert_dataclasses_to_dict. rewrite Hd. cbn [rbind alloc].
  set (res := List.length h). set (h0 := h ++ [ODict []]).
  destruct n as [|n].
  { destruct Hdt as [|[k v] [k' t] d dt [_ Hv]]; [|done].
    exists res, h0. split_and!; [done | apply preserves_app | done |].
    apply (reify_avoiding_dict X 0 h0 res [] []);
      [|subst h0 res; by heap_simpl|constructor..].
    intros Hin. rewrite Forall_forall in HX. specialize (HX _ Hin). subst res. lia. }
  assert (S n ≤ m)%nat as Hle' by lia.
  assert (List.length h ≤ res)%nat as Hres0 by done.
  destruct (convert_loop_spec m _ X n res h d dt IH Hle' HX Hres0 Hdt Hconv
              h0 [] [])
    as (h' & acc' & Hloop & Hp & Hres & Hall).
  - apply preserves_app.
  - subst h0 res. by heap_simpl.
  - done.
  - constructor.
  - rewrite Hloop. cbn [rbind]. exists res, h'. split_and!; try done.
    cbn [app] in Hall. simpl to_plain.
    apply (reify_avoiding_dict X (S n) h' res acc'); try done.
    + intros Hin. rewrite Forall_forall in HX. specialize (HX _ Hin). subst res. lia.
    + apply entries_reify_keys in Hall. rewrite <-Hall.
      rewrite <-list_fmap_compose. apply entries_reify_keys in Hdt.
      by rewrite <-Hdt in Hnd.
    + eapply entries_reify_impl; [|done]. intros v0 t0.
      apply reify_avoiding_weaken. intros x Hx. by right.
Qed.

Lemma assoc_map_snd {A B} (g : A → B) k (d : list (string * A)) :
  assoc k (map (fun kt => (kt.1, g kt.2)) d) = g <$> assoc k d.
Proof.
  induction d as [|[k' x] d IH]; simpl; [done|].
  by destruct (decide (k = k')).
Qed.

(** Entries that are read entry by entry are looked up alike. *)
Lemma entries_reify_lookup f d dt k :
  Forall2 (entry_reifies f) d dt →
  match dict_get k d, assoc k dt with
  | Some v, Some t => f v = Some t
  | None, None => True
  | _, _ => False
  end.
Proof.
  induction 1 as [|[k1 v] [k2 t] d dt [Hk Hv] _ IH]; simpl; [done|].
  simpl in Hk, Hv. subst k2. by destruct (decide (k = k1)).
Qed.

Lemma entries_reify_assoc f d dt k t :
  Forall2 (entry_reifies f) d dt → assoc k dt = Some t →
  ∃ v, dict_get k d = Some v ∧ f v = Some t.
Proof.
  intros H Hk. pose proof (entries_reify_lookup f d dt k H) as Hl.
  rewrite Hk in Hl. destruct (dict_get k d); [eauto | done].
Qed.

Lemma entries_reify_get f d dt k v :
  Forall2 (entry_reifies f) d dt → dict_get k d = Some v →
  ∃ t, assoc k dt = Some t ∧ f v = Some t.
Proof.
  intros H Hk. pose proof (entries_reify_lookup f d dt k H) as Hl.
  rewrite Hk in Hl. destruct (assoc k dt); [eauto | done].
Qed.

(** [to_dict] on an instance whose store denotes a convertible mapping. *)
Lemma to_dict_spec n h self t :
  reify n h (VRef self) = Some (TData t) → convertible (TData t) = true →
  ∃ r h',
    Data.to_dict n self h = Ok (VRef r, h') ∧
    h !! r = None ∧ preserves h h' ∧
    reify n h' (VRef r) = Some (to_plain t) ∧
    (∀ k x, tree_get k t = Some x →
            tree_get k (to_plain t) = Some (to_plain x)) ∧
    (∀ k v, tree_get k t = Some (TLeaf v) → has h' r k v).
Proof.
  intros Hr Hconv. destruct n as [|n]; [done|].
  destruct (reify_inv _ _ _ _ Hr) as (a & sv & [= <-] & Hself & Hs).
  simpl in Hconv. apply andb_prop in Hconv as [Hdict Hconv].
  destruct (convert_spec (S n) n [] h sv t) as (r & h' & Heq & Hp & Hlen & Hout);
    try done; [lia|].
  assert (reify (S n) h' (VRef r) = Some (to_plain t)) as Hout'.
  { apply (reify_fuel n); [done | lia]. }
  assert (∀ k x, tree_get k t = Some x →
            tree_get k (to_plain t) = Some (to_plain x)) as Hget.
  { intros k x. destruct t as [|dt| |]; try done. simpl.
    rewrite assoc_map_snd. by intros ->. }
  exists r, h'. split_and!; try done.
  - unfold Data.to_dict. by rewrite (self_data_ok _ _ _ Hself).
  - by apply lookup_ge_None.
  - intros k v Hk. apply Hget in Hk. simpl in Hk.
    destruct (to_plain t) as [|dt'| |] eqn:Hpt; try done.
    destruct (reify_inv _ _ _ _ Hout') as (a & d' & [= <-] & Hd' & _ & Hall).
    destruct (entries_reify_assoc _ _ _ _ _ Hall Hk) as (v' & Hv' & Hleaf).
    exists d'. split; [done|]. destruct n as [|n]; [done|].
    apply reify_inv in Hleaf as [-> _]. done.
Qed.



(** ** The round trip *)

(** When [metadata.system.height] and [metadata.system.size] are there,
    default injection changes nothing. *)
Lemma set_default_values_noop h self st d mm md ss sd :
  instance h self st d →
  dict_get "metadata" d = Some (VRef mm) → h !! mm = Some (ODict md) →
  dict_get "system" md = Some (VRef ss) → h !! ss = Some (ODict sd) →
  is_Some (dict_get "height" sd) → is_Some (dict_get "size" sd) →
  Data._set_default_values self h = Ok h.
Proof.
  intros [Hself Hst] Hmeta Hmm Hsys Hss [hv Hh] [zv Hz].
  unfold Data._set_default_values.
  rewrite (self_data_ok _ _ _ Hself). cbn [rbind].
  rewrite (contains_ok _ _ _ _ Hst), bool_decide_true by eauto. cbn [rbind].
  rewrite (self_data_ok _ _ _ Hself). cbn [rbind].
  rewrite (getitem_ok _ _ _ _ _ Hst Hmeta). cbn [rbind].
  rewrite (contains_ok _ _ _ _ Hmm), bool_decide_true by eauto. cbn [rbind].
  rewrite (getitem_ok _ _ _ _ _ Hmm Hsys). cbn [rbind].
  rewrite (setdefault_ok _ _ _ _ _ Hss). cbn [rbind].
  unfold dict_default at 1. rewrite Hh, (list_insert_id _ _ _ Hss).
  rewrite (setdefault_ok _ _ _ _ _ Hss).
  unfold dict_default. by rewrite Hz, (list_insert_id _ _ _ Hss).
Qed.

(** X23.  Let [m] be a plain nested mapping without a top-level key
    [self]: it denotes a tree with no wrapper and no record instance at
    any key, and [metadata.system.height] and [metadata.system.size] are
    defined in it.  Then [from_dict] makes an instance of it, [to_dict] on
    that instance returns a new dictionary, and that dictionary denotes
    the same tree as [m] does, leaf for leaf the same values: it is equal
    to [m]. *)
Theorem round_trip n h m t sd :
  reify n h m = Some t → is_tdict t = true → plain t = true →
  tree_get "self" t = None →
  tree_path ["metadata"; "system"] t = Some (TDict sd) →
  is_Some (assoc "height" sd) → is_Some (assoc "size" sd) →
  ∃ self h1 r h2,
    Data.from_dict m h = Ok (self, h1) ∧
    Data.to_dict n self h1 = Ok (VRef r, h2) ∧
    h1 !! r = None ∧
    reify n h2 (VRef r) = Some t ∧ reify n h2 m = Some t.
Proof.
  intros Hr Hdict Hplain Hnoself Hpath [hv Hh] [zv Hz].
  destruct t as [|dt| |]; try done. destruct n as [|n]; [done|].
  destruct (reify_inv _ _ _ _ Hr) as (a & d & -> & Ha & Hnd & Hdt).
  assert (dict_get "self" d = None) as Hkw.
  { pose proof (entries_reify_lookup _ _ _ "self" Hdt) as Hl.
    simpl in Hnoself. rewrite Hnoself in Hl.
    by destruct (dict_get "self" d). }
  (* the path [metadata.system], on the heap *)
  simpl in Hpath.
  destruct (assoc "metadata" dt) as [tm|] eqn:Hmeta; [|done]. simpl in Hpath.
  destruct (tree_get "system" tm) as [ts|] eqn:Hsys; [|done].
  simpl in Hpath. injection Hpath as ->.
  destruct tm as [|dm| |]; try done. simpl in Hsys.
  destruct (entries_reify_assoc _ _ _ _ _ Hdt Hmeta) as (vm & Hvm & Hrm).
  destruct n as [|n]; [done|].
  destruct (reify_inv _ _ _ _ Hrm) as (mm & md & -> & Hmm & _ & Hdm).
  destruct (entries_reify_assoc _ _ _ _ _ Hdm Hsys) as (vs & Hvs & Hrs).
  destruct n as [|n]; [done|].
  destruct (reify_inv _ _ _ _ Hrs) as (ss & sdh & -> & Hss & _ & Hsd).
  destruct (entries_reify_assoc _ _ _ _ _ Hsd Hh) as (hv' & Hhv & _).
  destruct (entries_reify_assoc _ _ _ _ _ Hsd Hz) as (zv' & Hzv & _).
  (* construction *)
  set (k := List.length h).
  set (h1 := <[S k := OData (Some (VRef k))]> ((h ++ [ODict d]) ++ [OData None])).
  assert (preserves h h1) as Hp1.
  { apply preserves_insert_fresh; [|subst k; lia].
    rewrite <-app_assoc. apply preserves_app. }
  assert (instance h1 (S k) k d) as Hinst.
  { split; subst h1 k; by heap_simpl. }
  assert (Data.from_dict (VRef a) h = Ok (S k, h1)) as Hfrom.
  { unfold Data.from_dict. rewrite (unpack_ok _ _ _ Ha). cbn [rbind].
    unfold Data.new. rewrite Hkw.
    unfold Data.__init__, Data.__setattr__. cbn [alloc].
    rewrite decide_True by done.
    assert (List.length (h ++ [ODict d]) = S k) as -> by (subst k; heap_len).
    assert (((h ++ [ODict d]) ++ [OData None]) !! S k = Some (OData None)) as ->
      by (subst k; by heap_simpl).
    cbn [rbind]. fold k. fold h1.
    rewrite (set_default_values_noop h1 (S k) k d mm md ss sdh); eauto. }
  assert (reify (S (S (S n))) h1 (VRef k) = Some (TDict dt)) as Hstore.
  { apply (reify_avoiding_dict [] _ h1 k d);
      [apply not_elem_of_nil | apply Hinst | done |].
    eapply entries_reify_impl; [|done]. intros ??. by apply reify_avoiding_preserves. }
  (* conversion *)
  destruct (convert_spec (S (S (S n))) (S (S (S n))) [] h1 (VRef k) (TDict dt))
    as (r & h2 & Heq & Hp2 & Hlen & Hout); try done.
  { by apply plain_convertible. }
  rewrite (to_plain_plain _ Hplain) in Hout.
  exists (S k), h1, r, h2. split_and!; try done.
  - unfold Data.to_dict. by rewrite (self_data_ok _ _ _ (proj1 Hinst)).
  - by apply lookup_ge_None.
  - apply (reify_preserves _ h); [|done]. by eapply preserves_trans.
Qed.

Lemma round_trip_witness :
  ∃ self h1 r h2,
    Data.from_dict example_ref example_heap = Ok (self, h1) ∧
    Data.to_dict 4 self h1 = Ok (VRef r, h2) ∧
    h1 !! r = None ∧
    reify 4 h2 (VRef r) = Some example ∧ reify 4 h2 example_ref = Some example.
Proof.
  apply (round_trip 4 example_heap example_ref example
           [("size", TLeaf (VFloat 10.7)); ("height", TLeaf (VInt 11))]);
    try reflexivity.
  - by eexists.
  - by eexists.
Defined.

(** C3.  The round trip fails on a plain mapping that has a top-level key
    [self]: the mapping below has no record value and defines
    [metadata.system.height] and [metadata.system.size], and [from_dict]
    raises [TypeError] on it instead of returning an instance. *)
Lemma round_trip_fails_on_key_self :
  ∃ t sd,
    reify 4 selfkey_heap (VRef 2) = Some t ∧
    is_tdict t = true ∧ plain t = true ∧
    tree_path ["metadata"; "system"] t = Some (TDict sd) ∧
    is_Some (assoc "height" sd) ∧ is_Some (assoc "size" sd) ∧
    Data.from_dict (VRef 2) selfkey_heap = Raise TypeError.
Proof.
  eexists _, _. split; [by vm_compute|]. split; [done|]. split; [done|].
  split; [done|]. split; [by eexists|]. split; [by eexists|]. done.
Qed.

(** ** Readings and updates *)

(** A reading either avoids the object at [x] or shows that [x] itself can
    be read, with no more fuel. *)
Lemma reify_avoid_or_visit X x j h v t :
  reify_avoiding X j h v = Some t →
  reify_avoiding (x :: X) j h v = Some t ∨
  ∃ j' t', (j' ≤ j)%nat ∧ reify_avoiding X j' h (VRef x) = Some t'.
Proof.
  revert v t. induction j as [|j IH]; intros v t Hr; [done|].
  destruct v; try (by left).
  destruct (decide (a = x)) as [->|Hne]; [right; by exists (S j), t|].
  assert (∀ v t, reify_avoiding X j h v = Some t →
     reify_avoiding (x :: X) j h v = Some t ∨
     ∃ j' t', (j' ≤ S j)%nat ∧ reify_avoiding X j' h (VRef x) = Some t') as IH'.
  { intros v0 t0 H0. destruct (IH _ _ H0) as [?|(j' & t' & ? & ?)]; [by left|].
    right. exists j', t'. split; [lia | done]. }
  apply reify_avoiding_ref in Hr as [HX Hr].
  assert (a ∉ x :: X) as HX' by (by apply not_elem_of_cons).
  destruct Hr as [(d & dt & Hd & Hnd & -> & Hdt)
                 |[(sv & s & Hd & -> & Hs)|[[Hd ->]|(cv & c & Hd & -> & Hc)]]].
  - assert (Forall2 (entry_reifies (reify_avoiding (x :: X) j h)) d dt ∨
            ∃ j' t', (j' ≤ S j)%nat ∧ reify_avoiding X j' h (VRef x) = Some t')
      as [Hall|Hvisit]; [|left|by right].
    { clear Hd Hnd. induction Hdt as [|[k v] [k' t] d dt [Hk Hv] _ IHd]; [by left|].
      destruct (IH' _ _ Hv) as [Hv'|?]; [|by right].
      destruct IHd as [Hall|?]; [|by right]. left. by constructor. }
    by apply (reify_avoiding_dict _ _ _ _ d).
  - destruct (IH' _ _ Hs) as [Hs'|?]; [left|by right].
    by apply (reify_avoiding_data _ _ _ _ sv).
  - left. apply reify_avoiding_ref. split; [done|]. right. right. by left.
  - destruct (IH' _ _ Hc) as [Hc'|?]; [left|by right].
    apply reify_avoiding_ref. split; [done|]. right. right. right. by exists cv, c.
Qed.

(** The least fuel that reads a value. *)
Lemma reify_minimal X h v j t :
  reify_avoiding X j h v = Some t →
  ∃ jm, (jm ≤ j)%nat ∧ reify_avoiding X jm h v = Some t ∧
        ∀ j' t', (j' < jm)%nat → reify_avoiding X j' h v ≠ Some t'.
Proof.
  revert t. induction j as [|j IH]; intros t Hr; [done|].
  destruct (reify_avoiding X j h v) as [t0|] eqn:Hj.
  - pose proof (reify_avoiding_fuel _ _ (S j) _ _ _ Hj) as Hj'.
    rewrite Hr in Hj'. injection Hj' as ->; [|lia].
    destruct (IH _ eq_refl) as (jm & ? & ? & ?). exists jm. split_and!; [lia|done..].
  - exists (S j). split_and!; [done..|]. intros j' t' Hlt Hj'.
    apply (reify_avoiding_fuel _ _ j) in Hj'; [congruence | lia].
Qed.

(** A dictionary that can be read is not met again below its entries'
    entries: they are read without going through it. *)
Lemma grandchild_avoids ok h st d k m sub key v :
  reads [] ok h (VRef st) →
  h !! st = Some (ODict d) → dict_get k d = Some (VRef m) →
  h !! m = Some (ODict sub) → dict_get key sub = Some v →
  reads [st] ok h v.
Proof.
  intros (j & t & Hr & Hok) Hst Hk Hm Hkey.
  destruct (reify_minimal _ _ _ _ _ Hr) as (jm & _ & Hjm & Hmin).
  destruct jm as [|j1]; [done|].
  apply reify_avoiding_ref in Hjm as [_ Hjm].
  destruct Hjm as [(d' & dt & Hd' & _ & -> & Hdt)
                  |[(? & ? & ? & _)|[[? _]|(? & ? & ? & _)]]]; try congruence.
  assert (d' = d) as -> by congruence.
  destruct (entries_reify_get _ _ _ _ _ Hdt Hk) as (tm & Htm & Hrm).
  destruct j1 as [|j2]; [done|].
  apply reify_avoiding_ref in Hrm as [_ Hrm].
  destruct Hrm as [(sub' & dm & Hsub' & _ & -> & Hdm)
                  |[(? & ? & ? & _)|[[? _]|(? & ? & ? & _)]]]; try congruence.
  assert (sub' = sub) as -> by congruence.
  destruct (entries_reify_get _ _ _ _ _ Hdm Hkey) as (tv & Htv & Hrv).
  destruct (reify_avoid_or_visit [] st _ _ _ _ Hrv) as [Hav|(j' & t' & Hle & Hvis)].
  - exists j2, tv. split; [done|]. intros Hc. specialize (Hok Hc). simpl in Hok.
    rewrite forallb_forall in Hok.
    assert (convertible (TDict dm) = true) as Hcm.
    { apply (Hok (k, TDict dm)). apply list_elem_of_In.
      clear -Htm. induction dt as [|[k' x] dt IHdt]; [done|]. simpl in Htm.
      destruct (decide (k = k')) as [->|]; [injection Htm as ->; left | right; auto]. }
    simpl in Hcm. rewrite forallb_forall in Hcm.
    apply (Hcm (key, tv)). apply list_elem_of_In.
    clear -Htv. induction dm as [|[k' x] dm IHdm]; [done|]. simpl in Htv.
    destruct (decide (key = k')) as [->|]; [injection Htv as ->; left | right; auto].
  - exfalso. apply (Hmin j' t'); [lia | done].
Qed.

Lemma reads_weaken_ok X (ok ok' : Prop) h v :
  (ok' → ok) → reads X ok h v → reads X ok' h v.
Proof. intros Himp (j & t & Hr & Hok). exists j, t. auto. Qed.

Lemma reads_leaf X ok h v : (∀ a, v ≠ VRef a) → reads X ok h v.
Proof.
  intros Hv. exists 1, (TLeaf v). split; [by apply reify_avoiding_leaf | done].
Qed.

Lemma entries_reify_elem f d dt key v :
  Forall2 (entry_reifies f) d dt → (key, v) ∈ d →
  ∃ t, f v = Some t ∧ (key, t) ∈ dt.
Proof.
  induction 1 as [|[k1 v1] [k2 t1] d dt [Hk Hv] _ IH]; [by intros ?%elem_of_nil|].
  simpl in Hk, Hv. subst k2. intros [[= -> ->]|Hin]%elem_of_cons.
  - exists t1. split; [done | left].
  - destruct (IH Hin) as (t & ? & ?). exists t. split; [done | by right].
Qed.

Lemma convertible_elem (dt : list (string * tree)) key t :
  forallb (fun kt => convertible kt.2) dt = true → (key, t) ∈ dt →
  convertible t = true.
Proof.
  rewrite forallb_forall. intros Hall Hin. apply (Hall (key, t)).
  by apply list_elem_of_In.
Qed.

(** Entries that can each be read can be read with one fuel. *)
Lemma entries_collect X (ok : Prop) h (d : entries) :
  (∀ key v, (key, v) ∈ d → reads X ok h v) →
  ∃ J dt, Forall2 (entry_reifies (reify_avoiding X J h)) d dt ∧
          (ok → forallb (fun kt => convertible kt.2) dt = true).
Proof.
  induction d as [|[key v] d IH]; intros Hd.
  - exists 0, (@nil (string * tree)). split; [constructor | done].
  - destruct (Hd key v) as (j & t & Hr & Hok); [left|].
    destruct IH as (J & dt & Hall & Hokd); [intros k' ??; apply (Hd k'); by right|].
    exists (j `max` J), ((key, t) :: dt). split.
    + constructor.
      * split; [done|]. simpl. apply (reify_avoiding_fuel _ j); [done | lia].
      * eapply entries_reify_impl; [|done]. intros ???.
        apply (reify_avoiding_fuel _ J); [done | lia].
    + intros Hc. simpl. by rewrite Hok, Hokd.
Qed.

Lemma reads_dict X ok h a d :
  a ∉ X → h !! a = Some (ODict d) → NoDup d.*1 →
  (∀ key v, (key, v) ∈ d → reads X ok h v) →
  reads X ok h (VRef a).
Proof.
  intros HX Ha Hnd Hd. destruct (entries_collect _ _ _ _ Hd) as (J & dt & Hall & Hok).
  exists (S J), (TDict dt). split; [|done]. by apply (reify_avoiding_dict _ _ _ _ d).
Qed.

Lemma reify_avoiding_tdict X n h v t :
  reify_avoiding X n h v = Some t →
  is_tdict t = isinstance_dict h v.
Proof.
  destruct n as [|n]; [done|]. intros H.
  pose proof (reify_avoiding_inv _ _ _ _ _ H) as Hinv.
  destruct t as [v0|dt|s|[c|]]; simpl.
  - destruct Hinv as [-> Hv]. destruct v; try done. by destruct (Hv a).
  - destruct Hinv as (a & d & -> & _ & Ha & _). simpl. by rewrite Ha.
  - destruct Hinv as (a & sv & -> & _ & Ha & _). simpl. by rewrite Ha.
  - destruct Hinv as (a & cv & -> & _ & Ha & _). simpl. by rewrite Ha.
  - destruct Hinv as (a & -> & _ & Ha). simpl. by rewrite Ha.
Qed.

Lemma isinstance_dict_insert h x dx dx' v :
  h !! x = Some (ODict dx) →
  isinstance_dict (<[x := ODict dx']> h) v = isinstance_dict h v.
Proof.
  intros Hx. destruct v; try done. simpl.
  destruct (decide (x = a)) as [->|].
  - rewrite list_lookup_insert_eq by (by eapply lookup_lt_Some). by rewrite Hx.
  - by rewrite list_lookup_insert_ne.
Qed.

(** Changing the entries of one dictionary: every value that could be
    read can still be read, as long as the entries that are new can be
    read without going through that dictionary. *)
Lemma reads_update X (ok : Prop) h x dx dx' :
  h !! x = Some (ODict dx) → (NoDup dx.*1 → NoDup dx'.*1) →
  (∀ key v', (key, v') ∈ dx' → (key, v') ∈ dx ∨ reads (x :: X) ok h v') →
  ∀ v, reads X ok h v → reads X ok (<[x := ODict dx']> h) v.
Proof.
  intros Hx Hnd Hnew v (j & t & Hr & Hok).
  set (h' := <[x := ODict dx']> h).
  assert (x < List.length h)%nat as Hlx by (by eapply lookup_lt_Some).
  cut (∀ (ok' : Prop) v t,
         reify_avoiding X j h v = Some t → (ok' → convertible t = true) →
         (ok' → ok) → reads X ok' h' v).
  { intros Hmain. by apply (Hmain ok v t). }
  clear v t Hr Hok.
  induction j as [|j IH]; intros ok' v t Hr Hok Himp; [done|].
  destruct v; try (apply reads_leaf; by intros ?).
  apply reify_avoiding_ref in Hr as [HX Hr].
  destruct Hr as [(d & dt & Hd & Hndd & -> & Hdt)
                 |[(sv & s & Hd & -> & Hs)|[[Hd ->]|(cv & c & Hd & -> & Hc)]]].
  - assert (∀ key v, (key, v) ∈ d → reads X ok' h' v) as Hold.
    { intros key v Hin. destruct (entries_reify_elem _ _ _ _ _ Hdt Hin) as (tv & Hv & Htv).
      apply (IH ok' v tv); [done| |done]. intros Hc. specialize (Hok Hc).
      by eapply convertible_elem. }
    destruct (decide (a = x)) as [->|Hne].
    + assert (d = dx) as -> by congruence.
      apply (reads_dict _ _ _ _ dx'); [done|subst h'; by heap_simpl|by apply Hnd|].
      intros key v Hin. destruct (Hnew _ _ Hin) as [Hin'|Hv]; [by apply (Hold key)|].
      destruct (reads_weaken_ok _ _ ok' _ _ Himp Hv) as (j' & t' & Hr' & Hok').
      exists j', t'. split; [|done].
      apply (reify_avoiding_weaken (x :: X)); [intros ??; by right|].
      apply reify_avoiding_insert; [left | done].
    + apply (reads_dict _ _ _ _ d); [done|subst h'; by heap_simpl|done|done].
  - assert (a ≠ x) as Hne by (intros ->; congruence).
    destruct (IH ok' sv s Hs) as (j' & s' & Hs' & Hok'); [|done|].
    { intros Hc. specialize (Hok Hc). simpl in Hok. by apply andb_prop in Hok as [_ ?]. }
    exists (S j'), (TData s'). split.
    + apply (reify_avoiding_data _ _ _ _ sv); [done|subst h'; by heap_simpl|done].
    + intros Hc. simpl. rewrite (Hok' Hc), andb_true_r.
      specialize (Hok Hc). simpl in Hok. apply andb_prop in Hok as [Hsd _].
      rewrite (reify_avoiding_tdict _ _ _ _ _ Hs'). subst h'.
      rewrite (isinstance_dict_insert _ _ _ _ _ Hx).
      by rewrite <-(reify_avoiding_tdict _ _ _ _ _ Hs).
  - assert (a ≠ x) as Hne by (intros ->; congruence).
    exists 1, (TRecord None). split; [|done].
    apply reify_avoiding_ref. split; [done|]. right. right. left.
    split; [subst h'; by heap_simpl | done].
  - assert (a ≠ x) as Hne by (intros ->; congruence).
    destruct (IH False cv c Hc) as (j' & c' & Hc' & _); [done..|].
    exists (S j'), (TRecord (Some c')). split; [|done].
    apply reify_avoiding_ref. split; [done|]. right. right. right.
    exists cv, c'. split_and!; [subst h'; by heap_simpl | done..].
Qed.

(** ** The constructor on a mapping without [metadata.system] *)

Lemma lookup_at (h l : heap) i a o :
  a = (List.length h + i)%nat → l !! i = Some o → (h ++ l) !! a = Some o.
Proof.
  intros -> Hi. rewrite lookup_app_r by lia.
  by replace (List.length h + i - List.length h)%nat with i by lia.
Qed.

Lemma insert_at (h l : heap) i a o :
  a = (List.length h + i)%nat → <[a := o]> (h ++ l) = h ++ <[i := o]> l.
Proof. intros ->. apply insert_app_r. Qed.

Ltac hlook i := apply (lookup_at _ _ i); [simpl; lia | reflexivity].

(** The part of [_set_default_values] that follows the reading of
    [metadata], when that mapping has no [system]. *)
Lemma ensure_system_fresh h mm md :
  h !! mm = Some (ODict md) → dict_get "system" md = None →
  (do present <- py_contains "system" (VRef mm) h ;
   do h0 <- (if present : bool then Ok h
             else py_setitem (VRef mm) "system" (VRef (List.length h))
                    (h ++ [ODict []])) ;
   do system <- py_getitem (VRef mm) "system" h0 ;
   do h1 <- py_setdefault system "height" (VInt 100) h0 ;
   py_setdefault system "size" (VInt 10) h1)
  = Ok (<[mm := ODict (md ++ [("system", VRef (List.length h))])]>
          (h ++ [ODict [("height", VInt 100); ("size", VInt 10)]])).
Proof.
  intros Hmm Hsys.
  assert (mm < List.length h)%nat as Hl by (by eapply lookup_lt_Some).
  rewrite (contains_ok _ _ _ _ Hmm), Hsys, bool_decide_false by (by intros [? ?]).
  cbn [rbind]. set (s := List.length h). set (h1 := h ++ [ODict []]).
  assert (h1 !! mm = Some (ODict md)) as Hmm1 by (subst h1; by heap_simpl).
  rewrite (setitem_ok _ _ _ _ _ Hmm1), (dict_set_fresh _ _ _ Hsys). cbn [rbind].
  set (h2 := <[mm := _]> h1).
  assert (h2 !! mm = Some (ODict (md ++ [("system", VRef s)]))) as Hmm2
    by (subst h2 h1; by heap_simpl).
  rewrite (getitem_ok _ _ _ _ (VRef s) Hmm2).
  2:{ by rewrite dict_get_app, Hsys. }
  cbn [rbind].
  assert (h2 !! s = Some (ODict [])) as Hs2 by (subst h2 h1 s; by heap_simpl).
  rewrite (setdefault_ok _ _ _ _ _ Hs2). cbn [rbind].
  set (h3 := <[s := _]> h2).
  assert (h3 !! s = Some (ODict [("height", VInt 100)])) as Hs3
    by (subst h3 h2 h1 s; by heap_simpl).
  rewrite (setdefault_ok _ _ _ _ _ Hs3). f_equal.
  subst h3 h2 h1. rewrite list_insert_insert_eq.
  rewrite list_insert_insert_ne by (subst s; lia).
  by rewrite (insert_at _ _ 0) by (subst s; lia).
Qed.

(** The constructor on a mapping without [metadata]: four new objects. *)
Lemma new_without_metadata h sub :
  dict_get "self" sub = None → dict_get "metadata" sub = None →
  Data.new sub h =
  Ok (S (List.length h),
      h ++ [ODict (sub ++ [("metadata", VRef (2 + List.length h))]);
            OData (Some (VRef (List.length h)));
            ODict [("system", VRef (3 + List.length h))];
            ODict [("height", VInt 100); ("size", VInt 10)]]).
Proof.
  intros Hkw Hmeta. unfold Data.new. rewrite Hkw.
  unfold Data.__init__, Data.__setattr__. cbn [alloc].
  rewrite decide_True by done.
  set (k := List.length h).
  rewrite <-!app_assoc. cbn [app].
  assert (List.length (h ++ [ODict sub]) = S k) as -> by (subst k; heap_len).
  assert ((h ++ [ODict sub; OData None]) !! S k = Some (OData None)) as ->
    by (subst k; hlook 1).
  cbn [rbind]. rewrite (insert_at _ _ 1) by (subst k; lia). cbn [insert list_insert].
  unfold Data._set_default_values.
  set (h1 := h ++ _).
  assert (h1 !! S k = Some (OData (Some (VRef k)))) as Hw by (subst h1 k; hlook 1).
  assert (h1 !! k = Some (ODict sub)) as Hk by (subst h1 k; hlook 0).
  rewrite (self_data_ok _ _ _ Hw). cbn [rbind].
  rewrite (contains_ok _ _ _ _ Hk), Hmeta, bool_decide_false by (by intros [? ?]).
  cbn [rbind alloc].
  assert (List.length h1 = 2 + k)%nat as -> by (subst h1 k; heap_len).
  subst h1. rewrite <-!app_assoc. cbn [app]. set (h2 := h ++ _).
  assert (h2 !! S k = Some (OData (Some (VRef k)))) as Hw2 by (subst h2 k; hlook 1).
  assert (h2 !! k = Some (ODict sub)) as Hk2 by (subst h2 k; hlook 0).
  rewrite (self_data_ok _ _ _ Hw2). cbn [rbind].
  rewrite (setitem_ok _ _ _ _ _ Hk2). cbn [rbind].
  subst h2. rewrite (insert_at _ _ 0) by (subst k; lia). cbn [insert list_insert].
  rewrite (dict_set_fresh _ _ _ Hmeta).
  set (h3 := h ++ _).
  assert (h3 !! S k = Some (OData (Some (VRef k)))) as Hw3 by (subst h3 k; hlook 1).
  assert (h3 !! k = Some (ODict (sub ++ [("metadata", VRef (2 + k))]))) as Hk3
    by (subst h3 k; hlook 0).
  assert (h3 !! (2 + k)%nat = Some (ODict [])) as Hm3 by (subst h3 k; hlook 2).
  rewrite (self_data_ok _ _ _ Hw3). cbn [rbind].
  rewrite (getitem_ok _ _ _ _ (VRef (2 + k)) Hk3).
  2:{ by rewrite dict_get_app, Hmeta. }
  cbn [rbind]. rewrite (ensure_system_fresh _ _ _ Hm3 eq_refl). cbn [rbind].
  assert (List.length h3 = 3 + k)%nat as -> by (subst h3 k; heap_len).
  subst h3. rewrite <-!app_assoc. cbn [app].
  by rewrite (insert_at _ _ 2) by (subst k; lia).
Qed.

(** The constructor on a mapping whose [metadata] has no [system]: three
    new objects, and [metadata] gains the entry. *)
Lemma new_without_system h sub mm md :
  dict_get "self" sub = None →
  dict_get "metadata" sub = Some (VRef mm) → h !! mm = Some (ODict md) →
  dict_get "system" md = None →
  Data.new sub h =
  Ok (S (List.length h),
      <[mm := ODict (md ++ [("system", VRef (2 + List.length h))])]>
        (h ++ [ODict sub; OData (Some (VRef (List.length h)));
               ODict [("height", VInt 100); ("size", VInt 10)]])).
Proof.
  intros Hkw Hmeta Hmm Hsys. unfold Data.new. rewrite Hkw.
  unfold Data.__init__, Data.__setattr__.
  cbn [alloc]. rewrite decide_True by done.
  assert (mm < List.length h)%nat as Hl by (by eapply lookup_lt_Some).
  set (k := List.length h) in *.
  rewrite <-!app_assoc. cbn [app].
  assert (List.length (h ++ [ODict sub]) = S k) as -> by (subst k; heap_len).
  assert ((h ++ [ODict sub; OData None]) !! S k = Some (OData None)) as ->
    by (subst k; hlook 1).
  cbn [rbind]. rewrite (insert_at _ _ 1) by (subst k; lia). cbn [insert list_insert].
  unfold Data._set_default_values.
  set (h1 := h ++ _).
  assert (h1 !! S k = Some (OData (Some (VRef k)))) as Hw by (subst h1 k; hlook 1).
  assert (h1 !! k = Some (ODict sub)) as Hk by (subst h1 k; hlook 0).
  assert (h1 !! mm = Some (ODict md)) as Hmm1 by (subst h1; by heap_simpl).
  rewrite (self_data_ok _ _ _ Hw). cbn [rbind].
  rewrite (contains_ok _ _ _ _ Hk), Hmeta, bool_decide_true by eauto.
  cbn [rbind].
  rewrite (self_data_ok _ _ _ Hw). cbn [rbind].
  rewrite (getitem_ok _ _ _ _ _ Hk Hmeta). cbn [rbind alloc].
  rewrite (ensure_system_fresh _ _ _ Hmm1 Hsys). cbn [rbind].
  assert (List.length h1 = 2 + k)%nat as -> by (subst h1 k; heap_len).
  subst h1. by rewrite <-!app_assoc.
Qed.

(** ** Reading an attribute, then converting *)

Lemma dict_set_elem k v d key v' :
  (key, v') ∈ dict_set k v d → (key, v') ∈ d ∨ (key, v') = (k, v).
Proof.
  induction d as [|[k0 v0] d IH]; simpl.
  - intros ->%list_elem_of_singleton. by right.
  - destruct (decide (k = k0)) as [->|].
    + intros [->|Hin]%elem_of_cons; [by right | left; by right].
    + intros [->|Hin]%elem_of_cons; [left; left|].
      destruct (IH Hin) as [?|?]; [left; by right | by right].
Qed.

Lemma elem_dict_get key v d : NoDup d.*1 → (key, v) ∈ d → dict_get key d = Some v.
Proof.
  induction d as [|[k0 v0] d IH]; [by intros _ ?%elem_of_nil|].
  csimpl. intros [Hk0 Hnd]%NoDup_cons [[= -> ->]|Hin]%elem_of_cons.
  - by rewrite decide_True.
  - rewrite decide_False; [auto|]. intros ->. apply Hk0.
    apply list_elem_of_fmap. by exists (k0, v).
Qed.

Lemma reads_preserves X ok h h' v :
  preserves h h' → reads X ok h v → reads X ok h' v.
Proof.
  intros Hp (j & t & Hr & Hok). exists j, t. split; [|done].
  by eapply reify_avoiding_preserves.
Qed.

Lemma reads_data X (ok : Prop) h a sv :
  a ∉ X → h !! a = Some (OData (Some sv)) → isinstance_dict h sv = true →
  reads X ok h sv → reads X ok h (VRef a).
Proof.
  intros HX Ha Hd (j & s & Hs & Hok). exists (S j), (TData s). split.
  - by apply (reify_avoiding_data _ _ _ _ sv).
  - intros Hc. simpl. by rewrite (Hok Hc), (reify_avoiding_tdict _ _ _ _ _ Hs), Hd.
Qed.

(** The dictionary of the two defaults can be read. *)
Lemma reads_defaults X ok h s :
  s ∉ X → h !! s = Some (ODict [("height", VInt 100); ("size", VInt 10)]) →
  reads X ok h (VRef s).
Proof.
  intros HX Hs. apply (reads_dict _ _ _ _ _ HX Hs).
  - by apply (bool_decide_unpack _).
  - intros key v Hin. apply reads_leaf. intros a ->.
    repeat (apply elem_of_cons in Hin as [[=]|Hin]). by apply elem_of_nil in Hin.
Qed.

(** A path of keys is followed in the plain form as in the tree. *)
Lemma tree_path_to_plain p t x :
  tree_path p t = Some x → tree_path p (to_plain t) = Some (to_plain x).
Proof.
  revert t. induction p as [|k p IH]; intros t; simpl.
  - by intros [= ->].
  - destruct t as [|dt| |]; try done. simpl. rewrite assoc_map_snd.
    destruct (assoc k dt) as [t'|]; [|done]. simpl. apply IH.
Qed.

(** A path of keys on the heap is a path in the tree that is read. *)
Lemma reify_lookup_path j h p v t x :
  reify j h v = Some t → lookup_path h p v = Some x → (∀ a, x ≠ VRef a) →
  tree_path p t = Some (TLeaf x).
Proof.
  revert j v t. induction p as [|k p IH]; intros j v t Hr Hp Hx.
  - simpl in Hp. injection Hp as ->. destruct j as [|j]; [done|].
    unfold reify in Hr.
    rewrite (reify_avoiding_leaf [] j h x Hx) in Hr. by injection Hr as <-.
  - simpl in Hp. destruct v; try done.
    destruct (h !! a) as [[d| |]|] eqn:Ha; try done.
    destruct (dict_get k d) as [v'|] eqn:Hk; [|done]. simpl in Hp.
    destruct j as [|j]; [done|].
    apply reify_avoiding_ref in Hr as [_ Hr].
    destruct Hr as [(d' & dt & Hd' & _ & -> & Hdt)
                   |[(? & ? & ? & _)|[[? _]|(? & ? & ? & _)]]]; try congruence.
    assert (d' = d) as -> by congruence.
    destruct (entries_reify_get _ _ _ _ _ Hdt Hk) as (t' & Ht' & Hr').
    simpl. rewrite Ht'. simpl. by apply (IH j v').
Qed.

(** The first read of a key that holds a plain dictionary, given what the
    constructor returns on that dictionary. *)
Lemma getattr_materialize n h self st d k m sub w h' d' :
  instance h self st d → dict_get k d = Some (VRef m) →
  h !! m = Some (ODict sub) → Data.new sub h = Ok (w, h') →
  instance h' self st d' →
  Data.__getattr__ n self k h
  = Ok (VRef w, <[st := ODict (dict_set k (VRef w) d')]> h').
Proof.
  intros [Hself Hst] Hk Hm Hnew [Hself' Hst'].
  assert (self ≠ st) as Hne by (intros ->; congruence).
  assert (st < List.length h')%nat as Hlst' by (by eapply lookup_lt_Some).
  unfold Data.__getattr__.
  rewrite (self_data_ok _ _ _ Hself). cbn [rbind].
  rewrite (contains_ok _ _ _ _ Hst), bool_decide_true by eauto. cbn [rbind].
  rewrite (getitem_ok _ _ _ _ _ Hst Hk). cbn [rbind].
  simpl isinstance_dict. rewrite Hm. rewrite (unpack_ok _ _ _ Hm). cbn [rbind].
  rewrite Hnew. cbn [rbind].
  rewrite (self_data_ok _ _ _ Hself'). cbn [rbind].
  rewrite (setitem_ok _ _ _ _ _ Hst'). cbn [rbind].
  set (h1 := <[st := _]> h').
  assert (h1 !! self = Some (OData (Some (VRef st)))) as Hself1
    by (subst h1; by heap_simpl).
  assert (h1 !! st = Some (ODict (dict_set k (VRef w) d'))) as Hst1
    by (subst h1; by heap_simpl).
  rewrite (self_data_ok _ _ _ Hself1). cbn [rbind].
  by rewrite (getitem_ok _ _ _ _ _ Hst1 (dict_get_set_eq _ _ _)).
Qed.

Lemma lacks_system_cases h sub :
  lacks_system h sub = true →
  dict_get "metadata" sub = None ∨
  ∃ mm md, dict_get "metadata" sub = Some (VRef mm) ∧
           h !! mm = Some (ODict md) ∧ dict_get "system" md = None.
Proof.
  unfold lacks_system. destruct (dict_get "metadata" sub) as [mv|]; [|by left].
  destruct mv as [| | | | | | |mm]; try done.
  destruct (h !! mm) as [[md| |]|] eqn:Hmm; try done.
  destruct (dict_get "system" md) eqn:Hsys; [done|]. right. by exists mm, md.
Qed.

Lemma reads_data_inv X (ok : Prop) h a sv :
  reads X ok h (VRef a) → h !! a = Some (OData (Some sv)) → reads X ok h sv.
Proof.
  intros (j & t & Hr & Hok) Ha. destruct j as [|j]; [done|].
  apply reify_avoiding_ref in Hr as [_ Hr].
  destruct Hr as [(? & ? & ? & _)
                 |[(sv' & s & Hd & -> & Hs)|[[? _]|(? & ? & ? & _)]]]; try congruence.
  assert (sv' = sv) as -> by congruence. exists j, s. split; [done|].
  intros Hc. specialize (Hok Hc). simpl in Hok. by apply andb_prop in Hok as [_ ?].
Qed.

Lemma reads_dict_inv X (ok : Prop) h a d :
  reads X ok h (VRef a) → h !! a = Some (ODict d) →
  NoDup d.*1 ∧ ∀ key v, dict_get key d = Some v → reads X ok h v.
Proof.
  intros (j & t & Hr & Hok) Ha. destruct j as [|j]; [done|].
  apply reify_avoiding_ref in Hr as [_ Hr].
  destruct Hr as [(d' & dt & Hd' & Hnd & -> & Hdt)
                 |[(? & ? & ? & _)|[[? _]|(? & ? & ? & _)]]]; try congruence.
  assert (d' = d) as -> by congruence. split; [done|].
  intros key v Hkey. destruct (entries_reify_get _ _ _ _ _ Hdt Hkey) as (tv & Htv & Hrv).
  exists j, tv. split; [done|]. intros Hc. specialize (Hok Hc). simpl in Hok.
  apply (convertible_elem dt key); [done|].
  clear -Htv. induction dt as [|[k' x] dt IHdt]; [done|]. simpl in Htv.
  destruct (decide (key = k')) as [->|]; [injection Htv as ->; left | right; auto].
Qed.

Lemma reads_avoided X ok h x : ¬ reads (x :: X) ok h (VRef x).
Proof.
  intros (j & t & Hr & _). destruct j as [|j]; [done|].
  apply reify_avoiding_ref in Hr as [Hx _]. apply Hx. left.
Qed.

Lemma lookup_path_step h a d k v p x :
  h !! a = Some (ODict d) → dict_get k d = Some v →
  lookup_path h p v = x → lookup_path h (k :: p) (VRef a) = x.
Proof. intros Ha Hk Hp. simpl. by rewrite Ha, Hk. Qed.

(** The state after the first read of a key that holds a dictionary
    without [metadata.system]: the instance can still be read, the store
    holds a wrapper under the key, and the store of the wrapper leads to
    the two defaults. *)
Lemma read_then_reads h self st d k m sub :
  instance h self st d → reads [] True h (VRef self) →
  dict_get k d = Some (VRef m) → h !! m = Some (ODict sub) →
  dict_get "self" sub = None → lacks_system h sub = true →
  ∃ w kw h1,
    (∀ n, Data.__getattr__ n self k h = Ok (VRef w, h1)) ∧
    reads [] True h1 (VRef self) ∧
    h1 !! self = Some (OData (Some (VRef st))) ∧ has h1 st k (VRef w) ∧
    h1 !! w = Some (OData (Some (VRef kw))) ∧
    lookup_path h1 ["metadata"; "system"; "height"] (VRef kw)
      = Some (VInt 100) ∧
    lookup_path h1 ["metadata"; "system"; "size"] (VRef kw)
      = Some (VInt 10).
Proof.
  intros Hinst Hreads Hk Hm Hnoself Hlacks. pose proof Hinst as [Hself Hst].
  assert (self ≠ st) as Hne by (intros ->; congruence).
  assert (st < List.length h)%nat as Hlst by (by eapply lookup_lt_Some).
  assert (self < List.length h)%nat as Hlself by (by eapply lookup_lt_Some).
  pose proof (reads_data_inv _ _ _ _ _ Hreads Hself) as Hrst.
  destruct (reads_dict_inv _ _ _ _ _ Hrst Hst) as [Hndd Hchildren].
  destruct (reads_dict_inv _ _ _ _ _ (Hchildren _ _ Hk) Hm) as [Hnds _].
  assert (∀ key v, dict_get key sub = Some v → reads [st] True h v) as Hgrand.
  { intros key v Hkey. by apply (grandchild_avoids True h st d k m sub key). }
  set (k0 := List.length h) in *.
  assert (∀ h', instance h' self st d → reads [] True h' (VRef self) →
     reads [st] True h' (VRef (S k0)) →
     reads [] True (<[st := ODict (dict_set k (VRef (S k0)) d)]> h') (VRef self))
    as Hfinal.
  { intros h' [Hself' Hst'] Hr' Hw'. apply (reads_update [] True h' st d); try done.
    - intros _. by apply dict_set_NoDup.
    - intros key v' [Hin|[= -> ->]]%dict_set_elem; [by left | by right]. }
  destruct (lacks_system_cases _ _ Hlacks)
    as [Hmeta|(mm & md & Hmeta & Hmm & Hsys)].
  - (* no [metadata]: the four objects are new *)
    pose proof (new_without_metadata h sub Hnoself Hmeta) as Hnew. fold k0 in Hnew.
    set (h' := h ++ _) in Hnew.
    assert (preserves h h') as Hp by apply preserves_app.
    assert (instance h' self st d) as Hinst' by (split; by apply Hp).
    assert (h' !! k0 = Some (ODict (sub ++ [("metadata", VRef (2 + k0))]))) as Hkw
      by (subst h' k0; hlook 0).
    assert (h' !! S k0 = Some (OData (Some (VRef k0)))) as Hw by (subst h' k0; hlook 1).
    assert (h' !! (2 + k0)%nat = Some (ODict [("system", VRef (3 + k0))])) as Hm0
      by (subst h' k0; hlook 2).
    assert (h' !! (3 + k0)%nat
            = Some (ODict [("height", VInt 100); ("size", VInt 10)])) as Hs0
      by (subst h' k0; hlook 3).
    assert (∀ a, (k0 ≤ a)%nat → a ∉ [st]) as Hfresh.
    { intros a Ha ->%list_elem_of_singleton. lia. }
    assert (reads [st] True h' (VRef (S k0))) as Hrw.
    { apply (reads_data _ _ _ _ (VRef k0)); [apply Hfresh; lia | done | |].
      { simpl. by rewrite Hkw. }
      apply (reads_dict _ _ _ _ _ (Hfresh _ (Nat.le_refl _)) Hkw).
      - rewrite fmap_app. apply NoDup_app. split_and!; [done| |by apply NoDup_singleton].
        intros x Hx ->%list_elem_of_singleton. by apply dict_get_None in Hmeta.
      - intros key v [Hin|[= -> ->]%list_elem_of_singleton]%elem_of_app.
        + apply (reads_preserves _ _ h); [done|]. apply (Hgrand key).
          by apply elem_dict_get.
        + apply (reads_dict _ _ _ _ [("system", VRef (3 + k0))]);
            [apply Hfresh; lia | done | by apply NoDup_singleton |].
          intros key v [= -> ->]%list_elem_of_singleton.
          apply reads_defaults; [apply Hfresh; lia | done]. }
    exists (S k0), k0, (<[st := ODict (dict_set k (VRef (S k0)) d)]> h').
    split_and!.
    + intros n. by apply (getattr_materialize n h self st d k m sub).
    + apply Hfinal; [done | by apply (reads_preserves _ _ h) | done].
    + rewrite list_lookup_insert_ne by done. apply Hinst'.
    + eexists. split; [|apply dict_get_set_eq].
      apply list_lookup_insert_eq. by eapply lookup_lt_Some, Hinst'.
    + by rewrite list_lookup_insert_ne by lia.
    + eapply lookup_path_step;
        [by rewrite list_lookup_insert_ne by lia | by rewrite dict_get_app, Hmeta |].
      eapply lookup_path_step; [by rewrite list_lookup_insert_ne by lia | done |].
      eapply lookup_path_step; [by rewrite list_lookup_insert_ne by lia | done |].
      done.
    + eapply lookup_path_step;
        [by rewrite list_lookup_insert_ne by lia | by rewrite dict_get_app, Hmeta |].
      eapply lookup_path_step; [by rewrite list_lookup_insert_ne by lia | done |].
      eapply lookup_path_step; [by rewrite list_lookup_insert_ne by lia | done |].
      done.
  - (* [metadata] without [system]: three new objects, one new entry *)
    pose proof (new_without_system h sub mm md Hnoself Hmeta Hmm Hsys) as Hnew.
    fold k0 in Hnew. set (hB := h ++ _) in Hnew. set (h' := <[mm := _]> hB) in Hnew.
    assert (mm < List.length h)%nat as Hlmm by (by eapply lookup_lt_Some).
    assert (mm ≠ st) as Hmst.
    { intros ->. by apply (reads_avoided [] True h st), (Hgrand "metadata"). }
    assert (mm ≠ self) as Hmself by (intros ->; congruence).
    assert (preserves h hB) as Hp by apply preserves_app.
    assert (hB !! k0 = Some (ODict sub)) as Hkw by (subst hB k0; hlook 0).
    assert (hB !! S k0 = Some (OData (Some (VRef k0)))) as Hw by (subst hB k0; hlook 1).
    assert (hB !! (2 + k0)%nat
            = Some (ODict [("height", VInt 100); ("size", VInt 10)])) as Hs0
      by (subst hB k0; hlook 2).
    assert (∀ X v, (2 + k0)%nat ∉ X → reads X True h v → reads X True h' v) as Hmove.
    { intros X v HX Hv.
      apply (reads_update X True hB mm md); [by apply Hp| | |by apply (reads_preserves _ _ h)].
      - intros Hnd. rewrite fmap_app. apply NoDup_app.
        split_and!; [done| |by apply NoDup_singleton].
        intros x Hx ->%list_elem_of_singleton. by apply dict_get_None in Hsys.
      - intros key v' [Hin|[= -> ->]%list_elem_of_singleton]%elem_of_app; [by left|].
        right. apply reads_defaults; [|done].
        apply not_elem_of_cons. split; [lia | done]. }
    assert (instance h' self st d) as Hinst'.
    { split; subst h'; rewrite list_lookup_insert_ne by done; by apply Hp. }
    assert (h' !! k0 = Some (ODict sub)) as Hkw'
      by (subst h'; by rewrite list_lookup_insert_ne by lia).
    assert (h' !! S k0 = Some (OData (Some (VRef k0)))) as Hw'
      by (subst h'; by rewrite list_lookup_insert_ne by lia).
    assert (h' !! mm = Some (ODict (md ++ [("system", VRef (2 + k0))]))) as Hmm'.
    { subst h'. apply list_lookup_insert_eq. by eapply lookup_lt_Some, Hp. }
    assert (h' !! (2 + k0)%nat
            = Some (ODict [("height", VInt 100); ("size", VInt 10)])) as Hs0'
      by (subst h'; by rewrite list_lookup_insert_ne by lia).
    assert (∀ a, (k0 ≤ a)%nat → a ∉ [st]) as Hfresh.
    { intros a Ha ->%list_elem_of_singleton. lia. }
    assert (reads [st] True h' (VRef (S k0))) as Hrw.
    { apply (reads_data _ _ _ _ (VRef k0)); [apply Hfresh; lia | done | |].
      { simpl. by rewrite Hkw'. }
      apply (reads_dict _ _ _ _ _ (Hfresh _ (Nat.le_refl _)) Hkw' Hnds).
      intros key v Hin. apply Hmove; [apply Hfresh; lia|].
      apply (Hgrand key). by apply elem_dict_get. }
    exists (S k0), k0, (<[st := ODict (dict_set k (VRef (S k0)) d)]> h').
    split_and!.
    + intros n. by apply (getattr_materialize n h self st d k m sub).
    + apply Hfinal; [done | | done]. apply Hmove; [apply not_elem_of_nil | done].
    + rewrite list_lookup_insert_ne by done. apply Hinst'.
    + eexists. split; [|apply dict_get_set_eq].
      apply list_lookup_insert_eq. by eapply lookup_lt_Some, Hinst'.
    + by rewrite list_lookup_insert_ne by lia.
    + eapply lookup_path_step; [by rewrite list_lookup_insert_ne by lia | done |].
      eapply lookup_path_step;
        [by rewrite list_lookup_insert_ne by done | by rewrite dict_get_app, Hsys |].
      eapply lookup_path_step; [by rewrite list_lookup_insert_ne by lia | done |].
      done.
    + eapply lookup_path_step; [by rewrite list_lookup_insert_ne by lia | done |].
      eapply lookup_path_step;
        [by rewrite list_lookup_insert_ne by done | by rewrite dict_get_app, Hsys |].
      eapply lookup_path_step; [by rewrite list_lookup_insert_ne by lia | done |].
      done.
Qed.

(** Before the read: the plain form has no [metadata.system] under the
    key. *)
Lemma plain_lacks_system j h m sub tm :
  h !! m = Some (ODict sub) → lacks_system h sub = true →
  reify j h (VRef m) = Some tm →
  tree_path ["metadata"; "system"] (to_plain tm) = None.
Proof.
  intros Hm Hlacks Hr. destruct j as [|j]; [done|].
  apply reify_avoiding_ref in Hr as [_ Hr].
  destruct Hr as [(sub' & dsub & Hsub' & _ & -> & Hdsub)
                 |[(? & ? & ? & _)|[[? _]|(? & ? & ? & _)]]]; try congruence.
  assert (sub' = sub) as -> by congruence.
  pose proof (entries_reify_lookup _ _ _ "metadata" Hdsub) as Hl.
  simpl. rewrite assoc_map_snd.
  destruct (lacks_system_cases _ _ Hlacks)
    as [Hmeta|(mm & md & Hmeta & Hmm & Hsys)]; rewrite Hmeta in Hl.
  - by destruct (assoc "metadata" dsub).
  - destruct (assoc "metadata" dsub) as [tmm|]; [|done]. simpl.
    destruct j as [|j]; [done|].
    apply reify_avoiding_ref in Hl as [_ Hl].
    destruct Hl as [(md' & dmd & Hmd' & _ & -> & Hdmd)
                   |[(? & ? & ? & _)|[[? _]|(? & ? & ? & _)]]]; try congruence.
    assert (md' = md) as -> by congruence.
    pose proof (entries_reify_lookup _ _ _ "system" Hdmd) as Hl2.
    rewrite Hsys in Hl2. simpl. rewrite assoc_map_snd.
    by destruct (assoc "system" dmd).
Qed.

(** X24.  Take an instance whose store denotes a nested mapping that
    [to_dict] can convert, and a top-level key that holds a plain
    dictionary with no key [self] and without [metadata.system]: without
    [metadata], or with a [metadata] dictionary that has no [system].  Before the key is read,
    [to_dict] returns a mapping with no [metadata.system] under the key.
    Reading the key returns a wrapper, and with enough fuel [to_dict] then
    returns a mapping that has, under the key, [metadata.system.height]
    100 and [metadata.system.size] 10: the read alone has changed what
    [to_dict] returns. *)
Theorem read_injects_defaults n h self st d t k m sub :
  instance h self st d → reify n h (VRef self) = Some t →
  convertible t = true →
  dict_get k d = Some (VRef m) → h !! m = Some (ODict sub) →
  dict_get "self" sub = None → lacks_system h sub = true →
  (∃ r0 h0 t0,
     Data.to_dict n self h = Ok (VRef r0, h0) ∧
     reify n h0 (VRef r0) = Some t0 ∧
     tree_path [k; "metadata"; "system"] t0 = None) ∧
  ∃ w h1,
    Data.__getattr__ n self k h = Ok (VRef w, h1) ∧
    ∃ N r h2 t2,
      Data.to_dict N self h1 = Ok (VRef r, h2) ∧
      reify N h2 (VRef r) = Some t2 ∧
      tree_path [k; "metadata"; "system"; "height"] t2
        = Some (TLeaf (VInt 100)) ∧
      tree_path [k; "metadata"; "system"; "size"] t2
        = Some (TLeaf (VInt 10)).
Proof.
  intros Hinst Hr Hconv Hk Hm Hnoself Hlacks.
  pose proof Hinst as [Hself Hst]. split.
  - destruct n as [|n]; [done|]. pose proof Hr as Hr0.
    apply reify_avoiding_ref in Hr0 as [_ Hr0].
    destruct Hr0 as [(? & ? & ? & _)
                    |[(sv & ts & Hd & -> & Hs)|[[? _]|(? & ? & ? & _)]]];
      try congruence.
    assert (sv = VRef st) as -> by congruence.
    destruct (to_dict_spec _ _ _ _ Hr Hconv) as (r0 & h0 & Heq & _ & _ & Hout & _).
    exists r0, h0, (to_plain ts). split_and!; [done..|].
    destruct n as [|n]; [done|].
    apply reify_avoiding_ref in Hs as [_ Hs].
    destruct Hs as [(d' & dt & Hd' & _ & -> & Hdt)
                   |[(? & ? & ? & _)|[[? _]|(? & ? & ? & _)]]]; try congruence.
    assert (d' = d) as -> by congruence.
    destruct (entries_reify_get _ _ _ _ _ Hdt Hk) as (tm & Htm & Hrm).
    change (tree_path [k; "metadata"; "system"] (to_plain (TDict dt)))
      with (tree_get k (to_plain (TDict dt)) ≫= tree_path ["metadata"; "system"]).
    simpl tree_get. rewrite assoc_map_snd, Htm. simpl mbind.
    by apply (plain_lacks_system n h m sub).
  - assert (reads [] True h (VRef self)) as Hreads by (by exists n, t).
    destruct (read_then_reads _ _ _ _ _ _ _ Hinst Hreads Hk Hm Hnoself Hlacks)
      as (w & kw & h1 & Hget & (N & t1 & Hr1 & Hc1) & Hself1 & (d1 & Hst1 & Hk1)
          & Hw1 & Hheight & Hsize).
    exists w, h1. split; [done|]. specialize (Hc1 I).
    destruct N as [|N]; [done|]. pose proof Hr1 as Hr1'.
    apply reify_avoiding_ref in Hr1' as [_ Hr1'].
    destruct Hr1' as [(? & ? & ? & _)
                     |[(sv & ts & Hd & -> & Hs)|[[? _]|(? & ? & ? & _)]]];
      try congruence.
    assert (sv = VRef st) as -> by congruence.
    destruct (to_dict_spec _ _ _ _ Hr1 Hc1) as (r & h2 & Heq & _ & _ & Hout & _).
    exists (S N), r, h2, (to_plain ts). split_and!; [done..| |].
    all: destruct N as [|N]; [done|].
    all: apply reify_avoiding_ref in Hs as [_ Hs].
    all: destruct Hs as [(d' & dt & Hd' & _ & -> & Hdt)
                   |[(? & ? & ? & _)|[[? _]|(? & ? & ? & _)]]]; try congruence.
    all: assert (d' = d1) as -> by congruence.
    all: destruct (entries_reify_get _ _ _ _ _ Hdt Hk1) as (tw & Htw & Hrw).
    all: destruct N as [|N]; [done|].
    all: apply reify_avoiding_ref in Hrw as [_ Hrw].
    all: destruct Hrw as [(? & ? & ? & _)
                   |[(sv & tkw & Hdw & -> & Hkw)|[[? _]|(? & ? & ? & _)]]];
      try congruence.
    all: assert (sv = VRef kw) as -> by congruence.
    + pose proof (reify_lookup_path _ _ _ _ _ _ Hkw Hheight) as Hpath.
      apply tree_path_to_plain in Hpath; [|by intros ?].
      change (tree_path [k; "metadata"; "system"; "height"] (to_plain (TDict dt)))
        with (tree_get k (to_plain (TDict dt))
              ≫= tree_path ["metadata"; "system"; "height"]).
      simpl tree_get. rewrite assoc_map_snd, Htw. done.
    + pose proof (reify_lookup_path _ _ _ _ _ _ Hkw Hsize) as Hpath.
      apply tree_path_to_plain in Hpath; [|by intros ?].
      change (tree_path [k; "metadata"; "system"; "size"] (to_plain (TDict dt)))
        with (tree_get k (to_plain (TDict dt))
              ≫= tree_path ["metadata"; "system"; "size"]).
      simpl tree_get. rewrite assoc_map_snd, Htw. done.
Qed.

Lemma read_injects_defaults_witness :
  (∃ r0 h0 t0,
     Data.to_dict 5 4 nested_loaded = Ok (VRef r0, h0) ∧
     reify 5 h0 (VRef r0) = Some t0 ∧
     tree_path ["metadata"; "metadata"; "system"] t0 = None) ∧
  ∃ w h1,
    Data.__getattr__ 5 4 "metadata" nested_loaded = Ok (VRef w, h1) ∧
    ∃ N r h2 t2,
      Data.to_dict N 4 h1 = Ok (VRef r, h2) ∧
      reify N h2 (VRef r) = Some t2 ∧
      tree_path ["metadata"; "metadata"; "system"; "height"] t2
        = Some (TLeaf (VInt 100)) ∧
      tree_path ["metadata"; "metadata"; "system"; "size"] t2
        = Some (TLeaf (VInt 10)).
Proof.
  apply (read_injects_defaults 5 nested_loaded 4 3 [("metadata", VRef 1)]
           (TData nested) "metadata" 1 [("system", VRef 0)]).
  - split; reflexivity.
  - reflexivity.
  - reflexivity.
  - reflexivity.
  - reflexivity.
  - reflexivity.
  - reflexivity.
Defined.

(** C10.  A read does not always inject the defaults into a mapping that
    lacks [metadata.system]: the stored dictionary [{"metadata": None}]
    has no [metadata.system], and the read of its key raises [TypeError]
    in the constructor instead of returning a wrapper. *)
Lemma read_can_raise :
  ∃ self st d h,
    Data.new [("cfg", VRef 0)] [ODict [("metadata", VNone)]] = Ok (self, h) ∧
    instance h self st d ∧ dict_get "cfg" d = Some (VRef 0) ∧
    h !! 0 = Some (ODict [("metadata", VNone)]) ∧
    lookup_path h ["metadata"; "system"] (VRef 0) = None ∧
    Data.__getattr__ 5 self "cfg" h = Raise TypeError.
Proof.
  exists 2, 1. eexists _, _. split; [by vm_compute|]. by split_and!.
Qed.

(** * Further properties of the class *)

(** ** Flattening and reading *)

Lemma fold_dict_set_fresh (l acc : entries) :
  NoDup (acc ++ l).*1 →
  fold_left (fun d kv => dict_set kv.1 kv.2 d) l acc = acc ++ l.
Proof.
  revert acc. induction l as [|[k v] l IH]; intros acc Hnd; simpl.
  - by rewrite app_nil_r.
  - assert (dict_get k acc = None) as Hk.
    { apply dict_get_None. rewrite fmap_app in Hnd.
      apply NoDup_app in Hnd as (_ & Hdisj & _). intros Hin.
      apply (Hdisj k Hin). csimpl. left. }
    rewrite (dict_set_fresh _ _ _ Hk), IH.
    + by rewrite <-app_assoc.
    + by rewrite <-app_assoc.
Qed.

Lemma dict_of_pairs_id (d : entries) : NoDup d.*1 → dict_of_pairs d = d.
Proof. intros Hnd. unfold dict_of_pairs. by rewrite fold_dict_set_fresh. Qed.

(** X1.  Flattening a mapping none of whose values is a plain dictionary
    returns a mapping with the same entries in the same order, at any
    depth bound above zero. *)
Theorem flatten_dict_flat n h a d :
  h !! a = Some (ODict d) → NoDup d.*1 →
  (∀ k v, (k, v) ∈ d → isinstance_dict h v = false) →
  Data.flatten_dict (S n) (VRef a) h = Ok d.
Proof.
  intros Ha Hnd Hflat. simpl. rewrite Ha. cbn [rbind].
  rewrite (flatten_loop_flat _ _ _ _ Hflat). cbn [rbind app].
  by rewrite dict_of_pairs_id.
Qed.

Lemma flatten_dict_flat_witness :
  Data.flatten_dict 1 (VRef 0)
    [ODict [("height", VInt 100); ("size", VInt 10)]]
  = Ok [("height", VInt 100); ("size", VInt 10)].
Proof.
  apply (flatten_dict_flat 0 [ODict [("height", VInt 100); ("size", VInt 10)]]
           0 [("height", VInt 100); ("size", VInt 10)]).
  - reflexivity.
  - apply (bool_decide_unpack _). by vm_compute.
  - intros k v Hin. apply elem_of_cons in Hin as [[= -> ->]|Hin]; [done|].
    apply elem_of_cons in Hin as [[= -> ->]|Hin]; [done|].
    by apply elem_of_nil in Hin.
Defined.

(** X2.  A name that is no top-level key and has no leading underscore
    reads as the value of its last occurrence in the walk of the store,
    whatever the depth of that occurrence, and as [None] when the walk
    does not meet it; the read changes nothing. *)
Theorem deep_read_last_wins n h self st d t name :
  instance h self st d → reify n h (VRef st) = Some t →
  dict_get name d = None → String.prefix "_" name = false →
  ∃ l,
    walk n (VRef st) h = Ok l ∧
    Data.__getattr__ n self name h
      = Ok (default VNone (last_assoc name l), h).
Proof.
  intros Hinst Hr Hname Hpre.
  assert (isinstance_dict h (VRef st) = true) as Hd.
  { simpl. by rewrite (proj2 Hinst). }
  destruct (walk_total _ _ _ _ Hr Hd) as (l & Hl).
  destruct (flatten_walk _ _ _ _ Hl) as (f & Hf & Hget & _).
  exists l. split; [done|].
  by rewrite (getattr_flatten n h self st d name f), Hget.
Qed.

Lemma deep_read_last_wins_witness :
  ∃ l,
    walk 3 (VRef 2) siblings_heap = Ok l ∧
    Data.__getattr__ 3 3 "k" siblings_heap
      = Ok (default VNone (last_assoc "k" l), siblings_heap).
Proof.
  apply (deep_read_last_wins 3 siblings_heap 3 2
           [("a", VRef 0); ("b", VRef 1)]
           (TDict [("a", TDict [("k", TLeaf (VInt 1))]);
                   ("b", TDict [("k", TLeaf (VInt 2))])]) "k").
  - split; reflexivity.
  - reflexivity.
  - reflexivity.
  - reflexivity.
Defined.

(** X3.  A read changes the heap only by materialising: when the name is
    no top-level key, or is one whose value is no plain dictionary, a read
    that returns leaves every object as it was. *)
Theorem read_changes_only_by_materializing n h self st d name v h' :
  instance h self st d →
  (∀ x, dict_get name d = Some x → isinstance_dict h x = false) →
  Data.__getattr__ n self name h = Ok (v, h') → h' = h.
Proof.
  intros Hinst Hx. destruct (dict_get name d) as [x|] eqn:Hname.
  - rewrite (getattr_top n h self st d name x) by auto. by intros [= _ <-].
  - destruct Hinst as [Hself Hst]. unfold Data.__getattr__.
    rewrite (self_data_ok _ _ _ Hself). cbn [rbind].
    rewrite (contains_ok _ _ _ _ Hst), Hname, bool_decide_false
      by (by intros [? ?]).
    cbn [rbind]. destruct (String.prefix "_" name).
    + destruct (Data.object_getattribute self name h); [|done].
      by intros [= _ <-].
    + destruct (Data.flatten_dict n (VRef st) h); [|done].
      by intros [= _ <-].
Qed.

(** The nested mapping [system] of the example, found by flattening, is
    returned as the dictionary it is, and nothing is wrapped. *)
Lemma read_changes_only_by_materializing_witness :
  Data.__getattr__ 3 5 "system" loaded_heap = Ok (VRef 0, loaded_heap) ∧
  loaded_heap !! 0
    = Some (ODict [("size", VFloat 10.7); ("height", VInt 11)]) ∧
  loaded_heap = loaded_heap.
Proof.
  split; [reflexivity|]. split; [reflexivity|].
  apply (read_changes_only_by_materializing 3 loaded_heap 5 4
           [("metadata", VRef 2)] "system" (VRef 0) loaded_heap).
  - split; reflexivity.
  - intros x. discriminate.
  - reflexivity.
Defined.

(** ** Construction *)

(** The constructor, once the keyword dictionary and the instance are
    allocated and [_data] is bound. *)
Lemma new_init h kwargs :
  dict_get "self" kwargs = None →
  Data.new kwargs h =
  do h' <- Data._set_default_values (S (List.length h))
             (h ++ [ODict kwargs; OData (Some (VRef (List.length h)))]) ;
  Ok (S (List.length h), h').
Proof.
  intros Hkw. unfold Data.new. rewrite Hkw.
  unfold Data.__init__, Data.__setattr__. cbn [alloc].
  rewrite decide_True by done.
  set (k := List.length h).
  rewrite <-!app_assoc. cbn [app].
  assert (List.length (h ++ [ODict kwargs]) = S k) as -> by (subst k; heap_len).
  assert ((h ++ [ODict kwargs; OData None]) !! S k = Some (OData None)) as ->
    by (subst k; hlook 1).
  cbn [rbind]. rewrite (insert_at _ _ 1) by (subst k; lia).
  cbn [insert list_insert].
  by destruct (Data._set_default_values _ _).
Qed.

(** X4.  Default injection is idempotent: run again on the heap it has
    produced, it succeeds and changes nothing. *)
Theorem default_injection_idempotent h self st d :
  instance h self st d → well_shaped h d = true →
  ∃ h',
    Data._set_default_values self h = Ok h' ∧
    Data._set_default_values self h' = Ok h'.
Proof.
  intros Hinst Hws.
  destruct (set_default_values_spec _ _ _ _ Hinst Hws)
    as (h' & mm & ss & Heq & Hg & Hmeta & Hsys & Hheight & Hsize).
  exists h'. split; [done|].
  destruct Hinst as [Hself Hst].
  destruct (grows_dict _ _ _ _ Hg Hst) as (d' & Hst' & _).
  pose proof (grows_data _ _ _ _ Hg Hself) as Hself'.
  destruct Hmeta as (d0 & Hd0 & Hm). assert (d0 = d') as -> by congruence.
  destruct Hsys as (md & Hmd & Hs).
  destruct Hheight as (sd & Hsd & Hh).
  destruct Hsize as (sd' & Hsd' & Hz). assert (sd' = sd) as -> by congruence.
  by apply (set_default_values_noop h' self st d' mm md ss sd).
Qed.

Lemma default_injection_idempotent_witness :
  ∃ h',
    Data._set_default_values 1 [ODict [("name", VStr "my")];
                                OData (Some (VRef 0))] = Ok h' ∧
    Data._set_default_values 1 h' = Ok h'.
Proof.
  apply (default_injection_idempotent
           [ODict [("name", VStr "my")]; OData (Some (VRef 0))] 1 0
           [("name", VStr "my")]).
  - split; reflexivity.
  - reflexivity.
Defined.

(** X5.  Defaults are made anew for each instance: constructing without
    [metadata] (and without a keyword [self], which the call refuses)
    changes no object that was there, the [metadata] and
    [system] mappings of the instance are new objects, and those of a
    second instance are different objects from those of the first. *)
Theorem defaults_are_per_instance h k1 k2 :
  dict_get "self" k1 = None → dict_get "self" k2 = None →
  dict_get "metadata" k1 = None → dict_get "metadata" k2 = None →
  ∃ s1 h1 s2 h2 st1 d1 st2 d2 m1 y1 m2 y2,
    Data.new k1 h = Ok (s1, h1) ∧ Data.new k2 h1 = Ok (s2, h2) ∧
    preserves h h1 ∧ preserves h1 h2 ∧
    instance h2 s1 st1 d1 ∧ instance h2 s2 st2 d2 ∧
    dict_get "metadata" d1 = Some (VRef m1) ∧
    dict_get "metadata" d2 = Some (VRef m2) ∧
    has h2 m1 "system" (VRef y1) ∧ has h2 m2 "system" (VRef y2) ∧
    h !! m1 = None ∧ h !! y1 = None ∧ h1 !! m2 = None ∧ h1 !! y2 = None ∧
    m1 ≠ m2 ∧ y1 ≠ y2.
Proof.
  intros Hs1 Hs2 Hk1 Hk2.
  pose proof (new_without_metadata h k1 Hs1 Hk1) as H1.
  set (h1 := h ++ _) in H1.
  pose proof (new_without_metadata h1 k2 Hs2 Hk2) as H2.
  assert (List.length h1 = 4 + List.length h)%nat as Hl by (subst h1; heap_len).
  rewrite Hl in H2. set (h2 := h1 ++ _) in H2.
  set (k := List.length h) in *.
  assert (preserves h1 h2) as Hp by apply preserves_app.
  exists (S k), h1, (5 + k)%nat, h2, k.
  exists (k1 ++ [("metadata", VRef (2 + k))]), (4 + k)%nat.
  exists (k2 ++ [("metadata", VRef (6 + k))]).
  exists (2 + k)%nat, (3 + k)%nat, (6 + k)%nat, (7 + k)%nat.
  split; [exact H1|]. split; [exact H2|].
  split; [apply preserves_app|]. split; [done|].
  split; [split; apply Hp; subst h1 k; [hlook 1 | hlook 0]|].
  split.
  { split; subst h2.
    - apply (lookup_at _ _ 1); [rewrite Hl; lia | reflexivity].
    - apply (lookup_at _ _ 0); [rewrite Hl; lia | reflexivity]. }
  split; [by rewrite dict_get_app, Hk1|].
  split; [by rewrite dict_get_app, Hk2|].
  split.
  { eexists. split; [apply Hp; subst h1 k; hlook 2 | reflexivity]. }
  split.
  { exists [("system", VRef (7 + k)%nat)]. split; [|reflexivity].
    apply (lookup_at _ _ 2); [rewrite Hl; lia | reflexivity]. }
  split; [apply lookup_ge_None; subst k; lia|].
  split; [apply lookup_ge_None; subst k; lia|].
  split; [apply lookup_ge_None; rewrite Hl; lia|].
  split; [apply lookup_ge_None; rewrite Hl; lia|].
  lia.
Qed.

Lemma defaults_are_per_instance_witness :
  ∃ s1 h1 s2 h2 st1 d1 st2 d2 m1 y1 m2 y2,
    Data.new [("name", VStr "my")] [] = Ok (s1, h1) ∧
    Data.new [] h1 = Ok (s2, h2) ∧
    preserves [] h1 ∧ preserves h1 h2 ∧
    instance h2 s1 st1 d1 ∧ instance h2 s2 st2 d2 ∧
    dict_get "metadata" d1 = Some (VRef m1) ∧
    dict_get "metadata" d2 = Some (VRef m2) ∧
    has h2 m1 "system" (VRef y1) ∧ has h2 m2 "system" (VRef y2) ∧
    ([] : heap) !! m1 = None ∧ ([] : heap) !! y1 = None ∧
    h1 !! m2 = None ∧ h1 !! y2 = None ∧
    m1 ≠ m2 ∧ y1 ≠ y2.
Proof.
  apply (defaults_are_per_instance [] [("name", VStr "my")] []); reflexivity.
Defined.

(** X6.  [from_dict] copies the top level only.  When the caller's mapping
    (without a key [self], on which the call raises) has a [metadata]
    mapping without [system], the caller's mapping itself
    stays as it was, but the caller's [metadata] dictionary gains the
    entry [system], a new dictionary with the two defaults: the nested
    objects are shared between the caller and the instance. *)
Theorem from_dict_writes_into_callers_metadata h a d mm md :
  h !! a = Some (ODict d) → dict_get "self" d = None →
  dict_get "metadata" d = Some (VRef mm) →
  h !! mm = Some (ODict md) → dict_get "system" md = None → mm ≠ a →
  ∃ self h' ss,
    Data.from_dict (VRef a) h = Ok (self, h') ∧
    h' !! a = Some (ODict d) ∧
    h' !! mm = Some (ODict (md ++ [("system", VRef ss)])) ∧
    h !! ss = None ∧
    h' !! ss = Some (ODict [("height", VInt 100); ("size", VInt 10)]).
Proof.
  intros Ha Hkw Hmeta Hmm Hsys Hne.
  assert (a < List.length h)%nat by (by eapply lookup_lt_Some).
  assert (mm < List.length h)%nat by (by eapply lookup_lt_Some).
  unfold Data.from_dict. rewrite (unpack_ok _ _ _ Ha). cbn [rbind].
  rewrite (new_without_system h d mm md Hkw Hmeta Hmm Hsys).
  eexists _, _, (2 + List.length h)%nat. split; [done|]. split_and!.
  - by heap_simpl.
  - by heap_simpl.
  - apply lookup_ge_None. lia.
  - rewrite list_lookup_insert_ne by lia. hlook 2.
Qed.

Lemma from_dict_writes_into_callers_metadata_witness :
  ∃ self h' ss,
    Data.from_dict (VRef 1)
      [ODict [("user", VStr "u")]; ODict [("metadata", VRef 0)]]
      = Ok (self, h') ∧
    h' !! 1 = Some (ODict [("metadata", VRef 0)]) ∧
    h' !! 0 = Some (ODict ([("user", VStr "u")] ++ [("system", VRef ss)])) ∧
    [ODict [("user", VStr "u")]; ODict [("metadata", VRef 0)]] !! ss = None ∧
    h' !! ss = Some (ODict [("height", VInt 100); ("size", VInt 10)]).
Proof.
  apply (from_dict_writes_into_callers_metadata
           [ODict [("user", VStr "u")]; ODict [("metadata", VRef 0)]]
           1 [("metadata", VRef 0)] 0 [("user", VStr "u")]).
  - reflexivity.
  - reflexivity.
  - reflexivity.
  - reflexivity.
  - reflexivity.
  - lia.
Defined.

(** X7.  A [metadata] argument that is no object reference (a number, a
    string, a sequence, [None]) makes the constructor raise [TypeError]:
    the membership test or the item access on it fails. *)
Theorem construction_rejects_non_mapping h kwargs v :
  dict_get "metadata" kwargs = Some v → (∀ a, v ≠ VRef a) →
  Data.new kwargs h = Raise TypeError.
Proof.
  intros Hmeta Hv.
  destruct (dict_get "self" kwargs) as [x|] eqn:Hkw;
    [unfold Data.new; by rewrite Hkw|].
  rewrite new_init by done. unfold Data._set_default_values.
  set (k := List.length h). set (h1 := h ++ _).
  assert (h1 !! S k = Some (OData (Some (VRef k)))) as Hw by (subst h1 k; hlook 1).
  assert (h1 !! k = Some (ODict kwargs)) as Hk by (subst h1 k; hlook 0).
  rewrite (self_data_ok _ _ _ Hw). cbn [rbind].
  rewrite (contains_ok _ _ _ _ Hk), bool_decide_true by eauto. cbn [rbind].
  rewrite (self_data_ok _ _ _ Hw). cbn [rbind].
  rewrite (getitem_ok _ _ _ _ _ Hk Hmeta). cbn [rbind].
  destruct v as [| | | |s|xs| |a]; try done.
  - cbn [py_contains rbind]. by destruct (substringb "system" s).
  - cbn [py_contains rbind]. by destruct (existsb (is_str "system") xs).
  - by destruct (Hv a).
Qed.

Lemma construction_rejects_non_mapping_witness :
  Data.new [("metadata", VStr "system")] [] = Raise TypeError.
Proof.
  apply (construction_rejects_non_mapping [] [("metadata", VStr "system")]
           (VStr "system")).
  - reflexivity.
  - discriminate.
Defined.

(** X8.  With no keyword named [self], a [system] entry of [metadata]
    that is no object reference makes the constructor raise
    [AttributeError]: it has no [setdefault]. *)
Theorem construction_rejects_non_mapping_system h kwargs mm md s :
  dict_get "self" kwargs = None →
  dict_get "metadata" kwargs = Some (VRef mm) → h !! mm = Some (ODict md) →
  dict_get "system" md = Some s → (∀ a, s ≠ VRef a) →
  Data.new kwargs h = Raise AttributeError.
Proof.
  intros Hkw Hmeta Hmm Hsys Hs. rewrite new_init by done.
  unfold Data._set_default_values.
  assert (mm < List.length h)%nat by (by eapply lookup_lt_Some).
  set (k := List.length h) in *. set (h1 := h ++ _).
  assert (h1 !! S k = Some (OData (Some (VRef k)))) as Hw by (subst h1 k; hlook 1).
  assert (h1 !! k = Some (ODict kwargs)) as Hk by (subst h1 k; hlook 0).
  assert (h1 !! mm = Some (ODict md)) as Hmm1 by (subst h1; by heap_simpl).
  rewrite (self_data_ok _ _ _ Hw). cbn [rbind].
  rewrite (contains_ok _ _ _ _ Hk), bool_decide_true by eauto. cbn [rbind].
  rewrite (self_data_ok _ _ _ Hw). cbn [rbind].
  rewrite (getitem_ok _ _ _ _ _ Hk Hmeta). cbn [rbind].
  rewrite (contains_ok _ _ _ _ Hmm1), bool_decide_true by eauto. cbn [rbind].
  rewrite (getitem_ok _ _ _ _ _ Hmm1 Hsys). cbn [rbind].
  destruct s as [| | | | | | |a]; try done. by destruct (Hs a).
Qed.

Lemma construction_rejects_non_mapping_system_witness :
  Data.new [("metadata", VRef 0)] [ODict [("system", VNone)]]
  = Raise AttributeError.
Proof.
  apply (construction_rejects_non_mapping_system [ODict [("system", VNone)]]
           [("metadata", VRef 0)] 0 [("system", VNone)] VNone).
  - reflexivity.
  - reflexivity.
  - reflexivity.
  - reflexivity.
  - discriminate.
Defined.

(** ** Conversion, on any store *)

Lemma convert_step_frame (rec : value -> heap -> result (value * heap))
    h v v' h' :
  (∀ v h r h', rec v h = Ok (r, h') → preserves h h') →
  (if is_dataclass h v then Data.call_to_dict rec v h
   else if isinstance_dict h v then rec v h
   else Ok (v, h)) = Ok (v', h') →
  preserves h h'.
Proof.
  intros Hrec. destruct (is_dataclass h v).
  - unfold Data.call_to_dict. destruct v as [| | | | | | |a]; try done.
    destruct (h !! a) as [[|s|[c|]]|]; try done.
    + destruct (Data.self_data a h) as [sv|]; [|done]. cbn [rbind]. apply Hrec.
    + intros [= _ <-]. apply preserves_refl.
  - destruct (isinstance_dict h v); [apply Hrec|]. intros [= _ <-]. apply preserves_refl.
Qed.

Lemma setitem_inv c k v h h' :
  py_setitem c k v h = Ok h' →
  ∃ a d, c = VRef a ∧ h !! a = Some (ODict d) ∧
         h' = <[a := ODict (dict_set k v d)]> h.
Proof.
  destruct c as [| | | | | | |a]; try done. simpl.
  destruct (h !! a) as [[d| |]|] eqn:Ha; try done.
  intros [= <-]. by exists a, d.
Qed.

Lemma convert_loop_frame (rec : value -> heap -> result (value * heap))
    res h :
  (∀ v h r h', rec v h = Ok (r, h') → preserves h h') →
  (List.length h ≤ res)%nat →
  ∀ todo hk acc h',
    preserves h hk → hk !! res = Some (ODict acc) →
    Data.convert_loop rec res todo hk = Ok h' →
    preserves h h' ∧ ∃ acc', h' !! res = Some (ODict acc').
Proof.
  intros Hrec Hres todo.
  induction todo as [|[key v] todo IH]; intros hk acc h' Hp Hacc.
  - simpl. intros [= <-]. eauto.
  - cbn [Data.convert_loop]. intros Hloop.
    inv_bind Hloop. destruct x as [v' hk1]. inv_bind Hloop.
    apply convert_step_frame in Hloopa; [|done].
    apply setitem_inv in Hloopa0 as (a & d & [= <-] & Ha & ->).
    apply (IH (<[res := ODict (dict_set key v' d)]> hk1)
              (dict_set key v' d)); [| |done].
    + apply preserves_insert_fresh; [|done].
      by apply (preserves_trans _ hk).
    + apply list_lookup_insert_eq. by eapply lookup_lt_Some.
Qed.

Lemma convert_frame n v h r h' :
  Data._convert_dataclasses_to_dict n v h = Ok (r, h') →
  preserves h h' ∧ r = VRef (List.length h) ∧
  ∃ acc, h' !! List.length h = Some (ODict acc).
Proof.
  revert v h r h'. induction n as [|n IH]; intros v h r h'; [done|].
  cbn [Data._convert_dataclasses_to_dict]. intros H.
  inv_bind H. cbn [alloc] in H. inv_bind H. injection H as <- <-.
  apply (convert_loop_frame (Data._convert_dataclasses_to_dict n)
           (List.length h) h) with (acc := []) in Ha0.
  - destruct Ha0 as [? ?]. by split_and!.
  - intros v0 h0 r0 h0' Hc. by apply IH in Hc as [? _].
  - done.
  - apply preserves_app.
  - by apply list_lookup_middle.
Qed.

(** X9.  [to_dict] never changes an object that exists, whatever the store
    holds: when it returns, what it returns is a new dictionary and every
    object that was there is as before.  (The conversion of a record of
    another class is its own; it is taken to change nothing.) *)
Theorem to_dict_changes_no_object n self h r h' :
  Data.to_dict n self h = Ok (r, h') →
  preserves h h' ∧
  ∃ a acc, r = VRef a ∧ h !! a = None ∧ h' !! a = Some (ODict acc).
Proof.
  unfold Data.to_dict. intros H. inv_bind H.
  apply convert_frame in H as (Hp & -> & acc & Hacc). split; [done|].
  exists (List.length h), acc. split; [done|].
  split; [by apply lookup_ge_None | done].
Qed.

Lemma to_dict_changes_no_object_witness :
  ∃ r h',
    Data.to_dict 5 6 mixed_heap = Ok (r, h') ∧
    preserves mixed_heap h' ∧
    ∃ a acc, r = VRef a ∧ mixed_heap !! a = None ∧
             h' !! a = Some (ODict acc).
Proof.
  eexists _, _. split; [vm_compute; reflexivity|].
  apply (to_dict_changes_no_object 5 6). vm_compute. reflexivity.
Defined.

(** X10.  [to_dict] can be called again: on a store it can convert, two
    calls in a row return two different new dictionaries, and both denote
    the plain form of the store. *)
Theorem to_dict_twice n h self t :
  reify n h (VRef self) = Some (TData t) → convertible (TData t) = true →
  ∃ r1 h1 r2 h2,
    Data.to_dict n self h = Ok (VRef r1, h1) ∧
    Data.to_dict n self h1 = Ok (VRef r2, h2) ∧
    r1 ≠ r2 ∧
    reify n h2 (VRef r1) = Some (to_plain t) ∧
    reify n h2 (VRef r2) = Some (to_plain t).
Proof.
  intros Hr Hc.
  destruct (to_dict_spec _ _ _ _ Hr Hc) as (r1 & h1 & H1 & _ & Hp1 & Hout1 & _).
  pose proof (reify_preserves _ _ _ _ _ Hp1 Hr) as Hr1.
  destruct (to_dict_spec _ _ _ _ Hr1 Hc) as (r2 & h2 & H2 & Hnew & Hp2 & Hout2 & _).
  exists r1, h1, r2, h2. split_and!; try done.
  - intros ->. destruct n as [|n]; [done|].
    apply reify_avoiding_ref in Hout1 as [_ Hout1]. rewrite Hnew in Hout1.
    by destruct Hout1 as [(? & ? & ? & _)|[(? & ? & ? & _)|[[? _]|(? & ? & ? & _)]]].
  - by apply (reify_preserves _ h1).
Qed.

Lemma to_dict_twice_witness :
  ∃ r1 h1 r2 h2,
    Data.to_dict 5 6 mixed_heap = Ok (VRef r1, h1) ∧
    Data.to_dict 5 6 h1 = Ok (VRef r2, h2) ∧
    r1 ≠ r2 ∧
    reify 5 h2 (VRef r1) = Some (to_plain mixed_tree) ∧
    reify 5 h2 (VRef r2) = Some (to_plain mixed_tree).
Proof.
  apply (to_dict_twice 5 mixed_heap 6 mixed_tree); reflexivity.
Defined.

Lemma convert_loop_self (rec : value -> heap -> result (value * heap))
    res self st d k :
  (∀ v h r h', rec v h = Ok (r, h') → preserves h h') →
  (∀ hk, instance hk self st d → ∀ r, rec (VRef st) hk ≠ Ok r) →
  res ≠ self → res ≠ st →
  ∀ todo hk h',
    (k, VRef self) ∈ todo → instance hk self st d →
    Data.convert_loop rec res todo hk ≠ Ok h'.
Proof.
  intros Hrec Hself Hne1 Hne2 todo.
  induction todo as [|[key v] todo IH]; intros hk h' Hin Hinst.
  - by apply elem_of_nil in Hin.
  - cbn [Data.convert_loop]. intros Hloop.
    inv_bind Hloop. destruct x as [v' hk1]. inv_bind Hloop.
    apply elem_of_cons in Hin as [[= <- <-]|Hin].
    + destruct Hinst as [Hs Hst].
      cbn [is_dataclass] in Hloopa. rewrite Hs in Hloopa.
      cbn [Data.call_to_dict] in Hloopa. rewrite Hs in Hloopa.
      rewrite (self_data_ok _ _ _ Hs) in Hloopa. cbn [rbind] in Hloopa.
      by apply (Hself hk (conj Hs Hst)) in Hloopa.
    + apply convert_step_frame in Hloopa; [|done].
      apply setitem_inv in Hloopa0 as (a & d' & [= <-] & Ha & ->).
      apply (IH _ _ Hin) in Hloop; [done|].
      destruct Hinst as [Hs Hst].
      split; rewrite list_lookup_insert_ne by done; by apply Hloopa.
Qed.

Lemma convert_self n self st d k h r :
  instance h self st d → (k, VRef self) ∈ d →
  Data._convert_dataclasses_to_dict n (VRef st) h ≠ Ok r.
Proof.
  revert h r. induction n as [|n IH]; intros h r Hinst Hin; [done|].
  cbn [Data._convert_dataclasses_to_dict]. intros H.
  inv_bind H. cbn [alloc] in H. inv_bind H.
  destruct Hinst as [Hs Hst].
  assert (x = d) as ->.
  { simpl in Ha. rewrite Hst in Ha. by injection Ha. }
  assert (self < List.length h)%nat by (by eapply lookup_lt_Some).
  assert (st < List.length h)%nat by (by eapply lookup_lt_Some).
  apply (convert_loop_self (Data._convert_dataclasses_to_dict n)
           (List.length h) self st d k) in Ha0; try done; try lia.
  - intros v0 h0 r0 h0' Hc. by apply convert_frame in Hc as [? _].
  - intros hk Hk r0. by apply IH.
  - split; by apply preserves_app.
Qed.

(** X11.  An instance that holds itself under one of its keys (as after
    [d.me = d]) cannot be converted: [to_dict] returns at no depth bound,
    it raises. *)
Theorem to_dict_of_self_reference_raises n h self st d k :
  instance h self st d → dict_get k d = Some (VRef self) →
  ∃ e, Data.to_dict n self h = Raise e.
Proof.
  intros Hinst Hk. unfold Data.to_dict.
  rewrite (self_data_ok _ _ _ (proj1 Hinst)). cbn [rbind].
  destruct (Data._convert_dataclasses_to_dict n (VRef st) h) as [r|e] eqn:Hc.
  - exfalso. apply (convert_self n self st d k h r); [done| |done].
    by apply dict_get_Some_elem.
  - by exists e.
Qed.

Lemma to_dict_of_self_reference_raises_witness :
  ∃ e, Data.to_dict 40 1 selfref_heap = Raise e.
Proof.
  apply (to_dict_of_self_reference_raises 40 selfref_heap 1 0
           [("metadata", VRef 2); ("me", VRef 1)] "me").
  - split; reflexivity.
  - reflexivity.
Defined.

(** ** Mappings that contain themselves *)

(** On dictionaries [flatten_dict] fails in one way only: by depth. *)
Lemma flatten_loop_depth (rec : value -> result entries) h :
  (∀ v, isinstance_dict h v = true →
        (∃ f, rec v = Ok f) ∨ rec v = Raise RecursionError) →
  ∀ todo items,
    (∃ r, Data.flatten_loop rec h todo items = Ok r) ∨
    Data.flatten_loop rec h todo items = Raise RecursionError.
Proof.
  intros Hrec todo. induction todo as [|[key v] todo IH]; intros items.
  - left. by eexists.
  - cbn [Data.flatten_loop]. destruct (isinstance_dict h v) eqn:Hv.
    + destruct (Hrec v Hv) as [[f ->]| ->]; [|by right]. cbn [rbind]. apply IH.
    + cbn [rbind]. apply IH.
Qed.

Lemma flatten_dict_depth n h v :
  isinstance_dict h v = true →
  (∃ f, Data.flatten_dict n v h = Ok f) ∨
  Data.flatten_dict n v h = Raise RecursionError.
Proof.
  revert v. induction n as [|n IH]; intros v Hv; [by right|].
  cbn [Data.flatten_dict].
  destruct v as [| | | | | | |a]; try done. simpl in Hv. cbn [py_items].
  destruct (h !! a) as [[d| |]|]; try done. cbn [rbind].
  destruct (flatten_loop_depth (fun v => Data.flatten_dict n v h) h IH d [])
    as [[r ->]| ->]; [left; by eexists | by right].
Qed.

Lemma flatten_loop_raises (rec : value -> result entries) h k0 v0 :
  (∀ v, isinstance_dict h v = true →
        (∃ f, rec v = Ok f) ∨ rec v = Raise RecursionError) →
  isinstance_dict h v0 = true → rec v0 = Raise RecursionError →
  ∀ todo items,
    (k0, v0) ∈ todo →
    Data.flatten_loop rec h todo items = Raise RecursionError.
Proof.
  intros Hrec Hv0 Hr0 todo.
  induction todo as [|[key v] todo IH]; intros items Hin.
  - by apply elem_of_nil in Hin.
  - cbn [Data.flatten_loop].
    apply elem_of_cons in Hin as [[= <- <-]|Hin].
    + by rewrite Hv0, Hr0.
    + destruct (isinstance_dict h v) eqn:Hv.
      * destruct (Hrec v Hv) as [[f ->]| ->]; [|done]. cbn [rbind]. by apply IH.
      * cbn [rbind]. by apply IH.
Qed.

Lemma flatten_dict_cycle n h a da k :
  h !! a = Some (ODict da) → (k, VRef a) ∈ da →
  Data.flatten_dict n (VRef a) h = Raise RecursionError.
Proof.
  intros Ha Hin. induction n as [|n IH]; [done|].
  cbn [Data.flatten_dict py_items]. rewrite Ha. cbn [rbind].
  rewrite (flatten_loop_raises (fun v => Data.flatten_dict n v h) h k (VRef a));
    try done.
  - intros v. apply flatten_dict_depth.
  - simpl. by rewrite Ha.
Qed.

(** X12.  A dictionary that contains itself cannot be flattened: at every
    depth bound [flatten_dict] raises [RecursionError] on it, and so does
    the read of every name that is no top-level key and has no leading
    underscore, on an instance that holds such a dictionary at top level. *)
Theorem cyclic_mapping_exhausts_depth n h self st d x a da k name :
  instance h self st d → dict_get x d = Some (VRef a) →
  h !! a = Some (ODict da) → dict_get k da = Some (VRef a) →
  dict_get name d = None → String.prefix "_" name = false →
  Data.flatten_dict n (VRef a) h = Raise RecursionError ∧
  Data.__getattr__ n self name h = Raise RecursionError.
Proof.
  intros [Hself Hst] Hx Ha Hk Hname Hpre.
  apply dict_get_Some_elem in Hx, Hk.
  split; [by apply (flatten_dict_cycle n h a da k)|].
  unfold Data.__getattr__.
  rewrite (self_data_ok _ _ _ Hself). cbn [rbind].
  rewrite (contains_ok _ _ _ _ Hst), Hname, bool_decide_false
    by (by intros [? ?]).
  cbn [rbind]. rewrite Hpre.
  destruct n as [|n]; [done|].
  cbn [Data.flatten_dict py_items]. rewrite Hst. cbn [rbind].
  rewrite (flatten_loop_raises (fun v => Data.flatten_dict n v h) h x (VRef a));
    try done.
  - intros v. apply flatten_dict_depth.
  - simpl. by rewrite Ha.
  - by apply (flatten_dict_cycle n h a da k).
Qed.

Lemma cyclic_mapping_exhausts_depth_witness :
  Data.flatten_dict 40 (VRef 0) cyclic_heap = Raise RecursionError ∧
  Data.__getattr__ 40 2 "height" cyclic_heap = Raise RecursionError.
Proof.
  apply (cyclic_mapping_exhausts_depth 40 cyclic_heap 2 1
           [("x", VRef 0); ("metadata", VRef 3)] "x" 0 [("loop", VRef 0)]
           "loop" "height"); reflexivity || (split; reflexivity).
Defined.

(** ** Enumeration, ordinary lookup, and the module's top level *)

Lemma dict_set_keys_elem k v d : k ∈ (dict_set k v d).*1.
Proof.
  rewrite dict_set_keys. destruct (decide (k ∈ d.*1)); [done|].
  apply elem_of_app. right. left.
Qed.

Lemma dict_set_keys_mono k v d k' : k' ∈ d.*1 → k' ∈ (dict_set k v d).*1.
Proof.
  intros Hin. rewrite dict_set_keys. destruct (decide (k ∈ d.*1)); [done|].
  apply elem_of_app. by left.
Qed.

(** X13.  [__dir__] lists the top-level keys of the store, in the order of
    the store, before the names the host enumerates.  So a name that was
    written is listed, with every key that was there; the keys of nested
    mappings are not added. *)
Theorem dir_lists_written_names host_dir h self st d name v :
  instance h self st d → name ≠ "_data" →
  ∃ h',
    Data.__setattr__ self name v h = Ok h' ∧
    Data.__dir__ host_dir self h'
      = Ok ((dict_set name v d).*1 ++ host_dir) ∧
    name ∈ (dict_set name v d).*1 ∧
    ∀ k, k ∈ d.*1 → k ∈ (dict_set name v d).*1.
Proof.
  intros Hinst Hname.
  rewrite (setattr_ok _ _ _ _ _ _ Hinst), decide_False by done.
  destruct Hinst as [Hself Hst].
  assert (self ≠ st) as Hne by (intros ->; congruence).
  assert (st < List.length h)%nat by (by eapply lookup_lt_Some).
  eexists. split; [done|]. split_and!.
  - unfold Data.__dir__, Data.self_data.
    rewrite list_lookup_insert_ne, Hself by done. cbn [rbind py_keys].
    by rewrite list_lookup_insert_eq.
  - apply dict_set_keys_elem.
  - intros k. apply dict_set_keys_mono.
Qed.

Lemma dir_lists_written_names_witness :
  ∃ h',
    Data.__setattr__ 5 "color" (VStr "red") loaded_heap = Ok h' ∧
    Data.__dir__ ["_data"; "to_dict"] 5 h'
      = Ok ((dict_set "color" (VStr "red") [("metadata", VRef 2)]).*1
            ++ ["_data"; "to_dict"]) ∧
    "color" ∈ (dict_set "color" (VStr "red") [("metadata", VRef 2)]).*1 ∧
    ∀ k, k ∈ [("metadata", VRef 2)].*1 →
         k ∈ (dict_set "color" (VStr "red") [("metadata", VRef 2)]).*1.
Proof.
  apply (dir_lists_written_names ["_data"; "to_dict"] loaded_heap 5 4
           [("metadata", VRef 2)] "color" (VStr "red")).
  - split; reflexivity.
  - discriminate.
Defined.

Lemma class_attrs_names name :
  name ∈ Data.class_attrs → String.prefix "__" name = false →
  name ∈ method_names.
Proof.
  unfold Data.class_attrs, method_names. intros Hin Hpre.
  repeat (apply elem_of_cons in Hin as [->|Hin];
          [first [discriminate Hpre | apply (bool_decide_unpack _); by vm_compute]|]).
  by apply elem_of_nil in Hin.
Qed.

Lemma none_attrs_names name :
  name ∈ Data.none_attrs → String.prefix "__" name = true.
Proof.
  unfold Data.none_attrs. intros Hin.
  repeat (apply elem_of_cons in Hin as [->|Hin]; [reflexivity|]).
  by apply elem_of_nil in Hin.
Qed.

(** X14.  Ordinary lookup comes first.  A key named like a method of the
    class can be written, and lands in the store, but reading the name
    still gives the method; every other name that does not begin with two
    underscores, [_data] apart, is read through [__getattr__]. *)
Theorem method_names_shadow_store n h self st d :
  instance h self st d →
  (∀ name v, name ∈ method_names →
     ∃ h',
       Data.__setattr__ self name v h = Ok h' ∧ has h' st name v ∧
       py_getattr n self name h' = Ok (VMethod self name, h')) ∧
  (∀ name, name ∉ method_names → name ≠ "_data" →
     String.prefix "__" name = false →
     py_getattr n self name h = Data.__getattr__ n self name h).
Proof.
  intros Hinst. split.
  - intros name v Hin.
    assert (name ≠ "_data") as Hname.
    { intros ->. revert Hin. unfold method_names. intros Hin.
      repeat (apply elem_of_cons in Hin as [Hin|Hin]; [discriminate|]).
      by apply elem_of_nil in Hin. }
    assert (name ∈ Data.class_attrs) as Hcls.
    { unfold method_names in Hin. unfold Data.class_attrs.
      repeat (apply elem_of_cons in Hin as [->|Hin];
              [apply (bool_decide_unpack _); by vm_compute|]).
      by apply elem_of_nil in Hin. }
    rewrite (setattr_ok _ _ _ _ _ _ Hinst), decide_False by done.
    destruct Hinst as [Hself Hst].
    assert (self ≠ st) as Hne by (intros ->; congruence).
    assert (st < List.length h)%nat by (by eapply lookup_lt_Some).
    eexists. split; [done|]. split.
    + eexists. split; [by apply list_lookup_insert_eq|]. apply dict_get_set_eq.
    + assert (name ∉ Data.none_attrs) as Hnone.
      { intros Hn%none_attrs_names. revert Hn. unfold method_names in Hin.
        repeat (apply elem_of_cons in Hin as [->|Hin]; [discriminate|]).
        by apply elem_of_nil in Hin. }
      unfold py_getattr, Data.object_getattribute.
      rewrite list_lookup_insert_ne, Hself by done.
      rewrite decide_False by done.
      by rewrite bool_decide_false, bool_decide_true by done.
  - intros name Hnot Hname Hpre. destruct Hinst as [Hself Hst].
    unfold py_getattr, Data.object_getattribute. rewrite Hself.
    rewrite decide_False by done.
    rewrite bool_decide_false.
    2:{ intros Hn%none_attrs_names. congruence. }
    rewrite bool_decide_false; [done|].
    intros Hin. by apply Hnot, class_attrs_names.
Qed.

Lemma method_names_shadow_store_witness :
  ∃ h',
    Data.__setattr__ 5 "to_dict" (VInt 5) loaded_heap = Ok h' ∧
    has h' 4 "to_dict" (VInt 5) ∧
    py_getattr 3 5 "to_dict" h' = Ok (VMethod 5 "to_dict", h').
Proof.
  apply (proj1 (method_names_shadow_store 3 loaded_heap 5 4
                  [("metadata", VRef 2)] (conj eq_refl eq_refl))
           "to_dict" (VInt 5)).
  apply (bool_decide_unpack _). by vm_compute.
Defined.

(** X15.  Running the module prints 11 and then 100: the first instance
    takes [height] from the literal, the second gets the default.  The
    literal [data] is as it was written when the module has run. *)
Theorem main_prints n :
  ∃ h,
    main (3 + n) = Ok ([VInt 11; VInt 100], h) ∧
    reify 4 h (build data []).1 = Some data.
Proof.
  eexists. split; [vm_compute; reflexivity|]. by vm_compute.
Qed.

(** ** Conversion after a change of the store *)

Lemma assoc_set_eq {A} k (x : A) d : assoc k (assoc_set k x d) = Some x.
Proof.
  induction d as [|[k' x'] d IH]; simpl.
  - by rewrite decide_True.
  - destruct (decide (k = k')); simpl.
    + by rewrite decide_True.
    + by rewrite decide_False.
Qed.

Lemma assoc_set_ne {A} k k' (x : A) d :
  k ≠ k' → assoc k' (assoc_set k x d) = assoc k' d.
Proof.
  intros Hne. induction d as [|[k0 x0] d IH]; simpl.
  - by rewrite decide_False.
  - destruct (decide (k = k0)) as [->|]; simpl.
    + by rewrite !decide_False.
    + by rewrite IH.
Qed.

Lemma assoc_set_forallb {A} (P : A → bool) k x (d : list (string * A)) :
  forallb (fun kt => P kt.2) d = true → P x = true →
  forallb (fun kt => P kt.2) (assoc_set k x d) = true.
Proof.
  intros Hd Hx. induction d as [|[k' x'] d IH]; simpl in *.
  - by rewrite Hx.
  - apply andb_prop in Hd as [H1 H2].
    destruct (decide (k = k')); simpl.
    + by rewrite Hx, H2.
    + by rewrite H1, IH.
Qed.

Lemma assoc_set_map_same {A B} (g : A → B) k x y (d : list (string * A)) :
  assoc k d = Some y → g x = g y →
  map (fun kt => (kt.1, g kt.2)) (assoc_set k x d)
  = map (fun kt => (kt.1, g kt.2)) d.
Proof.
  intros Hk Hg. induction d as [|[k' x'] d IH]; simpl in *; [done|].
  destruct (decide (k = k')) as [->|]; simpl.
  - injection Hk as ->. by rewrite Hg.
  - by rewrite IH.
Qed.

Lemma entries_reify_set (f : value → option tree) d dt k v tv :
  Forall2 (entry_reifies f) d dt → f v = Some tv →
  Forall2 (entry_reifies f) (dict_set k v d) (assoc_set k tv dt).
Proof.
  intros Hall Hv. induction Hall as [|[k1 v1] [k2 t2] d dt [Hk Ht] Hall IH]; simpl.
  - by repeat constructor.
  - simpl in Hk. subst k2. destruct (decide (k = k1)).
    + by repeat constructor.
    + by repeat constructor.
Qed.

(** The entries of a dictionary that can be read are read without going
    through the dictionary itself. *)
Lemma children_avoid j h st d dt :
  reify j h (VRef st) = Some (TDict dt) → h !! st = Some (ODict d) →
  ∃ J, Forall2 (entry_reifies (reify_avoiding [st] J h)) d dt.
Proof.
  intros Hr Hst.
  destruct (reify_minimal _ _ _ _ _ Hr) as (jm & _ & Hm & Hmin).
  destruct jm as [|j0]; [done|].
  apply reify_avoiding_ref in Hm as [_ Hm].
  destruct Hm as [(d' & dt' & Hd' & _ & [= <-] & Hall)
                 |[(? & ? & ? & ? & _)|[[? ?]|(? & ? & ? & ? & _)]]];
    try congruence.
  assert (d' = d) as -> by congruence.
  exists j0. eapply Forall2_impl; [exact Hall|].
  intros [k v] [k' t] [Hk Ht]. split; [done|]. simpl in *.
  destruct (reify_avoid_or_visit [] st j0 h v t Ht) as [?|(j' & t' & Hle & Hvis)];
    [done|].
  by destruct (Hmin j' t' ltac:(lia)).
Qed.

(** The tree of an instance after its store has been given the entry
    [(k, v)], when [v] is read without going through the store.  Objects
    may have been added in between. *)
Lemma store_update_reify n h h' self st d dt k v tv j :
  instance h self st d → reify n h (VRef self) = Some (TData (TDict dt)) →
  preserves h h' → reify_avoiding [st] j h' v = Some tv →
  ∃ N, reify N (<[st := ODict (dict_set k v d)]> h') (VRef self)
       = Some (TData (TDict (assoc_set k tv dt))).
Proof.
  intros [Hself Hst] Hr Hp Hv.
  assert (self ≠ st) as Hne by (intros ->; congruence).
  destruct n as [|n]; [done|]. pose proof Hr as Hr0.
  apply reify_avoiding_ref in Hr0 as [_ Hr0].
  destruct Hr0 as [(? & ? & ? & _)
                  |[(sv & ts & Hd & [= <-] & Hs)|[[? _]|(? & ? & ? & _)]]];
    try congruence.
  assert (sv = VRef st) as -> by congruence.
  destruct (children_avoid _ _ _ _ _ Hs Hst) as (J & Hall).
  destruct n as [|n]; [done|].
  apply reify_avoiding_ref in Hs as [_ Hs].
  destruct Hs as [(d' & dt' & Hd' & Hnd & [= <-] & _)
                 |[(? & ? & ? & ? & _)|[[? ?]|(? & ? & ? & ? & _)]]];
    try congruence.
  assert (d' = d) as -> by congruence.
  set (h1 := <[st := ODict (dict_set k v d)]> h').
  set (M := Nat.max J j).
  assert (st < List.length h')%nat by (eapply lookup_lt_Some; by apply Hp).
  assert (∀ v0 t0 j0, (j0 ≤ M)%nat → reify_avoiding [st] j0 h' v0 = Some t0 →
            reify M h1 v0 = Some t0) as Hmove.
  { intros v0 t0 j0 Hle H0. apply (reify_avoiding_weaken [st]); [apply list_subseteq_nil|].
    apply reify_avoiding_insert; [left|]. by apply (reify_avoiding_fuel _ j0). }
  exists (S (S M)). apply (reify_avoiding_data [] _ _ _ (VRef st)).
  - apply not_elem_of_nil.
  - subst h1. rewrite list_lookup_insert_ne by done. by apply Hp.
  - apply (reify_avoiding_dict [] _ _ _ (dict_set k v d)).
    + apply not_elem_of_nil.
    + subst h1. by apply list_lookup_insert_eq.
    + by apply dict_set_NoDup.
    + apply entries_reify_set.
      * eapply Forall2_impl; [exact Hall|].
        intros [k1 v1] [k2 t2] [Hk Ht]. split; [done|]. simpl in *.
        apply (Hmove _ _ J); [subst M; lia|].
        by apply (reify_avoiding_preserves _ _ h).
      * apply (Hmove _ _ j); [subst M; lia | done].
Qed.

(** X16.  A write shows in the conversion: after [name] has been given a
    value that can be converted and is not itself reached through the
    store, [to_dict] (with enough depth) returns a mapping that has the
    plain form of that value under [name], and under every other key what
    it had before the write. *)
Theorem write_shows_in_to_dict n h self st d dt name v j tv :
  instance h self st d → reify n h (VRef self) = Some (TData (TDict dt)) →
  convertible (TDict dt) = true → name ≠ "_data" →
  reify_avoiding [st] j h v = Some tv → convertible tv = true →
  ∃ h1 N r h2 t2,
    Data.__setattr__ self name v h = Ok h1 ∧
    Data.to_dict N self h1 = Ok (VRef r, h2) ∧
    reify N h2 (VRef r) = Some t2 ∧
    tree_get name t2 = Some (to_plain tv) ∧
    ∀ k, k ≠ name → tree_get k t2 = tree_get k (to_plain (TDict dt)).
Proof.
  intros Hinst Hr Hc Hname Hv Hcv.
  rewrite (setattr_ok _ _ _ _ _ _ Hinst), decide_False by done.
  destruct (store_update_reify n h h self st d dt name v tv j Hinst Hr
              (preserves_refl h) Hv) as (N & HN).
  assert (convertible (TData (TDict (assoc_set name tv dt))) = true) as Hc'.
  { simpl in *. by apply assoc_set_forallb. }
  destruct (to_dict_spec _ _ _ _ HN Hc') as (r & h2 & Heq & _ & _ & Hout & _).
  eexists _, N, r, h2, _. split; [done|]. split; [exact Heq|].
  split; [exact Hout|]. simpl. split.
  - by rewrite assoc_map_snd, assoc_set_eq.
  - intros k Hk. by rewrite !assoc_map_snd, assoc_set_ne.
Qed.

Lemma write_shows_in_to_dict_witness :
  ∃ h1 N r h2 t2,
    Data.__setattr__ 5 "color" (VSeq [VStr "red"]) loaded_heap = Ok h1 ∧
    Data.to_dict N 5 h1 = Ok (VRef r, h2) ∧
    reify N h2 (VRef r) = Some t2 ∧
    tree_get "color" t2 = Some (to_plain (TLeaf (VSeq [VStr "red"]))) ∧
    ∀ k, k ≠ "color" → tree_get k t2 = tree_get k (to_plain example).
Proof.
  apply (write_shows_in_to_dict 5 loaded_heap 5 4 [("metadata", VRef 2)]
           [("metadata",
             TDict
               [("system",
                 TDict [("size", TLeaf (VFloat 10.7));
                        ("height", TLeaf (VInt 11))]);
                ("user", TDict [("batch", TLeaf (VInt 1121))])])]
           "color" (VSeq [VStr "red"]) 1 (TLeaf (VSeq [VStr "red"]))).
  - split; reflexivity.
  - reflexivity.
  - reflexivity.
  - discriminate.
  - reflexivity.
  - reflexivity.
Defined.

(** The constructor on a mapping that has its defaults: two new objects. *)
Lemma new_with_defaults h sub mm md ss sd :
  dict_get "self" sub = None →
  dict_get "metadata" sub = Some (VRef mm) → h !! mm = Some (ODict md) →
  dict_get "system" md = Some (VRef ss) → h !! ss = Some (ODict sd) →
  is_Some (dict_get "height" sd) → is_Some (dict_get "size" sd) →
  Data.new sub h =
  Ok (S (List.length h),
      h ++ [ODict sub; OData (Some (VRef (List.length h)))]).
Proof.
  intros Hkw Hmeta Hmm Hsys Hss Hh Hz. rewrite new_init by done.
  set (k := List.length h). set (h1 := h ++ _).
  assert (preserves h h1) as Hp by apply preserves_app.
  rewrite (set_default_values_noop h1 (S k) k sub mm md ss sd); try done.
  - split; subst h1 k; [hlook 1 | hlook 0].
  - by apply Hp.
  - by apply Hp.
Qed.

Lemma forallb_assoc {A} (P : A → bool) k x (d : list (string * A)) :
  forallb (fun kt => P kt.2) d = true → assoc k d = Some x → P x = true.
Proof.
  induction d as [|[k' x'] d IH]; simpl; [done|].
  intros [H1 H2]%andb_prop. destruct (decide (k = k')); [|by apply IH].
  by intros [= <-].
Qed.

(** X17.  Reading a key whose mapping has no key [self] and has
    [metadata.system.height] and [size] already wraps the mapping but does not change what [to_dict]
    returns: the mapping before the read and the mapping after it are the
    same. *)
Theorem read_with_defaults_keeps_to_dict
    n h self st d dt k m sub mm md ss sd :
  instance h self st d → reify n h (VRef self) = Some (TData (TDict dt)) →
  convertible (TDict dt) = true →
  dict_get k d = Some (VRef m) → h !! m = Some (ODict sub) →
  dict_get "self" sub = None →
  dict_get "metadata" sub = Some (VRef mm) → h !! mm = Some (ODict md) →
  dict_get "system" md = Some (VRef ss) → h !! ss = Some (ODict sd) →
  is_Some (dict_get "height" sd) → is_Some (dict_get "size" sd) →
  ∃ r0 h0 w h1 N r h2,
    Data.to_dict n self h = Ok (VRef r0, h0) ∧
    reify n h0 (VRef r0) = Some (to_plain (TDict dt)) ∧
    Data.__getattr__ n self k h = Ok (VRef w, h1) ∧
    is_dataclass h1 (VRef w) = true ∧
    Data.to_dict N self h1 = Ok (VRef r, h2) ∧
    reify N h2 (VRef r) = Some (to_plain (TDict dt)).
Proof.
  intros Hinst Hr Hc Hk Hm Hkw Hmeta Hmm Hsys Hss Hh Hz.
  pose proof Hinst as [Hself Hst].
  assert (self ≠ st) as Hne by (intros ->; congruence).
  assert (st < List.length h)%nat as Hlst by (by eapply lookup_lt_Some).
  destruct (to_dict_spec _ _ _ _ Hr Hc) as (r0 & h0 & Heq0 & _ & _ & Hout0 & _).
  pose proof (new_with_defaults h sub mm md ss sd Hkw Hmeta Hmm Hsys Hss Hh Hz)
    as Hnew.
  set (L := List.length h) in *. set (h' := h ++ _) in Hnew.
  assert (preserves h h') as Hp by apply preserves_app.
  assert (instance h' self st d) as Hinst' by (split; by apply Hp).
  pose proof (getattr_materialize n h self st d k m sub (S L) h' d
                Hinst Hk Hm Hnew Hinst') as Hget.
  (* the wrapped mapping, read without going through the store *)
  destruct n as [|n]; [done|]. pose proof Hr as Hr0.
  apply reify_avoiding_ref in Hr0 as [_ Hr0].
  destruct Hr0 as [(? & ? & ? & _)
                  |[(sv & ts & Hd & [= <-] & Hs)|[[? _]|(? & ? & ? & _)]]];
    try congruence.
  assert (sv = VRef st) as -> by congruence.
  destruct (children_avoid _ _ _ _ _ Hs Hst) as (J & Hall).
  destruct (entries_reify_get _ _ _ _ _ Hall Hk) as (tm & Htm & Hrm).
  destruct J as [|J]; [done|].
  apply reify_avoiding_ref in Hrm as [_ Hrm].
  destruct Hrm as [(sub' & subt & Hsub' & Hnd & -> & Hsubt)
                  |[(? & ? & ? & ? & _)|[[? ?]|(? & ? & ? & ? & _)]]];
    try congruence.
  assert (sub' = sub) as -> by congruence.
  assert (reify_avoiding [st] (S (S J)) h' (VRef (S L))
          = Some (TData (TDict subt))) as Hw.
  { apply (reify_avoiding_data _ _ _ _ (VRef L)).
    - intros Hx%list_elem_of_singleton. subst L. lia.
    - subst h' L. hlook 1.
    - apply (reify_avoiding_dict _ _ _ _ sub); [| |done|].
      + intros Hx%list_elem_of_singleton. subst L. lia.
      + subst h' L. hlook 0.
      + eapply Forall2_impl; [exact Hsubt|].
        intros [k1 v1] [k2 t2] [Hk1 Ht2]. split; [done|].
        by apply (reify_avoiding_preserves _ _ h). }
  destruct (store_update_reify (S n) h h' self st d dt k (VRef (S L))
              (TData (TDict subt)) (S (S J)) Hinst Hr Hp Hw) as (N & HN).
  assert (convertible (TDict subt) = true) as Hcs.
  { simpl in Hc. apply (forallb_assoc convertible k _ dt Hc Htm). }
  assert (convertible (TData (TDict (assoc_set k (TData (TDict subt)) dt)))
          = true) as Hc'.
  { cbn [convertible is_tdict andb]. apply assoc_set_forallb; [done|].
    cbn [convertible is_tdict andb]. exact Hcs. }
  destruct (to_dict_spec _ _ _ _ HN Hc') as (r & h2 & Heq & _ & _ & Hout & _).
  eexists r0, h0, (S L), _, N, r, h2.
  split; [exact Heq0|]. split; [exact Hout0|]. split; [exact Hget|].
  split.
  { cbn [is_dataclass]. rewrite list_lookup_insert_ne by (subst L; lia).
    assert (h' !! S L = Some (OData (Some (VRef L)))) as ->
      by (subst h' L; hlook 1).
    done. }
  split; [exact Heq|]. rewrite Hout. f_equal.
  cbn [to_plain]. f_equal.
  by apply (assoc_set_map_same to_plain k _ (TDict subt)).
Qed.

Lemma read_with_defaults_keeps_to_dict_witness :
  ∃ r0 h0 w h1 N r h2,
    Data.to_dict 6 5 config_loaded = Ok (VRef r0, h0) ∧
    reify 6 h0 (VRef r0) = Some (to_plain (TDict config_store)) ∧
    Data.__getattr__ 6 5 "cfg" config_loaded = Ok (VRef w, h1) ∧
    is_dataclass h1 (VRef w) = true ∧
    Data.to_dict N 5 h1 = Ok (VRef r, h2) ∧
    reify N h2 (VRef r) = Some (to_plain (TDict config_store)).
Proof.
  apply (read_with_defaults_keeps_to_dict 6 config_loaded 5 4
           [("cfg", VRef 2); ("metadata", VRef 6)] config_store "cfg" 2
           [("metadata", VRef 1)] 1 [("system", VRef 0)] 0
           [("height", VInt 1); ("size", VInt 2)]).
  - split; reflexivity.
  - reflexivity.
  - reflexivity.
  - reflexivity.
  - reflexivity.
  - reflexivity.
  - reflexivity.
  - reflexivity.
  - reflexivity.
  - reflexivity.
  - by eexists.
  - by eexists.
Defined.

(** ** Construction followed by conversion *)

Lemma entries_reify_leaves (f : value → option tree) (d : entries) :
  (∀ k v, (k, v) ∈ d → f v = Some (TLeaf v)) →
  Forall2 (entry_reifies f) d (map (fun kv => (kv.1, TLeaf kv.2)) d).
Proof.
  induction d as [|[k v] d IH]; intros Hd; simpl; constructor.
  - split; [done|]. apply (Hd k). left.
  - apply IH. intros k' v' Hin. apply (Hd k'). by right.
Qed.

(** X18.  An instance made from keyword arguments that are plain values,
    [self] and [metadata] not among them, converts to those arguments, in their
    order, followed by the default [metadata]; with no argument at all, to
    the default [metadata] alone. *)
Theorem to_dict_of_new h kwargs :
  NoDup kwargs.*1 → dict_get "self" kwargs = None →
  dict_get "metadata" kwargs = None →
  (∀ k v, (k, v) ∈ kwargs → ∀ a, v ≠ VRef a) →
  ∃ self h1 r h2,
    Data.new kwargs h = Ok (self, h1) ∧
    Data.to_dict 5 self h1 = Ok (VRef r, h2) ∧
    reify 5 h2 (VRef r)
    = Some (TDict
              (map (fun kv => (kv.1, TLeaf kv.2)) kwargs ++
               [("metadata",
                 TDict
                   [("system",
                     TDict [("height", TLeaf (VInt 100));
                            ("size", TLeaf (VInt 10))])])])).
Proof.
  intros Hnd Hkw Hmeta Hleaf.
  pose proof (new_without_metadata h kwargs Hkw Hmeta) as Hnew.
  set (k := List.length h) in *. set (h1 := h ++ _) in Hnew.
  set (T := TDict (map (fun kv => (kv.1, TLeaf kv.2)) kwargs ++ _)).
  assert (reify 5 h1 (VRef (S k)) = Some (TData T)) as Hr.
  { apply (reify_avoiding_data [] 4 h1 (S k) (VRef k));
      [apply not_elem_of_nil | subst h1 k; hlook 1|].
    apply (reify_avoiding_dict [] 3 h1 k
             (kwargs ++ [("metadata", VRef (2 + k))]));
      [apply not_elem_of_nil | subst h1 k; hlook 0 | |].
    - rewrite fmap_app. apply NoDup_app. split_and!; [done| |apply NoDup_singleton].
      intros x Hx ->%list_elem_of_singleton. by apply dict_get_None in Hmeta.
    - apply Forall2_app.
      + apply entries_reify_leaves. intros k0 v Hin.
        apply reify_avoiding_leaf. by apply (Hleaf k0).
      + constructor; [|constructor]. split; [done|]. cbn [fst snd].
        apply (reify_avoiding_dict [] 2 h1 (2 + k) [("system", VRef (3 + k))]);
          [apply not_elem_of_nil | subst h1 k; hlook 2
          | apply NoDup_singleton |].
        constructor; [|constructor]. split; [done|]. cbn [fst snd].
        apply (reify_avoiding_dict [] 1 h1 (3 + k)
                 [("height", VInt 100); ("size", VInt 10)]);
          [apply not_elem_of_nil | subst h1 k; hlook 3
          | apply (bool_decide_unpack _); by vm_compute |].
        by repeat constructor. }
  assert (plain T = true) as Hplain.
  { subst T. cbn [plain]. rewrite forallb_app. apply andb_true_intro. split.
    - clear. by induction kwargs as [|[k v] d IH].
    - reflexivity. }
  assert (convertible (TData T) = true) as Hc.
  { cbn [convertible]. subst T. cbn [is_tdict andb].
    by apply (plain_convertible (TDict _)). }
  destruct (to_dict_spec _ _ _ _ Hr Hc) as (r & h2 & Heq & _ & _ & Hout & _).
  exists (S k), h1, r, h2. split; [done|]. split; [done|].
  by rewrite (to_plain_plain _ Hplain) in Hout.
Qed.

Lemma to_dict_of_new_witness :
  ∃ self h1 r h2,
    Data.new [("name", VStr "John"); ("age", VInt 25)] [] = Ok (self, h1) ∧
    Data.to_dict 5 self h1 = Ok (VRef r, h2) ∧
    reify 5 h2 (VRef r)
    = Some (TDict
              (map (fun kv => (kv.1, TLeaf kv.2))
                 [("name", VStr "John"); ("age", VInt 25)] ++
               [("metadata",
                 TDict
                   [("system",
                     TDict [("height", TLeaf (VInt 100));
                            ("size", TLeaf (VInt 10))])])])).
Proof.
  apply (to_dict_of_new [] [("name", VStr "John"); ("age", VInt 25)]).
  - apply (bool_decide_unpack _). by vm_compute.
  - reflexivity.
  - reflexivity.
  - intros k v Hin a.
    apply elem_of_cons in Hin as [[= -> ->]|Hin]; [done|].
    apply elem_of_cons in Hin as [[= -> ->]|Hin]; [done|].
    by apply elem_of_nil in Hin.
Defined.

(** ** Wrappers and the store reference *)

(** X19.  The wrapper made on a read of a dictionary the constructor
    accepts (no key [self]; [metadata] and [metadata.system] dictionaries,
    if present) has a store of its own, a new
    dictionary: a write through the wrapper lands there and changes no
    other object, so the dictionary that was wrapped does not get the
    entry. *)
Theorem wrapper_store_is_a_copy n h self st d k m sub name v :
  instance h self st d → dict_get k d = Some (VRef m) →
  h !! m = Some (ODict sub) → dict_get "self" sub = None →
  well_shaped h sub = true → name ≠ "_data" →
  ∃ w ws wd h1 h2,
    Data.__getattr__ n self k h = Ok (VRef w, h1) ∧
    instance h1 w ws wd ∧ h !! ws = None ∧
    Data.__setattr__ w name v h1 = Ok h2 ∧
    has h2 ws name v ∧
    (∀ a, a ≠ ws → h2 !! a = h1 !! a) ∧
    h2 !! m = h1 !! m.
Proof.
  intros Hinst Hk Hm Hkw Hws Hname. pose proof Hinst as [Hself Hst].
  assert (st < List.length h)%nat as Hlst by (by eapply lookup_lt_Some).
  assert (m < List.length h)%nat as Hlm by (by eapply lookup_lt_Some).
  destruct (new_spec h sub Hkw Hws)
    as (h' & wd & mm & ss & Hnew & Hg & [Hw Hws'] & _).
  destruct (grows_dict _ _ _ _ Hg Hst) as (d' & Hst' & _).
  pose proof (grows_data _ _ _ _ Hg Hself) as Hself'.
  pose proof (getattr_materialize n h self st d k m sub _ h' d'
                Hinst Hk Hm Hnew (conj Hself' Hst')) as Hget.
  set (w := S (List.length h)) in *. set (ws := List.length h) in *.
  set (h1 := <[st := ODict (dict_set k (VRef w) d')]> h') in *.
  assert (instance h1 w ws wd) as Hinstw.
  { split; subst h1 w ws; by rewrite list_lookup_insert_ne by lia. }
  assert (ws < List.length h1)%nat by (eapply lookup_lt_Some; apply Hinstw).
  exists w, ws, wd, h1. eexists.
  split; [exact Hget|]. split; [exact Hinstw|].
  split; [by apply lookup_ge_None|].
  rewrite (setattr_ok _ _ _ _ _ _ Hinstw), decide_False by done.
  split; [done|]. split_and!.
  - eexists. split; [by apply list_lookup_insert_eq | apply dict_get_set_eq].
  - intros a Ha. by rewrite list_lookup_insert_ne.
  - rewrite list_lookup_insert_ne; [done | subst ws; lia].
Qed.

Lemma wrapper_store_is_a_copy_witness :
  ∃ w ws wd h1 h2,
    Data.__getattr__ 3 4 "metadata" nested_loaded = Ok (VRef w, h1) ∧
    instance h1 w ws wd ∧ nested_loaded !! ws = None ∧
    Data.__setattr__ w "note" (VStr "n") h1 = Ok h2 ∧
    has h2 ws "note" (VStr "n") ∧
    (∀ a, a ≠ ws → h2 !! a = h1 !! a) ∧
    h2 !! 1 = h1 !! 1.
Proof.
  apply (wrapper_store_is_a_copy 3 nested_loaded 4 3
           [("metadata", VRef 1)] "metadata" 1 [("system", VRef 0)]
           "note" (VStr "n")).
  - split; reflexivity.
  - reflexivity.
  - reflexivity.
  - reflexivity.
  - reflexivity.
  - discriminate.
Defined.

(** X20.  Writing [_data] rebinds the store and nothing else: the
    dictionary given becomes the store, as it is (no copy is made and no
    default is injected), every other object is unchanged, and a later
    write of another name goes into that very dictionary. *)
Theorem rebinding_the_store h self st d m dm name v :
  instance h self st d → h !! m = Some (ODict dm) → name ≠ "_data" →
  ∃ h1 h2,
    Data.__setattr__ self "_data" (VRef m) h = Ok h1 ∧
    instance h1 self m dm ∧ (∀ a, a ≠ self → h1 !! a = h !! a) ∧
    Data.__setattr__ self name v h1 = Ok h2 ∧
    h2 !! m = Some (ODict (dict_set name v dm)).
Proof.
  intros Hinst Hm Hname. pose proof Hinst as [Hself Hst].
  assert (m ≠ self) as Hne by (intros ->; congruence).
  assert (self < List.length h)%nat by (by eapply lookup_lt_Some).
  assert (m < List.length h)%nat by (by eapply lookup_lt_Some).
  rewrite (setattr_ok _ _ _ _ _ _ Hinst), decide_True by done.
  set (h1 := <[self := OData (Some (VRef m))]> h).
  assert (instance h1 self m dm) as Hinst1.
  { split; subst h1; [by apply list_lookup_insert_eq|].
    by rewrite list_lookup_insert_ne. }
  exists h1. eexists. split; [done|]. split; [done|]. split.
  { intros a Ha. subst h1. by rewrite list_lookup_insert_ne. }
  rewrite (setattr_ok _ _ _ _ _ _ Hinst1), decide_False by done.
  split; [done|].
  apply list_lookup_insert_eq. subst h1. by rewrite length_insert.
Qed.

Lemma rebinding_the_store_witness :
  ∃ h1 h2,
    Data.__setattr__ 4 "_data" (VRef 0) nested_loaded = Ok h1 ∧
    instance h1 4 0 [("height", VInt 11); ("size", VFloat 10.7)] ∧
    (∀ a, a ≠ 4 → h1 !! a = nested_loaded !! a) ∧
    Data.__setattr__ 4 "x" (VInt 1) h1 = Ok h2 ∧
    h2 !! 0
    = Some (ODict (dict_set "x" (VInt 1)
                     [("height", VInt 11); ("size", VFloat 10.7)])).
Proof.
  apply (rebinding_the_store nested_loaded 4 3 [("metadata", VRef 1)] 0
           [("height", VInt 11); ("size", VFloat 10.7)] "x" (VInt 1)).
  - split; reflexivity.
  - reflexivity.
  - discriminate.
Defined.
